(** * pbbes: the bias-board console's control loop

    A shallow embedding of the three modules the console's main loop is
    built on,

    - [Device.py]            the command/response transaction engine,
    - [IntervalScheduler.py] the two-source event scheduler,
    - [KeyboardInput.py]     the keystroke decoder and the input router,

    followed by the properties established about them.  Python objects
    that are mutated in place (the class-level lists, the instance
    dictionaries, the serial port) live in explicit stores; methods are
    computations in a state-and-exception monad over those stores. *)

From Stdlib Require Import ZArith String Ascii List Bool Lia DecimalString.
From Stdlib Require Import Floats.PrimFloat.
From stdpp Require Import base gmap strings list.

Open Scope string_scope.
Open Scope Z_scope.

(** * Part I: definitions *)

(** ** The fragment of Python the sources rely on *)
Module Py.

(** The [ValueError]s the sources can meet, by the place that raises
    them.  [UnicodeDecodeError] is a subclass of [ValueError] in Python
    and is caught by every [except ValueError]. *)
Inductive value_error :=
  | Serial_read_timeout          (* "Serial read timeout! ({}s)" *)
  | Device_replied_ERROR         (* "Device replied 'ERROR'" *)
  | Device_did_not_end_with_OK   (* "Device did not end with 'OK'" *)
  | invalid_literal_for_int (s : string)
  | UnicodeDecodeError.

Inductive exn :=
  | ValueError (why : value_error)
  | NameError (name : string)
  | AttributeError (name : string)
  | TypeError
  | SerialTimeoutException
  | StopIteration
  | SystemError.   (* a reference to an object the store does not hold *)

Inductive result (A : Type) :=
  | Ok (a : A)
  | Raise (e : exn).
Arguments Ok {A} a.
Arguments Raise {A} e.

Definition result_map {A B} (f : A -> B) (r : result A) : result B :=
  match r with Ok a => Ok (f a) | Raise e => Raise e end.

(** A method body: it runs on a store, leaves a store behind, and either
    returns or raises.  What a method wrote before it raised stays
    written. *)
Definition M (S A : Type) : Type := S -> result A * S.

Definition ret {S A} (a : A) : M S A := fun s => (Ok a, s).
Definition raise {S A} (e : exn) : M S A := fun s => (Raise e, s).
Definition bind {S A B} (c : M S A) (k : A -> M S B) : M S B :=
  fun s => match c s with
           | (Ok a, s') => k a s'
           | (Raise e, s') => (Raise e, s')
           end.
(** [try: c  except <any>: h e] *)
Definition try_except {S A} (c : M S A) (h : exn -> M S A) : M S A :=
  fun s => match c s with
           | (Ok a, s') => (Ok a, s')
           | (Raise e, s') => h e s'
           end.
Definition get {S} : M S S := fun s => (Ok s, s).
Definition modify {S} (f : S -> S) : M S unit := fun s => (Ok tt, f s).
Definition lift_result {S A} (r : result A) : M S A := fun s => (r, s).
Definition when {S} (b : bool) (c : M S unit) : M S unit :=
  if b then c else ret tt.

Declare Scope py_scope.
Delimit Scope py_scope with py.
Notation "'let*' x ':=' c 'in' k" := (bind c (fun x => k))
  (at level 10, x name, c at level 100, k at level 200) : py_scope.
Notation "c ';;;' k" := (bind c (fun _ => k))
  (at level 100, k at level 200, right associativity) : py_scope.

(** Attribute lookup on an instance: the instance's own dictionary
    first, then the dictionary of its class. *)
Definition lookup_attr {V} (inst cls : gmap string V) (name : string)
  : option V :=
  match inst !! name with
  | Some v => Some v
  | None => cls !! name
  end.

(** *** Text

    A [str] is kept as its UTF-8 encoding, so ASCII text is the Rocq
    string with the same characters, [.encode('utf-8')] is the identity
    and [==] is equality of Rocq strings. *)

Definition byte_in (lo hi : N) (c : ascii) : bool :=
  ((lo <=? N_of_ascii c) && (N_of_ascii c <=? hi))%N.

Definition is_continuation : ascii -> bool := byte_in 128 191.

(** Well-formed UTF-8, as [bytes.decode('utf-8')] (strict) accepts it:
    no overlong forms, no surrogates, nothing above U+10FFFF. *)
Fixpoint utf8_valid_go (fuel : nat) (s : string) : bool :=
  match fuel with
  | O => match s with EmptyString => true | _ => false end
  | S fuel =>
    match s with
    | EmptyString => true
    | String a r =>
      if byte_in 0 127 a then utf8_valid_go fuel r
      else match r with
      | EmptyString => false
      | String b r =>
        if byte_in 194 223 a then byte_in 128 191 b && utf8_valid_go fuel r
        else match r with
        | EmptyString => false
        | String c r =>
          if byte_in 224 224 a then
            byte_in 160 191 b && byte_in 128 191 c && utf8_valid_go fuel r
          else if byte_in 225 236 a || byte_in 238 239 a then
            byte_in 128 191 b && byte_in 128 191 c && utf8_valid_go fuel r
          else if byte_in 237 237 a then
            byte_in 128 159 b && byte_in 128 191 c && utf8_valid_go fuel r
          else match r with
          | EmptyString => false
          | String d r =>
            if byte_in 240 240 a then
              byte_in 144 191 b && byte_in 128 191 c && byte_in 128 191 d
              && utf8_valid_go fuel r
            else if byte_in 241 243 a then
              byte_in 128 191 b && byte_in 128 191 c && byte_in 128 191 d
              && utf8_valid_go fuel r
            else if byte_in 244 244 a then
              byte_in 128 143 b && byte_in 128 191 c && byte_in 128 191 d
              && utf8_valid_go fuel r
            else false
          end
        end
      end
    end
  end.

Definition utf8_valid (s : string) : bool :=
  utf8_valid_go (String.length s) s.

(** [b.decode('utf-8')] *)
Definition decode_utf8 (b : string) : result string :=
  if utf8_valid b then Ok b else Raise (ValueError UnicodeDecodeError).

(** [s[:k]]: the first [k] code points. *)
Fixpoint str_take (k : nat) (s : string) : string :=
  match s with
  | EmptyString => EmptyString
  | String c r =>
    if is_continuation c then String c (str_take k r)
    else match k with
         | O => EmptyString
         | S k' => String c (str_take k' r)
         end
  end.

(** [sep.join(l)] *)
Fixpoint join (sep : string) (l : list string) : string :=
  match l with
  | [] => ""
  | [x] => x
  | x :: rest => x ++ sep ++ join sep rest
  end.

(** [s.replace(a, b)] for one-character [a] and [b]. *)
Fixpoint replace (a b : ascii) (s : string) : string :=
  match s with
  | EmptyString => EmptyString
  | String c r => String (if Ascii.eqb c a then b else c) (replace a b r)
  end.

(** Whitespace as [str.split()] and [int()] see it, on ASCII: TAB, LF,
    VT, FF, CR, the four separators FS GS RS US, and the space.
    (Unicode's further spaces and decimal digits lie outside the ASCII
    wire protocol and are not modelled.) *)
Definition is_space (c : ascii) : bool :=
  byte_in 9 13 c || byte_in 28 32 c.

Definition is_digit (c : ascii) : bool := byte_in 48 57 c.

Definition digit_value (c : ascii) : Z := Z.of_N (N_of_ascii c) - 48.

(** [s.split()]: the maximal runs of non-whitespace, in order.  [cur] is
    the run being read, reversed. *)
Fixpoint split_go (s : string) (cur : list ascii) : list string :=
  match s with
  | EmptyString =>
      match cur with
      | [] => []
      | _ => [string_of_list_ascii (rev cur)]
      end
  | String c r =>
      if is_space c then
        match cur with
        | [] => split_go r []
        | _ => string_of_list_ascii (rev cur) :: split_go r []
        end
      else split_go r (c :: cur)
  end.
Definition split (s : string) : list string := split_go s [].

Fixpoint lstrip (s : string) : string :=
  match s with
  | String c r => if is_space c then lstrip r else s
  | EmptyString => EmptyString
  end.
Fixpoint all_space (s : string) : bool :=
  match s with
  | EmptyString => true
  | String c r => is_space c && all_space r
  end.
Fixpoint rstrip (s : string) : string :=
  match s with
  | EmptyString => EmptyString
  | String c r => if all_space s then EmptyString else String c (rstrip r)
  end.
Definition strip (s : string) : string := rstrip (lstrip s).

(** The digits of a base-10 literal: one or more digits, with single
    underscores allowed between digits.  [acc] is the value read so far
    and [prev_digit] tells whether the previous character was a digit. *)
Fixpoint int_digits (s : string) (acc : Z) (prev_digit : bool) : option Z :=
  match s with
  | EmptyString => if prev_digit then Some acc else None
  | String c r =>
      if is_digit c then int_digits r (10 * acc + digit_value c) true
      else if Ascii.eqb c "_" && prev_digit then int_digits r acc false
      else None
  end.

(** [int(s)] for a [str] argument. *)
Definition int (s : string) : result Z :=
  let bad := Raise (ValueError (invalid_literal_for_int s)) in
  match strip s with
  | String "-" r =>
      match int_digits r 0 false with Some z => Ok (- z) | None => bad end
  | String "+" r =>
      match int_digits r 0 false with Some z => Ok z | None => bad end
  | t =>
      match int_digits t 0 false with Some z => Ok z | None => bad end
  end.

(** [[int(x) for x in l]] *)
Fixpoint ints (l : list string) : result (list Z) :=
  match l with
  | [] => Ok []
  | x :: rest =>
      match int x with
      | Raise e => Raise e
      | Ok z => result_map (cons z) (ints rest)
      end
  end.

(** [str(z)] and ['{}'.format(z)] for an [int]. *)
Definition str_of_int (z : Z) : string := NilZero.string_of_int (Z.to_int z).

Fixpoint zeros (n : nat) : string :=
  match n with O => "" | S n => String "0" (zeros n) end.

(** ['{:0w}'.format(z)] for an [int]: zero-filled to width [w], the sign
    (counted in the width) ahead of the zeros. *)
Definition format_zero_padded (w : nat) (z : Z) : string :=
  let digits := str_of_int (Z.abs z) in
  if (z <? 0)%Z
  then "-" ++ zeros (w - 1 - String.length digits)%nat ++ digits
  else zeros (w - String.length digits)%nat ++ digits.

(** *** Numbers

    The scheduler is handed its intervals and reads the clock, and does
    [+], [-], [<], [>] and [min] on whatever numbers these are: ints,
    floats, or both. *)
Class Number (num : Type) := {
  num_add : num -> num -> num;
  num_sub : num -> num -> num;
  num_lt : num -> num -> bool;
  num_zero : num
}.

(** [min(a, b)]: the first of the smallest. *)
Definition num_min {num} `{Number num} (a b : num) : num :=
  if num_lt b a then b else a.

(** Python's [int]. *)
#[global] Instance int_Number : Number Z :=
  {| num_add := Z.add; num_sub := Z.sub; num_lt := Z.ltb; num_zero := 0 |}.

(** Python's [float]: IEEE 754 binary64. *)
#[global] Instance float_Number : Number float :=
  {| num_add := PrimFloat.add; num_sub := PrimFloat.sub;
     num_lt := PrimFloat.ltb; num_zero := PrimFloat.zero |}.

(** A record handed to the [logging] module. *)
Record log_record := LogRecord {
  logger : string;
  level : string;
  message : string
}.

End Py.

(** ** IntervalScheduler.py *)
Module IntervalScheduler.
Import Py.
Local Open Scope py_scope.

Section Scheduler.

(** Timestamps and durations, in seconds. *)
Context {time : Type} `{Number time}.

(** [class DotDict(dict)]: attribute access is [dict.get], so a missing
    name reads as [None]; attribute assignment is [dict.__setitem__]. *)
Abbreviation DotDict := (gmap string time) (only parsing).

(** What [__init__] binds on the instance. *)
Record Scheduler := mkScheduler {
  Heartbeat : DotDict;
  Measurement : DotDict;
  time_window : time
}.

(** The instance together with the clock: [time.time()] reads it, and
    [time.sleep(d)] returns when it has advanced by [d]. *)
Record State := mkState {
  clock : time;
  self : Scheduler
}.

(** Event flags *)
Definition HEARTBEAT : Z := 1.
Definition MEASUREMENT : Z := 2.

Definition time_time : M State time := fun s => (Ok (clock s), s).
Definition time_sleep (d : time) : M State unit :=
  modify (fun s => mkState (num_add (clock s) d) (self s)).

(** An operand of arithmetic or comparison, as a [DotDict] attribute
    read it: [None] is a [TypeError]. *)
Definition operand (v : option time) : M State time :=
  match v with
  | Some x => ret x
  | None => raise TypeError
  end.

Definition get_Heartbeat (name : string) : M State (option time) :=
  fun s => (Ok (Heartbeat (self s) !! name), s).
Definition get_Measurement (name : string) : M State (option time) :=
  fun s => (Ok (Measurement (self s) !! name), s).
Definition set_Heartbeat (name : string) (v : time) : M State unit :=
  modify (fun s =>
    mkState (clock s)
      (mkScheduler (<[name := v]> (Heartbeat (self s)))
                   (Measurement (self s)) (time_window (self s)))).
Definition set_Measurement (name : string) (v : time) : M State unit :=
  modify (fun s =>
    mkState (clock s)
      (mkScheduler (Heartbeat (self s))
                   (<[name := v]> (Measurement (self s)))
                   (time_window (self s)))).

(** [IntervalScheduler(heartbeat, measurement, time_window)], built
    when the clock reads [clock]. *)
Definition __init__ (heartbeat measurement time_window : time)
                    (clock : time) : State :=
  let now := clock in
  mkState clock
    (mkScheduler
       (<["NEXTEVENT" := num_add now heartbeat]>
          (<["INTERVAL" := heartbeat]> ∅))
       (<["NEXTEVENT" := num_add now measurement]>
          (<["INTERVAL" := measurement]> ∅))
       time_window).

Definition restart : M State unit :=
  let* now := time_time in
  let* hi := get_Heartbeat "INTERVAL" in
  let* hi := operand hi in
  set_Heartbeat "NEXTEVENT" (num_add now hi) ;;;
  let* mi := get_Measurement "INTERVAL" in
  let* mi := operand mi in
  set_Measurement "NEXTEVENT" (num_add now mi).

(** [interval = None] reads, anything else writes first. *)
Definition measurement (interval : option time) : M State (option time) :=
  match interval with
  | Some i => set_Measurement "INTERVAL" i
  | None => ret tt
  end ;;;
  get_Measurement "INTERVAL".

Definition next : M State Z :=
  let* now := time_time in
  let* h := get_Heartbeat "NEXTEVENT" in
  let* h := operand h in
  let* m := get_Measurement "NEXTEVENT" in
  let* m := operand m in
  let next_event := num_min h m in
  let sleep_duration := num_sub next_event now in
  when (num_lt num_zero sleep_duration) (time_sleep sleep_duration) ;;;
  let* s := get in
  let trigger_time := num_add now (time_window (self s)) in
  let events := 0 in
  let* events :=
    let* h := get_Heartbeat "NEXTEVENT" in
    let* h := operand h in
    if num_lt h trigger_time then
      let* i := get_Heartbeat "INTERVAL" in
      let* i := operand i in
      set_Heartbeat "NEXTEVENT" (num_add h i) ;;;
      ret (Z.lor events HEARTBEAT)
    else ret events in
  let* events :=
    let* m := get_Measurement "NEXTEVENT" in
    let* m := operand m in
    if num_lt m trigger_time then
      let* i := get_Measurement "INTERVAL" in
      let* i := operand i in
      set_Measurement "NEXTEVENT" (num_add m i) ;;;
      ret (Z.lor events MEASUREMENT)
    else ret events in
  ret events.

End Scheduler.

Arguments Scheduler : clear implicits.
Arguments State : clear implicits.

End IntervalScheduler.

(** ** Device.py *)
Module Device.
Import Py.
Local Open Scope py_scope.

(** Object identities. *)
Abbreviation loc := positive (only parsing).

(** The [serial.Serial] object, as far as the class uses it. *)
Record Port := mkPort {
  rx : string;             (* what the line delivers within the read timeout *)
  tx : string;             (* what has been written to the line *)
  write_times_out : bool   (* a write cannot complete within write_timeout *)
}.

Inductive attr_value :=
  | VNone
  | VList (l : loc)
  | VPort (p : loc)
  | VFile (f : loc).

Record World := mkWorld {
  lists : gmap loc (list string);             (* list objects *)
  ports : gmap loc Port;                      (* serial.Serial objects *)
  files : gmap loc string;                    (* text written to open files *)
  instances : gmap loc (gmap string attr_value);   (* Device instances' __dict__ *)
  Device_dict : gmap string attr_value;            (* the names bound in the class body *)
  slept : Z;                                  (* milliseconds spent in time.sleep *)
  log : list log_record;                      (* records handed to logging, oldest first *)
  next_id : loc                               (* the identity the next new object gets *)
}.

Definition with_lists (f : gmap loc (list string) -> gmap loc (list string))
                      (w : World) : World :=
  mkWorld (f (lists w)) (ports w) (files w) (instances w) (Device_dict w)
          (slept w) (log w) (next_id w).
Definition with_ports (f : gmap loc Port -> gmap loc Port) (w : World)
  : World :=
  mkWorld (lists w) (f (ports w)) (files w) (instances w) (Device_dict w)
          (slept w) (log w) (next_id w).
Definition with_files (f : gmap loc string -> gmap loc string) (w : World)
  : World :=
  mkWorld (lists w) (ports w) (f (files w)) (instances w) (Device_dict w)
          (slept w) (log w) (next_id w).
Definition with_instances
    (f : gmap loc (gmap string attr_value) -> gmap loc (gmap string attr_value))
    (w : World) : World :=
  mkWorld (lists w) (ports w) (files w) (f (instances w)) (Device_dict w)
          (slept w) (log w) (next_id w).
Definition with_slept (f : Z -> Z) (w : World) : World :=
  mkWorld (lists w) (ports w) (files w) (instances w) (Device_dict w)
          (f (slept w)) (log w) (next_id w).
Definition with_log (f : list log_record -> list log_record) (w : World)
  : World :=
  mkWorld (lists w) (ports w) (files w) (instances w) (Device_dict w)
          (slept w) (f (log w)) (next_id w).

(** The store once the class statement has run:
<<
    class Device:
        port        = None
        cmds        = []
        logfile     = None
>>
    The list display is evaluated once, here. *)
Definition class_Device : World :=
  mkWorld {[ 1%positive := [] ]} ∅ ∅ ∅
          (<["logfile" := VNone]>
             (<["cmds" := VList 1%positive]> (<["port" := VNone]> ∅)))
          0 [] 2%positive.

(** A new object's identity. *)
Definition new_id : M World loc :=
  fun w =>
    (Ok (next_id w),
     mkWorld (lists w) (ports w) (files w) (instances w) (Device_dict w)
             (slept w) (log w) (Pos.succ (next_id w))).

(** [self.<name>] *)
Definition getattr (self : loc) (name : string) : M World attr_value :=
  fun w =>
    match instances w !! self with
    | None => (Raise SystemError, w)
    | Some d =>
        match lookup_attr d (Device_dict w) name with
        | Some v => (Ok v, w)
        | None => (Raise (AttributeError name), w)
        end
    end.

(** [self.<name> = v] *)
Definition setattr (self : loc) (name : string) (v : attr_value)
  : M World unit :=
  fun w =>
    match instances w !! self with
    | None => (Raise SystemError, w)
    | Some d => (Ok tt, with_instances (insert self (<[name := v]> d)) w)
    end.

Definition time_sleep (ms : Z) : M World unit :=
  modify (with_slept (Z.add ms)).

(** [logging.getLogger(name).<level>(msg)] *)
Definition logging (name lvl msg : string) : M World unit :=
  modify (with_log (fun l => (l ++ [LogRecord name lvl msg])%list)).

(** *** The port *)

Definition LF : ascii := "010"%char.

(** The bytes up to and including the first LF, and the bytes after it;
    without an LF, everything and nothing. *)
Fixpoint split_line (b : string) : string * string :=
  match b with
  | EmptyString => (EmptyString, EmptyString)
  | String c r =>
      if Ascii.eqb c LF then (String c EmptyString, r)
      else let '(l, rest) := split_line r in (String c l, rest)
  end.

(** [b[-1:] == b'\n'] *)
Fixpoint ends_with_LF (b : string) : bool :=
  match b with
  | EmptyString => false
  | String c EmptyString => Ascii.eqb c LF
  | String _ r => ends_with_LF r
  end.

(** [b[:-1]] *)
Fixpoint but_last (b : string) : string :=
  match b with
  | EmptyString => EmptyString
  | String _ EmptyString => EmptyString
  | String c r => String c (but_last r)
  end.

(** The object [self.port] is bound to; a method call on [None] is an
    [AttributeError]. *)
Definition the_port (self : loc) (method : string) : M World (loc * Port) :=
  let* v := getattr self "port" in
  match v with
  | VPort p =>
      let* w := get in
      match ports w !! p with
      | Some port => ret (p, port)
      | None => raise SystemError
      end
  | _ => raise (AttributeError method)
  end.

(** [self.port.write(b)] *)
Definition port_write (self : loc) (b : string) : M World unit :=
  let* pp := the_port self "write" in
  let '(p, port) := pp in
  if write_times_out port then raise SerialTimeoutException
  else modify (with_ports
         (insert p (mkPort (rx port) (tx port ++ b) (write_times_out port)))).

(** [self.port.readline()]: the bytes up to and including LF, or as much
    as has arrived when the timeout strikes. *)
Definition port_readline (self : loc) : M World string :=
  let* pp := the_port self "readline" in
  let '(p, port) := pp in
  let '(line, rest) := split_line (rx port) in
  modify (with_ports
    (insert p (mkPort rest (tx port) (write_times_out port)))) ;;;
  ret line.

(** [self.port.flushInput()] *)
Definition port_flushInput (self : loc) : M World unit :=
  let* pp := the_port self "flushInput" in
  let '(p, port) := pp in
  modify (with_ports
    (insert p (mkPort "" (tx port) (write_times_out port)))).

(** [if self.logfile is not None: self.logfile.write(text)] *)
Definition logfile_write (self : loc) (text : string) : M World unit :=
  let* v := getattr self "logfile" in
  match v with
  | VNone => ret tt
  | VFile f =>
      let* w := get in
      match files w !! f with
      | Some old => modify (with_files (insert f (old ++ text)))
      | None => raise SystemError
      end
  | _ => raise (AttributeError "write")
  end.

(** *** The class *)

(** [Device(..., log = log)] on a freshly opened line.  The constructor
    binds [port] and, when logging, [logfile] on the instance. *)
Definition __init__ (line : Port) (log : bool) : M World loc :=
  let* self := new_id in
  let* p := new_id in
  modify (with_instances (insert self ∅)) ;;;
  modify (with_ports (insert p line)) ;;;
  setattr self "port" (VPort p) ;;;
  port_flushInput self ;;;
  (if log then
     let* f := new_id in
     modify (with_files (insert f "")) ;;;
     setattr self "logfile" (VFile f)
   else ret tt) ;;;
  ret self.

Definition is_ValueError (e : exn) : bool :=
  match e with ValueError _ => true | _ => false end.

(** The local function [readln] of [__transact]. *)
Definition readln (self : loc) : M World string :=
  try_except
    (let* line := port_readline self in
     if negb (ends_with_LF line)
     then raise (ValueError Serial_read_timeout)
     else lift_result (decode_utf8 (but_last line)))
    (fun e =>
       if is_ValueError e then
         (* Timeout! Let 200 ms pass and discard input buffer *)
         time_sleep 200 ;;;
         port_flushInput self ;;;
         raise e
       else
         logging "Device.py:Device.readln()" "ERROR"
                 "Unexpected exception during .readln()!" ;;;
         raise e).

(** The handler of [__transact]'s second [try], around one statement
    that runs while the local [response] has the given value. *)
Definition reporting {A} (response : string) (c : M World A) : M World A :=
  try_except c
    (fun e =>
       if is_ValueError e then raise e
       else
         logging "Device.py:Device.__transact()" "ERROR"
           ("Serial command-response transaction failure! response:'"
              ++ response ++ "'") ;;;
         raise e).

Definition __transact (self : loc) (cmd : string) : M World string :=
  try_except (port_write self cmd)
    (fun e =>
       match e with
       | SerialTimeoutException =>
           (* log.exception(...): no name [log] is bound in this scope *)
           raise (NameError "log")
       | _ => raise e
       end) ;;;
  logfile_write self cmd ;;;
  let* response := reporting "(uninitialized)" (readln self) in
  reporting response (logfile_write self (response ++ String LF "")) ;;;
  if String.eqb response "OK" then ret response
  else if String.eqb response "ERROR"
  then raise (ValueError Device_replied_ERROR)
  else
    let value := response in
    let* response := reporting response (readln self) in
    reporting response (logfile_write self (response ++ String LF "")) ;;;
    if String.eqb response "OK" then ret value
    else raise (ValueError Device_did_not_end_with_OK).

Definition version (self : loc) : M World string :=
  __transact self ("VERS?" ++ String LF "").

(** What [meas] can return: an [int], a list of them, or a [str]. *)
Inductive measurement :=
  | MInt (z : Z)
  | MList (l : list Z)
  | MStr (s : string).

Definition Z_in (n : Z) (l : list Z) : bool := existsb (Z.eqb n) l.

Definition meas (self : loc) (n : Z) : M World measurement :=
  let* val :=
    __transact self ("MEAS" ++ format_zero_padded 2 n ++ "?" ++ String LF "") in
  if Z_in n [0; 1; 2; 3] then
    lift_result (result_map MInt (int (str_take 3 val)))
  else if Z_in n [4; 5; 18] then
    lift_result (result_map MInt (int (str_take 4 val)))
  else if Z_in n [6; 10; 11; 12; 13; 15; 17] then
    lift_result (result_map MInt (int (str_take 2 val)))
  else if Z_in n [14; 16] then
    lift_result (result_map MInt (int (str_take 2 val)))
  else if n =? 99 then
    lift_result (result_map MList (ints (split val)))
  else
    logging "Device.py:Device.meas()" "CRITICAL"
            ("Unhandled selector n=" ++ str_of_int n ++ "!") ;;;
    ret (MStr ("n=" ++ format_zero_padded 2 n)).

(** The list object [self.cmds] is bound to. *)
Definition the_cmds (self : loc) (method : string)
  : M World (loc * list string) :=
  let* v := getattr self "cmds" in
  match v with
  | VList l =>
      let* w := get in
      match lists w !! l with
      | Some items => ret (l, items)
      | None => raise SystemError
      end
  | _ => raise (AttributeError method)
  end.

(** [self.cmds.append(cmd)] *)
Definition cmds_append (self : loc) (cmd : string) : M World unit :=
  let* li := the_cmds self "append" in
  let '(l, items) := li in
  modify (with_lists (insert l (items ++ [cmd])%list)).

Definition pwm (self : loc) (n : Z) (x : option Z) : M World Z :=
  let* val :=
    match x with
    | None =>
        let cmd := "PWM" ++ str_of_int n ++ "?" ++ String LF "" in
        __transact self cmd
    | Some x =>
        let cmd := "PWM" ++ str_of_int n ++ "S" ++ format_zero_padded 3 x
                     ++ String LF "" in
        let* val := __transact self cmd in
        cmds_append self cmd ;;;
        ret val
    end in
  lift_result (int val).

Definition commands (self : loc) : M World string :=
  let* li := the_cmds self "join" in
  let '(l, items) := li in
  let cmds := replace LF " " (join "," items) in
  (* del self.cmds[:] *)
  modify (with_lists (insert l [])) ;;;
  ret cmds.

(** The device's reply reaching the line of port [p]. *)
Definition line_delivers (p : loc) (reply : string) (w : World) : World :=
  with_ports (alter (fun port =>
    mkPort (rx port ++ reply) (tx port) (write_times_out port)) p) w.

(** *** What can be seen of an instance *)

(** The value [self.<name>] evaluates to. *)
Definition attr (w : World) (self : loc) (name : string)
  : option attr_value :=
  match instances w !! self with
  | Some d => lookup_attr d (Device_dict w) name
  | None => None
  end.

(** The port object behind [self.port]. *)
Definition port_of (w : World) (self : loc) : option (loc * Port) :=
  match attr w self "port" with
  | Some (VPort p) =>
      match ports w !! p with
      | Some port => Some (p, port)
      | None => None
      end
  | _ => None
  end.

(** The items of the list behind [self.cmds]. *)
Definition command_log (w : World) (self : loc) : option (list string) :=
  match attr w self "cmds" with
  | Some (VList l) => lists w !! l
  | _ => None
  end.

(** [self.logfile] is [None] or an open file. *)
Definition logfile_usable (w : World) (self : loc) : bool :=
  match attr w self "logfile" with
  | Some VNone => true
  | Some (VFile f) =>
      match files w !! f with Some _ => true | None => false end
  | _ => false
  end.

(** The instance can run a transaction: its port and log file are in
    place. *)
Definition ready (w : World) (self p : loc) (port : Port) : Prop :=
  port_of w self = Some (p, port) /\ logfile_usable w self = true.

Fixpoint has_LF (b : string) : bool :=
  match b with
  | EmptyString => false
  | String c r => Ascii.eqb c LF || has_LF r
  end.

(** What [__transact] does once the first line is in [response]. *)
Definition after_first_line (self : loc) (response : string)
  : M World string :=
  if String.eqb response "OK" then ret response
  else if String.eqb response "ERROR"
  then raise (ValueError Device_replied_ERROR)
  else
    let value := response in
    let* response := reporting response (readln self) in
    reporting response (logfile_write self (response ++ String LF "")) ;;;
    if String.eqb response "OK" then ret value
    else raise (ValueError Device_did_not_end_with_OK).

(** The objects a transaction has no business with: the list objects,
    the instances' dictionaries and the class dictionary. *)
Definition same_objects (w w' : World) : Prop :=
  lists w' = lists w /\
  instances w' = instances w /\
  Device_dict w' = Device_dict w.

Definition keeps_objects {A} (c : M World A) : Prop :=
  forall w, same_objects w (c w).2.

(** The command of [pwm(n, x)] and of [meas(n)]. *)
Definition PWM_set (n x : Z) : string :=
  "PWM" ++ str_of_int n ++ "S" ++ format_zero_padded 3 x ++ String LF "".
Definition MEAS_query (n : Z) : string :=
  "MEAS" ++ format_zero_padded 2 n ++ "?" ++ String LF "".

End Device.

(** ** KeyboardInput.py *)
Module KeyboardInput.
Import Py.
Local Open Scope py_scope.

Abbreviation loc := positive (only parsing).

Definition ESC : ascii := "027"%char.
Definition esc (tail : string) : string := String ESC tail.
Definition byte (c : ascii) : string := String c "".

(** The dictionary display [translate = { ... }], entry by entry. *)
Definition translate_entries : list (string * string) :=
  [ (esc "",      "ESC");
    (esc "OP",    "F1");
    (esc "[11~",  "F1");
    (esc "OQ",    "F2");
    (esc "[12~",  "F2");
    (esc "OR",    "F3");
    (esc "[13~",  "F3");
    (esc "OS",    "F4");
    (esc "[14~",  "F4");
    (esc "[15~",  "F5");
    (esc "[17~",  "F6");
    (esc "[18~",  "F7");
    (esc "[19~",  "F8");
    (esc "[20~",  "F9");
    (esc "[21~",  "F10");
    (esc "[23~",  "F11");
    (esc "[24~",  "F12");
    (esc "[1~",   "HOME");
    (esc "[2~",   "INS");
    (esc "[3~",   "DEL");
    (esc "[4~",   "END");
    (esc "[5~",   "PAGEUP");
    (esc "[6~",   "PAGEDOWN");
    (esc "[A",    "UP");
    (esc "[B",    "DOWN");
    (esc "[C",    "RIGHT");
    (esc "[D",    "LEFT");
    (esc "OA",    "UP");
    (esc "OB",    "DOWN");
    (esc "OC",    "RIGHT");
    (esc "OD",    "LEFT");
    (byte "127",  "BACKSPACE");
    (byte "010",  "ENTER");
    (byte "013",  "ENTER");
    (byte "009",  "TAB");
    (esc "[Z",    "SHIFT-TAB") ].

(** A display binds its entries left to right, a later one replacing an
    earlier one with the same key. *)
Definition translate : gmap string string :=
  foldl (fun m e => <[e.1 := e.2]> m) ∅ translate_entries.

(** *** class KeyboardInput *)

(** The decoder: its look-ahead [chunk] ([None] when there is none) and
    the bytes the terminal has ready for [raw], an unbuffered,
    non-blocking file on a terminal. *)
Record Keyboard := mkKeyboard {
  chunk : option string;
  raw : string
}.

Fixpoint bytes_take (n : nat) (b : string) : string :=
  match n, b with
  | S n, String c r => String c (bytes_take n r)
  | _, _ => EmptyString
  end.
Fixpoint bytes_drop (n : nat) (b : string) : string :=
  match n, b with
  | S n, String _ r => bytes_drop n r
  | _, _ => b
  end.

(** [self.raw.read(n)]: [None] when nothing is ready, else up to [n]
    bytes. *)
Definition raw_read (n : nat) : M Keyboard (option string) :=
  fun k =>
    match raw k with
    | EmptyString => (Ok None, k)
    | r => (Ok (Some (bytes_take n r)), mkKeyboard (chunk k) (bytes_drop n r))
    end.

Definition __has_data : M Keyboard bool :=
  fun k => (Ok (negb (String.eqb (raw k) "")), k).

Definition set_chunk (c : option string) : M Keyboard unit :=
  modify (fun k => mkKeyboard c (raw k)).

Definition __iter__ : M Keyboard unit :=
  let* c := raw_read 5 in
  set_chunk c.

(** [while self.__has_data(): self.raw.read(1024)], at most [fuel]
    rounds. *)
Fixpoint read_until_empty (fuel : nat) : M Keyboard unit :=
  match fuel with
  | O => ret tt
  | S fuel =>
      let* more := __has_data in
      if more then raw_read 1024 ;;; read_until_empty fuel
      else ret tt
  end.

(** Every round takes at least one byte, so as many rounds as there are
    bytes ready see the loop out. *)
Definition drain : M Keyboard unit :=
  let* k := get in
  read_until_empty (String.length (raw k)).

(** The [log.debug] records are left out. *)
Definition __next__ : M Keyboard string :=
  let* k := get in
  match chunk k with
  | None => raise StopIteration
  | Some chunk =>
      match translate !! chunk with
      | Some key =>
          set_chunk None ;;;
          ret key
      | None =>
          (* Unrecognized escape sequences *)
          if String.eqb (bytes_take 1 chunk) (byte ESC) then
            drain ;;;
            raise StopIteration
          else
            (* return just one character *)
            let ch := match decode_utf8 (bytes_take 1 chunk) with
                      | Ok ch => ch
                      | Raise _ => "?"
                      end in
            let chunk := bytes_drop 1 chunk in
            set_chunk (Some chunk) ;;;
            (* replenish empty chunk with more/None *)
            (if String.eqb chunk ""
             then let* c := raw_read 5 in set_chunk c
             else ret tt) ;;;
            ret ch
      end
  end.

(** The token a single byte [c] stands for: the character itself, or the
    placeholder when the byte is no text on its own. *)
Definition key_of_byte (c : ascii) : string :=
  if byte_in 0 127 c then byte c else "?".

(** *** class InputConsumer *)

(** [len(s)]: the number of code points. *)
Fixpoint str_len (s : string) : nat :=
  match s with
  | EmptyString => O
  | String c r => if is_continuation c then str_len r else S (str_len r)
  end.

(** [s[:-1]]: all code points but the last. *)
Definition str_but_last (s : string) : string :=
  str_take (str_len s - 1) s.

Record InputConsumer := mkInputConsumer {
  trigger : string;
  active : bool;
  buffer : string;
  value : string;
  printed : list string     (* the lines given to print(), oldest first *)
}.

Definition print (line : string) (c : InputConsumer) : InputConsumer :=
  mkInputConsumer (trigger c) (active c) (buffer c) (value c)
                  (printed c ++ [line])%list.

Definition new_InputConsumer (trigger : string) : InputConsumer :=
  mkInputConsumer trigger false "" "" [].

Definition process_input (key : string) (c : InputConsumer)
  : bool * InputConsumer :=
  if negb (active c) then
    (* inactive *)
    if String.eqb key (trigger c)
    then (true, mkInputConsumer (trigger c) true (buffer c) (value c)
                                (printed c))
    else (active c, c)
  else
    (* active *)
    if String.eqb key "ESC" || String.eqb key (trigger c) then
      (false, mkInputConsumer (trigger c) false "" (value c) (printed c))
    else if String.eqb key "DEL" || String.eqb key "BACKSPACE" then
      let c := if (0 <? str_len (buffer c))%nat
               then mkInputConsumer (trigger c) (active c)
                      (str_but_last (buffer c)) (value c) (printed c)
               else c in
      let c := print (buffer c) c in
      (active c, c)
    else if String.eqb key "ENTER" then
      (false, mkInputConsumer (trigger c) false "" (buffer c) (printed c))
    else if (str_len key =? 1)%nat then
      let c := mkInputConsumer (trigger c) (active c) (buffer c ++ key)
                               (value c) (printed c) in
      let c := print (trigger c ++ " " ++ buffer c) c in
      (active c, c)
    else
      let c := print "beep!" c in
      (active c, c).

(** *** class InputConsumerManagement *)

Inductive attr_value :=
  | VNone
  | VList (l : loc)
  | VObj (c : loc).

Section Management.

(** The registered objects: anything with a [process_input(key)]
    whose answer is read as a truth value. *)
Context {consumer : Type}.
Variable process_input : string -> consumer -> bool * consumer.

Record World := mkWorld {
  lists : gmap loc (list loc);               (* list objects, of consumer references *)
  instances : gmap loc (gmap string attr_value);  (* the managers' __dict__ *)
  class_dict : gmap string attr_value;            (* the names bound in the class body *)
  objects : gmap loc consumer;               (* the consumers *)
  calls : list (loc * string * bool);        (* every process_input call: who, key, answer *)
  next_id : loc                              (* the identity the next new object gets *)
}.

(** The store once the class statement has run:
<<
  class InputConsumerManagement():
      consumers = []
      active_consumer = None
>>
*)
Definition class_InputConsumerManagement : World :=
  mkWorld {[ 1%positive := [] ]} ∅
          (<["active_consumer" := VNone]>
             (<["consumers" := VList 1%positive]> ∅))
          ∅ [] 2%positive.

Definition getattr (self : loc) (name : string) : M World attr_value :=
  fun w =>
    match instances w !! self with
    | None => (Raise SystemError, w)
    | Some d =>
        match lookup_attr d (class_dict w) name with
        | Some v => (Ok v, w)
        | None => (Raise (AttributeError name), w)
        end
    end.

Definition setattr (self : loc) (name : string) (v : attr_value)
  : M World unit :=
  fun w =>
    match instances w !! self with
    | None => (Raise SystemError, w)
    | Some d =>
        (Ok tt, mkWorld (lists w) (<[self := <[name := v]> d]> (instances w))
                        (class_dict w) (objects w) (calls w) (next_id w))
    end.

(** [InputConsumerManagement()] *)
Definition __init__ : M World loc :=
  fun w =>
    let self := next_id w in
    (Ok self, mkWorld (lists w) (<[self := ∅]> (instances w))
                      (class_dict w) (objects w) (calls w)
                      (Pos.succ (next_id w))).

(** A consumer object coming into existence. *)
Definition new_consumer (c : consumer) : M World loc :=
  fun w =>
    let o := next_id w in
    (Ok o, mkWorld (lists w) (instances w) (class_dict w)
                   (<[o := c]> (objects w)) (calls w)
                   (Pos.succ (next_id w))).

(** The list object [self.consumers] is bound to. *)
Definition the_consumers (self : loc) (method : string)
  : M World (loc * list loc) :=
  let* v := getattr self "consumers" in
  match v with
  | VList l =>
      let* w := get in
      match lists w !! l with
      | Some items => ret (l, items)
      | None => raise SystemError
      end
  | _ => raise (AttributeError method)
  end.

Definition add (self : loc) (consumer : loc) : M World unit :=
  let* li := the_consumers self "append" in
  let '(l, items) := li in
  modify (fun w =>
    mkWorld (<[l := (items ++ [consumer])%list]> (lists w)) (instances w)
            (class_dict w) (objects w) (calls w) (next_id w)).

(** [c.process_input(key)] *)
Definition call_process_input (c : loc) (key : string) : M World bool :=
  fun w =>
    match objects w !! c with
    | None => (Raise SystemError, w)
    | Some st =>
        let '(answer, st') := process_input key st in
        (Ok answer,
         mkWorld (lists w) (instances w) (class_dict w)
                 (<[c := st']> (objects w))
                 (calls w ++ [(c, key, answer)])%list (next_id w))
    end.

(** The [for] loop of [input], over the consumers still to visit. *)
Fixpoint offer (self : loc) (key : string) (todo : list loc)
  : M World unit :=
  match todo with
  | [] => ret tt
  | consumer :: todo =>
      let* answer := call_process_input consumer key in
      if answer
      then setattr self "active_consumer" (VObj consumer)   (* break *)
      else offer self key todo
  end.

Definition input (self : loc) (key : string) : M World unit :=
  let* a := getattr self "active_consumer" in
  match a with
  | VNone =>
      let* li := the_consumers self "__iter__" in
      offer self key li.2
  | VObj c =>
      let* answer := call_process_input c key in
      if negb answer
      then setattr self "active_consumer" VNone
      else ret tt
  | VList _ => raise (AttributeError "process_input")
  end.

(** *** What can be seen of a manager *)

(** The value [self.<name>] evaluates to. *)
Definition attr (w : World) (self : loc) (name : string)
  : option attr_value :=
  match instances w !! self with
  | Some d => lookup_attr d (class_dict w) name
  | None => None
  end.

(** [self.active_consumer] *)
Definition active_slot (w : World) (self : loc) : option attr_value :=
  attr w self "active_consumer".

(** The items of the list behind [self.consumers]. *)
Definition registered (w : World) (self : loc) : option (list loc) :=
  match attr w self "consumers" with
  | Some (VList l) => lists w !! l
  | _ => None
  end.

(** The manager can dispatch: its consumers exist, and so does the one
    in its active slot, if any. *)
Definition manager_ok (w : World) (self : loc) : Prop :=
  (exists cs,
      registered w self = Some cs /\
      forall c, In c cs -> is_Some (objects w !! c)) /\
  (active_slot w self = Some VNone \/
   exists c, active_slot w self = Some (VObj c) /\ is_Some (objects w !! c)).

(** What consumer [c] answered the last time it was asked. *)
Fixpoint last_answer (asked : list (loc * string * bool)) (c : loc)
  : option bool :=
  match asked with
  | [] => None
  | (c', _, answer) :: later =>
      match last_answer later c with
      | Some a => Some a
      | None => if Pos.eqb c' c then Some answer else None
      end
  end.

(** Whoever last answered [True] is the consumer in the active slot. *)
Definition one_active (w : World) (self : loc) : Prop :=
  forall c, last_answer (calls w) c = Some true ->
            active_slot w self = Some (VObj c).

(** What the program does with the one manager [self]: it creates
    consumers, registers them, and dispatches keys. *)
Inductive step (self : loc) : World -> World -> Prop :=
  | step_new_consumer st o w w' :
      new_consumer st w = (Ok o, w') -> step self w w'
  | step_add c w w' :
      is_Some (objects w !! c) ->
      add self c w = (Ok tt, w') -> step self w w'
  | step_input key w w' :
      input self key w = (Ok tt, w') -> step self w w'.

(** The calls [input] makes when it offers [key] around: every consumer
    of [refused] says no, then [taker], if any, says yes. *)
Definition offered (key : string) (refused : list loc) (taker : option loc)
  : list (loc * string * bool) :=
  (map (fun c => (c, key, false)) refused ++
   match taker with
   | Some c => [(c, key, true)]
   | None => []
   end)%list.

End Management.

Arguments World : clear implicits.

End KeyboardInput.

(** ** Sample runs

    The concrete stores the examples of Part II are evaluated on. *)
Module Scenario.
Import Py.

Definition LF : string := String Device.LF "".

(** *** Scheduler *)

(** A scheduler built when the clock reads 1000.0 s, with a heartbeat
    every 0.5 s, a measurement every 60 s and a time window of 0.125 s;
    all of these are floats, and exact ones. *)
Definition sched0 : IntervalScheduler.State float :=
  IntervalScheduler.__init__ 0.5%float 60%float 0.125%float 1000%float.

(** *** Devices *)

(** Two connections opened one after the other, the first with a
    [serial.log], the second without. *)
Definition two_devices : Device.World :=
  let w := Device.class_Device in
  let w := (Device.__init__ (Device.mkPort "" "" false) true w).2 in
  (Device.__init__ (Device.mkPort "" "" false) false w).2.

Definition d1 : positive := 2%positive.
Definition port1 : positive := 3%positive.
Definition d2 : positive := 5%positive.

(** The board's [reply] has reached the first connection. *)
Definition first_hears (reply : string) : Device.World :=
  Device.line_delivers port1 reply two_devices.

(** [PWM1S005] has been sent on the first connection and accepted. *)
Definition after_pwm : Device.World :=
  (Device.pwm d1 1 (Some 5)
     (first_hears ("005" ++ LF ++ "OK" ++ LF))).2.

(** ... and then [PWM2S010], accepted too. *)
Definition after_two_pwm : Device.World :=
  (Device.pwm d1 2 (Some 10)
     (Device.line_delivers port1 ("010" ++ LF ++ "OK" ++ LF)
        after_pwm)).2.

(** *** Keyboard *)

(** The decoder just after [__iter__], with [bytes] ready on the
    terminal. *)
Definition typed (bytes : string) : KeyboardInput.Keyboard :=
  (KeyboardInput.__iter__ (KeyboardInput.mkKeyboard None bytes)).2.

(** *** Managers *)

Definition m1 : positive := 2%positive.
Definition c1 : positive := 3%positive.
Definition c2 : positive := 4%positive.
Definition m2 : positive := 5%positive.

(** A manager [m1] with the consumers triggered by F1 and F2 registered
    in that order, and a second manager [m2] on which nothing was ever
    called. *)
Definition two_managers : KeyboardInput.World KeyboardInput.InputConsumer :=
  let w := KeyboardInput.class_InputConsumerManagement in
  let w := (KeyboardInput.__init__ w).2 in
  let w := (KeyboardInput.new_consumer (KeyboardInput.new_InputConsumer "F1") w).2 in
  let w := (KeyboardInput.new_consumer (KeyboardInput.new_InputConsumer "F2") w).2 in
  let w := (KeyboardInput.add m1 c1 w).2 in
  let w := (KeyboardInput.add m1 c2 w).2 in
  (KeyboardInput.__init__ w).2.

(** The keys dispatched through manager [m], one after the other. *)
Fixpoint dispatch (m : positive) (keys : list string)
    (w : KeyboardInput.World KeyboardInput.InputConsumer)
  : KeyboardInput.World KeyboardInput.InputConsumer :=
  match keys with
  | [] => w
  | key :: keys =>
      dispatch m keys
        (KeyboardInput.input KeyboardInput.process_input m key w).2
  end.

End Scenario.

(** ** Device.py: what a transaction does to the line and to serial.log *)
Module DeviceIO.
Import Py Device.

(** The text written to [self.logfile] so far; [Some None] when the
    instance keeps no log file. *)
Definition logfile_text (w : World) (self : loc) : option (option string) :=
  match attr w self "logfile" with
  | Some VNone => Some None
  | Some (VFile f) =>
      match files w !! f with
      | Some text => Some (Some text)
      | None => None
      end
  | _ => None
  end.

(** What an instance does its input and output on: its port object and
    the text of its log file. *)
Definition io (w : World) (self : loc)
  : option (loc * Port * option string) :=
  match port_of w self, logfile_text w self with
  | Some (p, port), Some text => Some (p, port, text)
  | _, _ => None
  end.

(** Nothing but ports and files differs between [w] and [w']. *)
Definition calm (w w' : World) : Prop :=
  same_objects w w' /\ slept w' = slept w /\ log w' = log w.

(** [text] appended to the log file, if there is one. *)
Definition logged (text : string) (logfile : option string) : option string :=
  match logfile with
  | Some old => Some (old ++ text)
  | None => None
  end.

Definition sent (b : string) (port : Port) : Port :=
  mkPort (rx port) (tx port ++ b) (write_times_out port).

Definition left_with (rest : string) (port : Port) : Port :=
  mkPort rest (tx port) (write_times_out port).

(** A reply line that carries a value: complete text that is neither
    [OK] nor [ERROR]. *)
Definition value_line (v : string) : Prop :=
  has_LF v = false /\ utf8_valid v = true /\ v <> "OK" /\ v <> "ERROR".

(** The board accepts the set commands [sets] one after the other,
    answering each [(n, x)] with the value line [v] and [OK]. *)
Fixpoint set_all (self p : loc) (sets : list (Z * Z * string)) (w : World)
  : World :=
  match sets with
  | [] => w
  | (n, x, v) :: sets =>
      set_all self p sets
        (pwm self n (Some x)
           (line_delivers p (v ++ String LF ("OK" ++ String LF "")) w)).2
  end.

(** A connection whose line refuses every write: the write timeout
    strikes each time. *)
Definition jammed : World :=
  (__init__ (mkPort "" "" true) false class_Device).2.

End DeviceIO.

(** ** The scheduler in a loop *)
Module SchedulerRuns.
Import Py IntervalScheduler.
Local Open Scope py_scope.

(** The loop of [main.py] as far as the scheduler sees it, on integer
    time: before each call of [next] the rest of the loop body has taken
    the time [d]; the flags of the calls are collected. *)
Fixpoint calls (delays : list Z) : M (State Z) (list Z) :=
  match delays with
  | [] => ret []
  | d :: delays =>
      time_sleep d ;;;
      let* events := next in
      let* rest := calls delays in
      ret (events :: rest)
  end.

(** [events & flag], as a truth value. *)
Definition has_flag (flag events : Z) : bool :=
  negb (Z.land events flag =? 0).

(** How many of the calls reported [flag]. *)
Definition reported (flag : Z) (evs : list Z) : Z :=
  Z.of_nat (length (filter (fun ev => has_flag flag ev = true) evs)).

(** The four attributes the scheduler works on. *)
Definition scheduled (s : State Z) (h hi m mi : Z) : Prop :=
  Heartbeat (self s) !! "NEXTEVENT" = Some h /\
  Heartbeat (self s) !! "INTERVAL" = Some hi /\
  Measurement (self s) !! "NEXTEVENT" = Some m /\
  Measurement (self s) !! "INTERVAL" = Some mi.

End SchedulerRuns.

(** ** One pass over the keyboard *)
Module KeyboardPass.
Import Py KeyboardInput.
Local Open Scope py_scope.

Definition is_StopIteration (e : exn) : bool :=
  match e with StopIteration => true | _ => false end.

(** The [for key in keyboard] of [main.py] once [__iter__] has run:
    [__next__] is called until it raises [StopIteration]; the keys it
    returned are collected.  [None] stands for a loop still running
    after [fuel] calls. *)
Fixpoint nexts (fuel : nat) : M Keyboard (option (list string)) :=
  match fuel with
  | O => ret None
  | S fuel =>
      let* step :=
        try_except
          (let* key := __next__ in ret (Some key))
          (fun e => if is_StopIteration e then ret None else raise e) in
      match step with
      | None => ret (Some [])
      | Some key =>
          let* rest := nexts fuel in
          ret (option_map (cons key) rest)
      end
  end.

Definition for_keys (fuel : nat) : M Keyboard (option (list string)) :=
  __iter__ ;;;
  nexts fuel.

(** The bytes that begin a key of [translate]. *)
Definition special (c : ascii) : bool :=
  Ascii.eqb c ESC || Ascii.eqb c "127" || Ascii.eqb c "010"
  || Ascii.eqb c "013" || Ascii.eqb c "009".

Fixpoint plain (b : string) : bool :=
  match b with
  | EmptyString => true
  | String c r => negb (special c) && plain r
  end.

Fixpoint keys_of_bytes (b : string) : list string :=
  match b with
  | EmptyString => []
  | String c r => key_of_byte c :: keys_of_bytes r
  end.

(** What a consumer can be handed: one character, or a name of the
    table, which has two characters at least. *)
Definition token (key : string) : Prop :=
  str_len key = 1%nat \/
  ((2 <= str_len key)%nat /\ exists s, In (s, key) translate_entries).

(** The bytes not yet turned into keys. *)
Definition pending (k : Keyboard) : nat :=
  match chunk k with
  | None => 0
  | Some c => String.length c + String.length (raw k)
  end.

(** A look-ahead is never the empty byte string. *)
Definition chunk_ok (k : Keyboard) : Prop :=
  chunk k <> Some "".

End KeyboardPass.

(** ** Keys given to one consumer *)
Module ConsumerSessions.
Import Py KeyboardInput.

(** [process_input] called with the keys one after the other; the
    answers are collected. *)
Fixpoint feed (keys : list string) (c : InputConsumer)
  : list bool * InputConsumer :=
  match keys with
  | [] => ([], c)
  | key :: keys =>
      let '(answer, c) := process_input key c in
      let '(answers, c) := feed keys c in
      (answer :: answers, c)
  end.

Fixpoint concat (l : list string) : string :=
  match l with
  | [] => ""
  | x :: rest => x ++ concat rest
  end.

(** A [str] of exactly one character, as UTF-8: a byte that continues
    nothing, followed by continuation bytes only. *)
Definition one_char (key : string) : bool :=
  match key with
  | EmptyString => false
  | String a rest => negb (is_continuation a) && (str_len rest =? 0)%nat
  end.

End ConsumerSessions.

(** ** pbb-emulator.py *)
Module Emulator.
Import Py.

Definition NL : string := String "010" "".

(** The emulator at work: the module global [_pwm], the numbers the
    random generator will deliver next, the bytes written to the bus,
    what was printed, and the time slept (ms). *)
Record Emu := mkEmu {
  _pwm : list Z;
  entropy : list Z;
  bus : string;
  stdout : string;
  slept : Z
}.

(** [_pwm = [0, 25, 25, 25, 35]] *)
Definition started (entropy : list Z) : Emu :=
  mkEmu [0; 25; 25; 25; 35] entropy "" "" 0.

Definition __fileName : string := "pbb-emulator.py".
Definition __version__ : string := "1.0".

(** [print(s, end='')] *)
Definition print (s : string) (e : Emu) : Emu :=
  mkEmu (_pwm e) (entropy e) (bus e) (stdout e ++ s) (slept e).

(** [bus.write(s.encode('ascii'))] *)
Definition bus_write (s : string) (e : Emu) : Emu :=
  mkEmu (_pwm e) (entropy e) (bus e ++ s) (stdout e) (slept e).

Definition time_sleep (ms : Z) (e : Emu) : Emu :=
  mkEmu (_pwm e) (entropy e) (bus e) (stdout e) (slept e + ms).

Definition set_pwm (l : list Z) (e : Emu) : Emu :=
  mkEmu l (entropy e) (bus e) (stdout e) (slept e).

(** [random.randint(a, b)], which is [a + _randbelow(b - a + 1)]: the
    generator's next number, brought below the width.  A generator that
    has run dry delivers zero. *)
Definition randint (a b : Z) (e : Emu) : Z * Emu :=
  match entropy e with
  | v :: rest =>
      (a + v mod (b - a + 1),
       mkEmu (_pwm e) rest (bus e) (stdout e) (slept e))
  | [] => (a, e)
  end.

Definition code_in (code : string) (l : list string) : bool :=
  existsb (String.eqb code) l.

(** The local function [mA] of [meas]. *)
Definition mA (e : Emu) : string * Emu :=
  let '(m, e) := randint (-99) 99 e in
  (format_zero_padded (if 0 <=? m then 2 else 3) m, e).

Definition meas (code : string) (e : Emu) : string * Emu :=
  if code_in code ["00"; "01"; "02"; "03"] then
    let '(v, e) := randint 0 999 e in
    (format_zero_padded 3 v ++ " V" ++ NL ++ "OK" ++ NL, e)
  else if code_in code ["04"; "05"; "18"] then
    let '(v, e) := randint 0 9999 e in
    (format_zero_padded 4 v ++ " mV" ++ NL ++ "OK" ++ NL, e)
  else if code_in code ["06"; "10"; "11"; "12"; "13"; "15"; "17"] then
    let '(v, e) := randint 0 99 e in
    (format_zero_padded 2 v ++ " mA" ++ NL ++ "OK" ++ NL, e)
  else if code_in code ["14"; "16"] then
    let '(v, e) := randint 0 99 e in
    (format_zero_padded 2 v ++ " C" ++ NL ++ "OK" ++ NL, e)
  else if String.eqb code "99" then
    let '(v00, e) := randint 0 999 e in
    let '(v01, e) := randint 0 999 e in
    let '(v02, e) := randint 0 999 e in
    let '(v03, e) := randint 0 999 e in
    let '(v04, e) := randint 0 9999 e in
    let '(v05, e) := randint 0 9999 e in
    let '(v06, e) := mA e in
    let '(v10, e) := mA e in
    let '(v11, e) := mA e in
    let '(v12, e) := mA e in
    let '(v13, e) := mA e in
    let '(v14, e) := randint 0 70 e in
    let '(v15, e) := mA e in
    let '(v16, e) := randint 0 70 e in
    let '(v17, e) := mA e in
    let '(v18, e) := randint 0 3400 e in
    (format_zero_padded 3 v00 ++ " " ++ format_zero_padded 3 v01 ++ " "
       ++ format_zero_padded 3 v02 ++ " " ++ format_zero_padded 3 v03 ++ " "
       ++ format_zero_padded 4 v04 ++ " " ++ format_zero_padded 4 v05 ++ " "
       ++ v06 ++ " " ++ "0 0 0 "
       ++ v10 ++ " " ++ v11 ++ " " ++ v12 ++ " " ++ v13 ++ " "
       ++ format_zero_padded 2 v14 ++ " " ++ v15 ++ " "
       ++ format_zero_padded 2 v16 ++ " " ++ v17 ++ " "
       ++ format_zero_padded 4 v18 ++ NL ++ "OK" ++ NL, e)
  else ("ERROR" ++ NL, e).

(** The local function [w] of [rrr]. *)
Definition w (s : string) (e : Emu) : Emu :=
  print s (bus_write s e).

Definition rrr (e : Emu) : Emu :=
  let e := w ("Zero levels are to be calibrated." ++ NL) e in
  let e := w "Shutting down, please wait" e in
  let e := fold_left (fun e i => w i (time_sleep 500 e))
             (repeat "." 10) e in
  let e := w NL e in
  let e := w ("6       19      36      -7      296" ++ NL) e in
  w ("OK" ++ NL) e.

(** [b.decode('ascii', 'ignore')] *)
Fixpoint decode_ascii_ignore (b : string) : string :=
  match b with
  | EmptyString => EmptyString
  | String c r =>
      if byte_in 0 127 c then String c (decode_ascii_ignore r)
      else decode_ascii_ignore r
  end.

(** [s[:-1]] of a [str] of ASCII characters. *)
Fixpoint but_last (s : string) : string :=
  match s with
  | EmptyString => EmptyString
  | String c EmptyString => EmptyString
  | String c r => String c (but_last r)
  end.

(** [reply.replace('\n', '\\n')] *)
Fixpoint show_newlines (s : string) : string :=
  match s with
  | EmptyString => EmptyString
  | String c r =>
      if Ascii.eqb c "010" then String "\" (String "n" (show_newlines r))
      else String c (show_newlines r)
  end.

(** [str(l)] of a list of [int]s. *)
Definition str_of_list (l : list Z) : string :=
  "[" ++ join ", " (map str_of_int l) ++ "]".

(** The last two statements of the loop body. *)
Definition answer (reply : string) (e : Emu) : Emu :=
  print ("'" ++ show_newlines reply ++ "'" ++ NL) (bus_write reply e).

(** [try: n = int(s) except: n = -1] *)
Definition selector (s : string) : Z :=
  match int s with
  | Ok n => n
  | Raise _ => -1
  end.

(** One round of the main loop, with [line] the bytes [bus.readline()]
    returned.  [None]: an exception nobody catches ends the program. *)
Definition loop_body (line : string) (e : Emu) : option Emu :=
  let cmd := but_last (decode_ascii_ignore line) in
  let e := print (cmd ++ " ") e in
  if String.eqb (substring 0 4 cmd) "MEAS" then
    let nn := substring 4 2 cmd in
    let '(reply, e) := meas nn e in
    Some (answer reply e)
  else if String.eqb cmd "VERS?" then
    Some (answer (__fileName ++ " version " ++ __version__
                    ++ NL ++ "OK" ++ NL) e)
  else if String.eqb (substring 0 3 cmd) "PWM"
          && String.eqb (substring 4 1 cmd) "S" then
    (* PWMnSxxx *)
    let e := print (str_of_list (_pwm e) ++ NL) e in
    let n := selector (substring 3 1 cmd) in
    if negb (Device.Z_in n [1; 2; 3; 4]) then
      let e := print ("Invalid selector n=" ++ str_of_int n ++ " ") e in
      Some (answer ("ERROR" ++ NL) e)
    else
      let failed e :=
        let e := print ("Error setting _pwm[" ++ str_of_int n ++ "] = "
                          ++ substring 5 3 cmd ++ " ") e in
        Some (answer ("ERROR" ++ NL) e) in
      match int (substring 5 3 cmd) with
      | Ok x =>
          if (Z.to_nat n <? length (_pwm e))%nat then
            let e := set_pwm (<[Z.to_nat n := x]> (_pwm e)) e in
            Some (answer (format_zero_padded 3 x ++ NL ++ "OK" ++ NL) e)
          else failed e
      | Raise _ => failed e
      end
  else if String.eqb (substring 0 3 cmd) "PWM"
          && String.eqb (substring 4 1 cmd) "?" then
    let n := selector (substring 3 1 cmd) in
    if Device.Z_in n [1; 2; 3; 4] then
      match _pwm e !! Z.to_nat n with
      | Some v =>
          Some (answer (format_zero_padded 3 v ++ NL ++ "OK" ++ NL) e)
      | None => None
      end
    else Some (answer ("ERROR" ++ NL) e)
  else if String.eqb cmd "RRR" then
    (* Do not go down to the usual bus.write()! *)
    Some (rrr e)
  else
    let e := print ("unrecognized command '" ++ cmd ++ "'! ") e in
    Some (answer ("ERROR" ++ NL) e).

End Emulator.

(** ** The device talking to the emulator *)
Module Bench.
Import Py.

(** The integers [a], [a + 1], ..., [a + n - 1]. *)
Fixpoint range_from (a : Z) (n : nat) : list Z :=
  match n with
  | O => []
  | S n => a :: range_from (a + 1) n
  end.
Definition range (a n : Z) : list Z := range_from a (Z.to_nat n).

(** [v] is a value line that reads back as [want]. *)
Definition value_lineb (v : string) : bool :=
  negb (Device.has_LF v) && utf8_valid v
  && negb (String.eqb v "OK") && negb (String.eqb v "ERROR").

Definition reads_as (want : Z) (r : result Z) : bool :=
  match r with
  | Ok z => z =? want
  | Raise _ => false
  end.

(** The command as the emulator's loop body sees it. *)
Definition heard (line : string) : string :=
  Emulator.but_last (Emulator.decode_ascii_ignore line).

(** The emulator takes the device's [PWMnSxxx] for a set command of
    channel [n] and reads [stored] out of it. *)
Definition pwm_set_parses (n x stored : Z) : bool :=
  let cmd := heard (Device.PWM_set n x) in
  negb (String.eqb (substring 0 4 cmd) "MEAS")
  && negb (String.eqb cmd "VERS?")
  && (String.eqb (substring 0 3 cmd) "PWM"
      && String.eqb (substring 4 1 cmd) "S")
  && (Emulator.selector (substring 3 1 cmd) =? n)
  && reads_as stored (int (substring 5 3 cmd)).

(** The device's [PWMn?]. *)
Definition PWM_query (n : Z) : string :=
  "PWM" ++ str_of_int n ++ "?" ++ String Device.LF "".

Definition pwm_query_parses (n : Z) : bool :=
  let cmd := heard (PWM_query n) in
  negb (String.eqb (substring 0 4 cmd) "MEAS")
  && negb (String.eqb cmd "VERS?")
  && negb (String.eqb (substring 0 3 cmd) "PWM"
           && String.eqb (substring 4 1 cmd) "S")
  && (String.eqb (substring 0 3 cmd) "PWM"
      && String.eqb (substring 4 1 cmd) "?")
  && (Emulator.selector (substring 3 1 cmd) =? n).

(** The emulator takes the device's [MEASnn?] for a measurement query
    with the code [nn]. *)
Definition meas_query_parses (n : Z) : bool :=
  let cmd := heard (Device.MEAS_query n) in
  String.eqb (substring 0 4 cmd) "MEAS"
  && String.eqb (substring 4 2 cmd) (format_zero_padded 2 n).

(** The selectors [Device.meas] has a branch for. *)
Definition handled : list Z :=
  [0; 1; 2; 3; 4; 5; 18; 6; 10; 11; 12; 13; 15; 17; 14; 16; 99].

(** The emulator has no branch for the code of selector [n]. *)
Definition refused (n : Z) : bool :=
  let code := format_zero_padded 2 n in
  negb (Emulator.code_in code ["00"; "01"; "02"; "03"])
  && negb (Emulator.code_in code ["04"; "05"; "18"])
  && negb (Emulator.code_in code ["06"; "10"; "11"; "12"; "13"; "15"; "17"])
  && negb (Emulator.code_in code ["14"; "16"])
  && negb (String.eqb code "99").

(** How many values the emulator's [random.randint] can deliver for
    the scalar selector [n]. *)
Definition width (n : Z) : Z :=
  if Device.Z_in n [0; 1; 2; 3] then 1000
  else if Device.Z_in n [4; 5; 18] then 10000
  else 100.

Fixpoint all_digits (s : string) : bool :=
  match s with
  | EmptyString => true
  | String c r => is_digit c && all_digits r
  end.

(** ['{:0w}'.format(v)] is [w] digits that read back as [v]. *)
Definition field_ok (w : nat) (v : Z) : bool :=
  let f := format_zero_padded w v in
  (String.length f =? w)%nat && all_digits f && reads_as v (int f).

Fixpoint all_ascii (s : string) : bool :=
  match s with
  | EmptyString => true
  | String c r => byte_in 0 127 c && all_ascii r
  end.

Fixpoint no_space (s : string) : bool :=
  match s with
  | EmptyString => true
  | String c r => negb (is_space c) && no_space r
  end.

(** [t] is one word of ASCII that reads as [v]. *)
Definition token_reads (t : string) (v : Z) : bool :=
  negb (String.eqb t "") && no_space t && all_ascii t
  && reads_as v (int t).

(** The words [tokens], a blank between each two, and then [tail]. *)
Fixpoint spaced (tokens : list string) (tail : string) : string :=
  match tokens with
  | [] => tail
  | [x] => x ++ tail
  | x :: rest => x ++ " " ++ spaced rest tail
  end.

(** What the local [mA] of the emulator's [meas] makes of the
    generator's number [d]. *)
Definition mA_value (d : Z) : Z := -99 + d mod 199.
Definition mA_text (m : Z) : string :=
  format_zero_padded (if 0 <=? m then 2 else 3) m.

(** The emulator's ['{:03}'] of [v] is a value line the device reads
    back as [v]. *)
Definition pwm_value_reads (v : Z) : bool :=
  value_lineb (format_zero_padded 3 v)
  && reads_as v (int (format_zero_padded 3 v)).

(** The first three characters of ['{:03}'.format(x)] read as
    [x // 10]. *)
Definition cut_ok (x : Z) : bool :=
  let f := format_zero_padded 3 x in
  all_ascii f && reads_as (x / 10) (int (substring 0 3 f)).

End Bench.

(** ** Widget.py: class PWMWidget *)
Module PWMWidget.
Import Py.
Local Open Scope py_scope.

(** The curses screen is kept as the list of [addstr] calls made on it
    and a count of [refresh] calls; it is taken to be initialised
    ([_screen] is not [None]) and large enough, so that no call ends in
    [curses.error]. *)
Inductive attribute :=
  | A_REVERSE
  | A_NORMAL
  | color_pair (n : Z).

Definition PWM_INACTIVE : Z := 1.
Definition PWM_ACTIVE : Z := 2.
Definition FIELD_INACTIVE : Z := 10.
Definition FIELD_ACTIVE : Z := 11.

Record addstr_call := Addstr {
  at_row : Z;
  at_col : Z;
  shown : string;
  shown_with : attribute
}.

Record Widget := mkWidget {
  xpos : Z;
  ypos : Z;
  channel : Z;
  device : positive;
  active : bool;
  trigger : string;
  buffer : string;
  value : Z
}.

(** The widget, the store its [Device] lives in (which also holds the
    records given to [logging]), and the terminal. *)
Record Desk := mkDesk {
  self : Widget;
  world : Device.World;
  screen : list addstr_call;
  refreshes : nat;
  beeps : nat
}.

Definition with_self (f : Widget -> Widget) (d : Desk) : Desk :=
  mkDesk (f (self d)) (world d) (screen d) (refreshes d) (beeps d).

Definition set_active (b : bool) : M Desk unit :=
  modify (with_self (fun s =>
    mkWidget (xpos s) (ypos s) (channel s) (device s) b (trigger s)
             (buffer s) (value s))).
Definition set_buffer (b : string) : M Desk unit :=
  modify (with_self (fun s =>
    mkWidget (xpos s) (ypos s) (channel s) (device s) (active s) (trigger s)
             b (value s))).
Definition set_value (v : Z) : M Desk unit :=
  modify (with_self (fun s =>
    mkWidget (xpos s) (ypos s) (channel s) (device s) (active s) (trigger s)
             (buffer s) v)).

(** A statement that runs in the device's store. *)
Definition on_device {A} (c : M Device.World A) : M Desk A :=
  fun d =>
    let '(r, w) := c (world d) in
    (r, mkDesk (self d) w (screen d) (refreshes d) (beeps d)).

Definition log_call (method lvl msg : string) : M Desk unit :=
  on_device (Device.logging ("Widget.py:PWMWidget." ++ method ++ "()") lvl msg).

Definition addstr (y x : Z) (s : string) (a : attribute) : M Desk unit :=
  modify (fun d => mkDesk (self d) (world d)
                     (screen d ++ [Addstr y x s a])%list
                     (refreshes d) (beeps d)).
Definition refresh : M Desk unit :=
  modify (fun d => mkDesk (self d) (world d) (screen d)
                     (S (refreshes d)) (beeps d)).
Definition beep : M Desk unit :=
  modify (fun d => mkDesk (self d) (world d) (screen d)
                     (refreshes d) (S (beeps d))).

Fixpoint spaces (n : nat) : string :=
  match n with O => "" | S n => String " " (spaces n) end.

(** ['{:>w}'.format(s)] *)
Definition rjust (w : nat) (s : string) : string :=
  spaces (w - KeyboardInput.str_len s) ++ s.

(** [s.isdigit()], for a [str] of ASCII characters. *)
Definition isdigit (s : string) : bool :=
  negb (String.eqb s "") && Bench.all_digits s.

Definition draw : M Desk unit :=
  let* d := get in
  let s := self d in
  let x := xpos s in
  let y := ypos s in
  let label := "     PWM" ++ str_of_int (channel s) ++ "  " in
  let button := " F" ++ str_of_int (channel s)
                  ++ " PWM" ++ str_of_int (channel s) ++ " " in
  let value :=
    if active s
    then format_zero_padded 3 (value s) ++ "-> " ++ rjust 3 (buffer s)
    else "      " ++ format_zero_padded 3 (value s) ++ "  " in
  addstr y x label A_REVERSE ;;;
  (if active s then
     addstr (y + 1) x value (color_pair FIELD_ACTIVE) ;;;
     addstr (y + 2) x button (color_pair PWM_ACTIVE)
   else
     addstr (y + 1) x value (color_pair FIELD_INACTIVE) ;;;
     addstr (y + 2) x button (color_pair PWM_INACTIVE)) ;;;
  refresh.

(** Issue PWMnSxxx command.  The bare [except] takes every exception. *)
Definition __set (val : Z) : M Desk unit :=
  try_except
    (let* d := get in
     let* v := on_device
                 (Device.pwm (device (self d)) (channel (self d)) (Some val)) in
     set_value v ;;;
     draw)
    (fun _ =>
       let* d := get in
       log_call "__set" "ERROR"
         ("Set PWM" ++ str_of_int (channel (self d)) ++ " failed!")).

Definition process_input (key : string) : M Desk bool :=
  let* d := get in
  let s := self d in
  let ch := str_of_int (channel s) in
  (* inactive *)
  (if negb (active s) then
     if String.eqb key (trigger s) then
       set_active true ;;;
       log_call "process_input" "DEBUG" ("ch" ++ ch ++ " input activated")
     else ret tt
   (* active *)
   else if String.eqb key "ESC" || String.eqb key (trigger s) then
     set_buffer "" ;;;
     set_active false ;;;
     log_call "process_input" "DEBUG" ("ch" ++ ch ++ " input deactivated")
   else if String.eqb key "DEL" || String.eqb key "BACKSPACE" then
     if (0 <? KeyboardInput.str_len (buffer s))%nat
     then set_buffer (KeyboardInput.str_but_last (buffer s))
     else ret tt
   else if String.eqb key "ENTER" then
     log_call "process_input" "DEBUG"
       ("buffer='" ++ buffer s ++ "', value=" ++ str_of_int (value s)) ;;;
     (if negb (String.eqb (buffer s) "") then
        let* val := lift_result (int (buffer s)) in
        __set val ;;;
        set_buffer "" ;;;
        let* d := get in
        log_call "process_input" "INFO"
          ("ch" ++ ch ++ " PWM set to " ++ str_of_int (value (self d)))
      else
        log_call "process_input" "DEBUG" "buffer was empty, value not set!") ;;;
     set_active false
   else if (KeyboardInput.str_len key =? 1)%nat && isdigit key then
     if (KeyboardInput.str_len (buffer s) <? 3)%nat
     then set_buffer (buffer s ++ key)
     else beep
   else
     beep ;;;
     log_call "process_input" "DEBUG"
       ("ch" ++ ch ++ " input: " ++ key ++ " (len: "
          ++ str_of_int (Z.of_nat (KeyboardInput.str_len key)) ++ ")")) ;;;
  (* Always draw and return *)
  draw ;;;
  let* d := get in
  ret (active (self d)).

(** The keys given to the widget one after the other, as a manager
    does; the answers are collected. *)
Fixpoint feed (keys : list string) : M Desk (list bool) :=
  match keys with
  | [] => ret []
  | key :: keys =>
      let* answer := process_input key in
      let* answers := feed keys in
      ret (answer :: answers)
  end.

(** The board's [reply] reaches the line of port [p]. *)
Definition hears (p : positive) (reply : string) (d : Desk) : Desk :=
  mkDesk (self d) (Device.line_delivers p reply (world d))
         (screen d) (refreshes d) (beeps d).

(** What no key changes about a widget. *)
Definition same_widget (d d' : Desk) : Prop :=
  xpos (self d') = xpos (self d) /\
  ypos (self d') = ypos (self d) /\
  channel (self d') = channel (self d) /\
  device (self d') = device (self d) /\
  trigger (self d') = trigger (self d).

(** The buffer holds at most three digits. *)
Definition buffer_ok (d : Desk) : Prop :=
  Bench.all_digits (buffer (self d)) = true /\
  (String.length (buffer (self d)) <= 3)%nat.

End PWMWidget.

(** * Part II: properties *)

Import Py.

(** ** The monad *)
Section MonadFacts.
Context {S A B : Type}.

Lemma bind_Ok (c : M S A) (k : A -> M S B) s a s' :
  c s = (Ok a, s') -> bind c k s = k a s'.
Proof. intros H. unfold bind. now rewrite H. Qed.

Lemma bind_Raise (c : M S A) (k : A -> M S B) s e s' :
  c s = (Raise e, s') -> bind c k s = (Raise e, s').
Proof. intros H. unfold bind. now rewrite H. Qed.

Lemma try_except_Ok (c : M S A) h s a s' :
  c s = (Ok a, s') -> try_except c h s = (Ok a, s').
Proof. intros H. unfold try_except. now rewrite H. Qed.

Lemma try_except_Raise (c : M S A) h s e s' :
  c s = (Raise e, s') -> try_except c h s = h e s'.
Proof. intros H. unfold try_except. now rewrite H. Qed.
End MonadFacts.

(** ** IntervalScheduler *)
Module SchedulerFacts.
Import IntervalScheduler.
Local Open Scope py_scope.

Section AnyNumbers.
Context {time : Type} `{Number time}.
Implicit Types (s : State time) (h hi m mi i t : time).

(** [next], run by hand on a scheduler whose four attributes are bound:
    the threshold is taken from the clock reading made on entry. *)
Lemma next_unfolded s h hi m mi :
  Heartbeat (self s) !! "NEXTEVENT" = Some h ->
  Heartbeat (self s) !! "INTERVAL" = Some hi ->
  Measurement (self s) !! "NEXTEVENT" = Some m ->
  Measurement (self s) !! "INTERVAL" = Some mi ->
  let now := clock s in
  let sleep_duration := num_sub (num_min h m) now in
  let wake := if num_lt num_zero sleep_duration
              then num_add now sleep_duration else now in
  let trigger_time := num_add now (time_window (self s)) in
  next s =
    (Ok (Z.lor (if num_lt h trigger_time then Z.lor 0 HEARTBEAT else 0)
               (if num_lt m trigger_time then MEASUREMENT else 0)),
     mkState wake
       (mkScheduler
          (if num_lt h trigger_time
           then <["NEXTEVENT" := num_add h hi]> (Heartbeat (self s))
           else Heartbeat (self s))
          (if num_lt m trigger_time
           then <["NEXTEVENT" := num_add m mi]> (Measurement (self s))
           else Measurement (self s))
          (time_window (self s)))).
Proof.
  intros Hh Hhi Hm Hmi now sleep_duration wake trigger_time.
  destruct s as [clk [hb ms tw]]; simpl in *.
  subst now sleep_duration wake trigger_time.
  unfold next, bind, time_time, get_Heartbeat, get_Measurement, operand,
    when, time_sleep, modify, get, ret, set_Heartbeat, set_Measurement;
    simpl.
  rewrite Hh; simpl. rewrite Hm; simpl.
  destruct (num_lt num_zero (num_sub (num_min h m) clk)); simpl;
    rewrite Hh; simpl;
    destruct (num_lt h (num_add clk tw)); simpl;
    rewrite ?Hhi; simpl;
    rewrite ?lookup_insert_ne by discriminate; rewrite ?Hm; simpl;
    destruct (num_lt m (num_add clk tw)); simpl; rewrite ?Hmi; simpl;
    reflexivity.
Qed.

(** A call made once the heartbeat is within the window of its entry
    time reports it and moves it on by its interval. *)
Lemma next_reports_due_heartbeat s h hi m mi :
  Heartbeat (self s) !! "NEXTEVENT" = Some h ->
  Heartbeat (self s) !! "INTERVAL" = Some hi ->
  Measurement (self s) !! "NEXTEVENT" = Some m ->
  Measurement (self s) !! "INTERVAL" = Some mi ->
  num_lt h (num_add (clock s) (time_window (self s))) = true ->
  exists ev s',
    next s = (Ok ev, s') /\ Z.land ev HEARTBEAT = HEARTBEAT /\
    Heartbeat (self s') !! "NEXTEVENT" = Some (num_add h hi).
Proof.
  intros Hh Hhi Hm Hmi Hdue.
  rewrite (next_unfolded s h hi m mi) by assumption.
  cbv zeta. rewrite Hdue.
  eexists _, _. split; [reflexivity|]. split.
  - destruct (num_lt m _); reflexivity.
  - simpl. apply lookup_insert_eq.
Qed.

(** C9: [measurement(i)] rebinds the measurement source's [INTERVAL] and
    nothing else: the clock, the heartbeat source, the time window and
    the measurement's already scheduled [NEXTEVENT] stay as they were.
    The new interval is the one added when [next], called at any later
    clock reading [t], reschedules the measurement.  This holds for
    whatever numbers the scheduler runs on. *)
Theorem C9_interval_accessor_keeps_the_schedule s i t h hi m :
  Heartbeat (self s) !! "NEXTEVENT" = Some h ->
  Heartbeat (self s) !! "INTERVAL" = Some hi ->
  Measurement (self s) !! "NEXTEVENT" = Some m ->
  exists s',
    measurement (Some i) s = (Ok (Some i), s') /\
    clock s' = clock s /\
    Heartbeat (self s') = Heartbeat (self s) /\
    time_window (self s') = time_window (self s) /\
    Measurement (self s') = <["INTERVAL" := i]> (Measurement (self s)) /\
    Measurement (self s') !! "NEXTEVENT" = Some m /\
    exists ev s'',
      next (mkState t (self s')) = (Ok ev, s'') /\
      Measurement (self s'') !! "NEXTEVENT" =
        Some (if num_lt m (num_add t (time_window (self s)))
              then num_add m i else m).
Proof.
  intros Hh Hhi Hm.
  destruct s as [clk [hb ms tw]]; simpl in *.
  eexists. split.
  { unfold measurement, bind, set_Measurement, modify, get_Measurement.
    simpl. rewrite lookup_insert_eq. reflexivity. }
  simpl. repeat (split; [reflexivity|]).
  assert (Hm' : <["INTERVAL" := i]> ms !! "NEXTEVENT" = Some m)
    by (rewrite lookup_insert_ne by discriminate; exact Hm).
  split; [exact Hm'|].
  eexists _, _. split.
  { apply (next_unfolded _ h hi m i); simpl; try assumption.
    apply lookup_insert_eq. }
  simpl. destruct (num_lt m (num_add t tw)).
  - apply lookup_insert_eq.
  - exact Hm'.
Qed.

End AnyNumbers.

(** On integer time (say, milliseconds): a call that finds nothing due
    within the window of its entry time sleeps to the earliest source and
    comes back empty-handed, with no flag and no reschedule. *)
Lemma next_after_sleep_reports_nothing (s : State Z) h hi m mi :
  Heartbeat (self s) !! "NEXTEVENT" = Some h ->
  Heartbeat (self s) !! "INTERVAL" = Some hi ->
  Measurement (self s) !! "NEXTEVENT" = Some m ->
  Measurement (self s) !! "INTERVAL" = Some mi ->
  clock s + time_window (self s) <= Z.min h m ->
  next s = (Ok 0, mkState (Z.max (clock s) (Z.min h m)) (self s)).
Proof.
  intros Hh Hhi Hm Hmi Hlate.
  rewrite (next_unfolded s h hi m mi) by assumption.
  unfold num_min. cbn [num_lt num_add num_sub num_zero int_Number].
  destruct (Z.ltb_spec h (clock s + time_window (self s))) as [?|_]; [lia|].
  destruct (Z.ltb_spec m (clock s + time_window (self s))) as [?|_]; [lia|].
  destruct s as [clk [hb ms tw]]; simpl in *.
  f_equal. f_equal.
  destruct (Z.ltb_spec m h);
    match goal with
    | |- context [0 <? ?d] => destruct (Z.ltb_spec 0 d)
    end; lia.
Qed.

(** C2, on the code: [next] measures the firing threshold from the clock
    reading taken on entry, not from the time it wakes.  Called at
    1000.0 s with the heartbeat due at 1000.5 s and a window of 0.125 s,
    it sleeps until 1000.5 s and returns no flag, leaving the heartbeat
    where it was, although the heartbeat's next-fire-time lies below the
    wake time plus the window.  (Run on floats, all exact here.) *)
Theorem C2_next_wakes_for_the_heartbeat_and_reports_nothing :
  exists s',
    next Scenario.sched0 = (Ok 0, s') /\
    clock s' = 1000.5%float /\
    Heartbeat (self s') !! "NEXTEVENT" = Some 1000.5%float /\
    num_lt 1000.5%float (num_add (clock s') (time_window (self s'))) = true.
Proof.
  eexists. split; [vm_compute; reflexivity|].
  split; [reflexivity|]. split; [vm_compute; reflexivity|].
  vm_compute. reflexivity.
Qed.

(** C9 on the sample scheduler: the interval is set to 10 s at 1000.0 s,
    and the measurement due at 1060.0 s is rescheduled to 1070.0 s by the
    call made at 1060.0 s. *)
Lemma C9_interval_accessor_witness :
  exists s',
    measurement (Some 10%float) Scenario.sched0 = (Ok (Some 10%float), s') /\
    clock s' = clock Scenario.sched0 /\
    Heartbeat (self s') = Heartbeat (self Scenario.sched0) /\
    time_window (self s') = time_window (self Scenario.sched0) /\
    Measurement (self s') =
      <["INTERVAL" := 10%float]> (Measurement (self Scenario.sched0)) /\
    Measurement (self s') !! "NEXTEVENT" = Some 1060%float /\
    exists ev s'',
      next (mkState 1060%float (self s')) = (Ok ev, s'') /\
      Measurement (self s'') !! "NEXTEVENT" = Some 1070%float.
Proof.
  destruct (C9_interval_accessor_keeps_the_schedule
              Scenario.sched0 10%float 1060%float 1000.5%float 0.5%float
              1060%float
              ltac:(vm_compute; reflexivity) ltac:(vm_compute; reflexivity)
              ltac:(vm_compute; reflexivity))
    as (s' & Hrun & Hclock & Hhb & Htw & Hms & Hnext & ev & s'' & Hev & Hre).
  exists s'. do 6 (split; [assumption|]).
  exists ev, s''. split; [exact Hev|].
  rewrite Hre. vm_compute. reflexivity.
Defined.

End SchedulerFacts.

(** ** Device: the transaction engine *)
Module DeviceFacts.
Import Device.
Local Open Scope py_scope.

(** *** Lines *)

Lemma split_line_app l rest :
  has_LF l = false ->
  split_line (l ++ String LF rest) = (l ++ String LF "", rest).
Proof.
  induction l as [|c l IH]; simpl; intros H.
  - reflexivity.
  - apply orb_false_iff in H as [Hc Hl]. rewrite Hc, (IH Hl). reflexivity.
Qed.

Lemma ends_with_LF_app l : ends_with_LF (l ++ String LF "") = true.
Proof.
  induction l as [|c l IH]; simpl.
  - reflexivity.
  - destruct l; exact IH.
Qed.

Lemma but_last_app l c : but_last (l ++ String c "") = l.
Proof.
  induction l as [|a l IH]; simpl; [reflexivity|].
  destruct l; simpl in *; [reflexivity|]. now rewrite IH.
Qed.

(** *** Attribute access *)

Lemma getattr_attr w self name v :
  attr w self name = Some v -> getattr self name w = (Ok v, w).
Proof.
  unfold attr, getattr. destruct (instances w !! self); [|discriminate].
  now intros ->.
Qed.

Lemma the_port_run w self p port method :
  port_of w self = Some (p, port) ->
  the_port self method w = (Ok (p, port), w).
Proof.
  unfold port_of, the_port. intros H.
  destruct (attr w self "port") as [[| |q|]|] eqn:Ha; try discriminate.
  rewrite (bind_Ok _ _ _ _ _ (getattr_attr _ _ _ _ Ha)).
  unfold bind, get, ret, raise.
  destruct (ports w !! q); [|discriminate]. now inversion H.
Qed.

Lemma ready_with_ports w self p port port' :
  ready w self p port ->
  ready (with_ports (insert p port') w) self p port'.
Proof.
  unfold ready, port_of, logfile_usable, attr. simpl. intros [Hp Hl].
  split; [|exact Hl].
  destruct (instances w !! self); [|discriminate].
  destruct (lookup_attr _ _ "port") as [[| |q|]|]; try discriminate.
  destruct (ports w !! q) eqn:Hq; [|discriminate]. inversion Hp; subst.
  now rewrite lookup_insert_eq.
Qed.

Lemma ready_with_files w self p port f text :
  ready w self p port ->
  ready (with_files (insert f text) w) self p port.
Proof.
  unfold ready, port_of, logfile_usable, attr. simpl. intros [Hp Hl].
  split; [exact Hp|].
  destruct (instances w !! self); [|discriminate].
  destruct (lookup_attr _ _ "logfile") as [[| | |lf]|]; try discriminate;
    [reflexivity|].
  destruct (decide (f = lf)) as [->|Hne].
  - now rewrite lookup_insert_eq.
  - now rewrite lookup_insert_ne.
Qed.

Lemma ready_with_slept w self p port f :
  ready w self p port -> ready (with_slept f w) self p port.
Proof. exact id. Qed.

Lemma ready_with_log w self p port f :
  ready w self p port -> ready (with_log f w) self p port.
Proof. exact id. Qed.

(** *** The steps of a transaction *)

Lemma port_write_run w self p port b :
  ready w self p port ->
  write_times_out port = false ->
  exists w',
    port_write self b w = (Ok tt, w') /\
    ready w' self p (mkPort (rx port) (tx port ++ b) false).
Proof.
  intros Hr Hw. eexists. split.
  - unfold port_write.
    rewrite (bind_Ok _ _ _ _ _ (the_port_run _ _ _ _ _ (proj1 Hr))).
    rewrite Hw. reflexivity.
  - eapply ready_with_ports; exact Hr.
Qed.

Lemma port_write_times_out w self p port b :
  ready w self p port ->
  write_times_out port = true ->
  port_write self b w = (Raise SerialTimeoutException, w).
Proof.
  intros Hr Hw. unfold port_write.
  rewrite (bind_Ok _ _ _ _ _ (the_port_run _ _ _ _ _ (proj1 Hr))).
  rewrite Hw. reflexivity.
Qed.

Lemma logfile_write_run w self p port text :
  ready w self p port ->
  exists w', logfile_write self text w = (Ok tt, w') /\ ready w' self p port.
Proof.
  intros Hr. pose proof Hr as [_ Hl].
  unfold logfile_usable in Hl. unfold logfile_write.
  destruct (attr w self "logfile") as [[| | |f]|] eqn:Ha; try discriminate;
    rewrite (bind_Ok _ _ _ _ _ (getattr_attr _ _ _ _ Ha)).
  - eexists. split; [reflexivity|exact Hr].
  - unfold bind, get. destruct (files w !! f) eqn:Hf; [|discriminate].
    eexists. split; [reflexivity|]. eapply ready_with_files; exact Hr.
Qed.

Lemma port_readline_run w self p port :
  ready w self p port ->
  exists w',
    port_readline self w = (Ok (split_line (rx port)).1, w') /\
    ready w' self p
      (mkPort (split_line (rx port)).2 (tx port) (write_times_out port)).
Proof.
  intros Hr. unfold port_readline.
  rewrite (bind_Ok _ _ _ _ _ (the_port_run _ _ _ _ _ (proj1 Hr))).
  destruct (split_line (rx port)) as [line rest]. simpl.
  eexists. split; [reflexivity|].
  eapply ready_with_ports; exact Hr.
Qed.

(** A complete, decodable line is read and returned without its LF. *)
Lemma readln_line w self p port l rest :
  ready w self p port ->
  rx port = l ++ String LF rest ->
  has_LF l = false ->
  utf8_valid l = true ->
  exists w',
    readln self w = (Ok l, w') /\
    ready w' self p (mkPort rest (tx port) (write_times_out port)).
Proof.
  intros Hr Hrx Hl Hu.
  destruct (port_readline_run _ _ _ _ Hr) as (w' & Hrun & Hr').
  rewrite Hrx, (split_line_app _ _ Hl) in Hrun, Hr'. simpl in Hrun, Hr'.
  exists w'. split; [|exact Hr'].
  unfold readln. apply try_except_Ok.
  rewrite (bind_Ok _ _ _ _ _ Hrun).
  rewrite ends_with_LF_app, but_last_app. simpl.
  unfold lift_result, decode_utf8. now rewrite Hu.
Qed.

(** Without an LF within the timeout the read fails; the engine lets
    200 ms pass and empties the input buffer. *)
Lemma readln_timeout w self p port :
  ready w self p port ->
  has_LF (rx port) = false ->
  exists w',
    readln self w = (Raise (ValueError Serial_read_timeout), w') /\
    ready w' self p (mkPort "" (tx port) (write_times_out port)) /\
    slept w' = slept w + 200.
Proof.
  intros Hr Hl.
  destruct (port_readline_run _ _ _ _ Hr) as (w1 & Hrun & Hr1).
  assert (Hsplit : split_line (rx port) = (rx port, "")).
  { clear -Hl. induction (rx port) as [|c l IH]; simpl in *; [reflexivity|].
    apply orb_false_iff in Hl as [Hc Hl]. now rewrite Hc, (IH Hl). }
  assert (Hend : ends_with_LF (rx port) = false).
  { clear -Hl. induction (rx port) as [|c l IH]; simpl in *; [reflexivity|].
    apply orb_false_iff in Hl as [Hc Hl]. destruct l; [exact Hc|now apply IH]. }
  rewrite Hsplit in Hrun, Hr1. simpl in Hrun, Hr1.
  eexists. split; [|split].
  - unfold readln. erewrite try_except_Raise.
    2:{ rewrite (bind_Ok _ _ _ _ _ Hrun). rewrite Hend. reflexivity. }
    simpl. unfold time_sleep.
    erewrite bind_Ok by reflexivity.
    unfold port_flushInput.
    erewrite bind_Ok.
    2:{ erewrite bind_Ok.
        2:{ apply the_port_run. apply (ready_with_slept _ _ _ _ _ Hr1). }
        reflexivity. }
    reflexivity.
  - eapply ready_with_ports. apply (ready_with_slept _ _ _ _ (Z.add 200) Hr1).
  - simpl. pose proof Hrun as Hs.
    unfold port_readline in Hs.
    rewrite (bind_Ok _ _ _ _ _ (the_port_run _ _ _ _ _ (proj1 Hr))) in Hs.
    rewrite Hsplit in Hs. inversion Hs. simpl. lia.
Qed.

Lemma reporting_Ok {A} response (c : M World A) w a w' :
  c w = (Ok a, w') -> reporting response c w = (Ok a, w').
Proof. apply try_except_Ok. Qed.

(** *** The reply grammar *)

Lemma transact_first_line w self p port cmd l rest :
  ready w self p port ->
  write_times_out port = false ->
  rx port = l ++ String LF rest ->
  has_LF l = false ->
  utf8_valid l = true ->
  exists w1,
    ready w1 self p (mkPort rest (tx port ++ cmd) false) /\
    __transact self cmd w = after_first_line self l w1.
Proof.
  intros Hr Hw Hrx Hl Hu.
  destruct (port_write_run _ _ _ _ cmd Hr Hw) as (wa & Ea & Ra).
  destruct (logfile_write_run _ _ _ _ cmd Ra) as (wb & Eb & Rb).
  destruct (readln_line _ _ _ _ l rest Rb Hrx Hl Hu) as (wc & Ec & Rc).
  destruct (logfile_write_run _ _ _ _ (l ++ String LF "") Rc)
    as (wd & Ed & Rd).
  exists wd. split; [exact Rd|].
  unfold __transact.
  rewrite (bind_Ok _ _ _ _ _ (try_except_Ok _ _ _ _ _ Ea)).
  rewrite (bind_Ok _ _ _ _ _ Eb).
  rewrite (bind_Ok _ _ _ _ _ (reporting_Ok _ _ _ _ _ Ec)).
  rewrite (bind_Ok _ _ _ _ _ (reporting_Ok _ _ _ _ _ Ed)).
  reflexivity.
Qed.

Lemma transact_OK w self p port cmd rest :
  ready w self p port ->
  write_times_out port = false ->
  rx port = "OK" ++ String LF rest ->
  exists w',
    __transact self cmd w = (Ok "OK", w') /\
    ready w' self p (mkPort rest (tx port ++ cmd) false).
Proof.
  intros Hr Hw Hrx.
  destruct (transact_first_line _ _ _ _ cmd "OK" rest Hr Hw Hrx
              eq_refl eq_refl) as (w1 & R1 & ->).
  exists w1. split; [reflexivity|exact R1].
Qed.

Lemma transact_ERROR w self p port cmd rest :
  ready w self p port ->
  write_times_out port = false ->
  rx port = "ERROR" ++ String LF rest ->
  exists w',
    __transact self cmd w = (Raise (ValueError Device_replied_ERROR), w') /\
    ready w' self p (mkPort rest (tx port ++ cmd) false).
Proof.
  intros Hr Hw Hrx.
  destruct (transact_first_line _ _ _ _ cmd "ERROR" rest Hr Hw Hrx
              eq_refl eq_refl) as (w1 & R1 & ->).
  exists w1. split; [reflexivity|exact R1].
Qed.

Lemma transact_value w self p port cmd v second rest :
  ready w self p port ->
  write_times_out port = false ->
  rx port = v ++ String LF (second ++ String LF rest) ->
  has_LF v = false -> utf8_valid v = true ->
  v <> "OK" -> v <> "ERROR" ->
  has_LF second = false -> utf8_valid second = true ->
  exists w',
    __transact self cmd w =
      (if String.eqb second "OK" then Ok v
       else Raise (ValueError Device_did_not_end_with_OK), w') /\
    ready w' self p (mkPort rest (tx port ++ cmd) false).
Proof.
  intros Hr Hw Hrx Hl Hu Hok Herr Hl2 Hu2.
  destruct (transact_first_line _ _ _ _ cmd v _ Hr Hw Hrx Hl Hu)
    as (w1 & R1 & ->).
  destruct (readln_line _ _ _ _ second rest R1 eq_refl Hl2 Hu2)
    as (w2 & E2 & R2).
  destruct (logfile_write_run _ _ _ _ (second ++ String LF "") R2)
    as (w3 & E3 & R3).
  exists w3. split; [|exact R3].
  unfold after_first_line.
  apply String.eqb_neq in Hok, Herr. rewrite Hok, Herr.
  rewrite (bind_Ok _ _ _ _ _ (reporting_Ok _ _ _ _ _ E2)).
  rewrite (bind_Ok _ _ _ _ _ (reporting_Ok _ _ _ _ _ E3)).
  destruct (String.eqb second "OK"); reflexivity.
Qed.

(** A write that times out: the handler's [log.exception] finds no [log]
    in scope, so it is a [NameError] that leaves [__transact]; nothing
    is read or logged. *)
Lemma transact_write_times_out w self p port cmd :
  ready w self p port ->
  write_times_out port = true ->
  __transact self cmd w = (Raise (NameError "log"), w).
Proof.
  intros Hr Hw. unfold __transact.
  apply bind_Raise. erewrite try_except_Raise.
  2:{ eapply port_write_times_out; eassumption. }
  reflexivity.
Qed.

(** C3: on a connection that takes the command, [__transact] classifies
    the reply by its lines.  A first line [OK] is returned as it is; a
    first line [ERROR] raises [ValueError("Device replied 'ERROR'")],
    the engine's device error; any other first line is the value, and it
    is returned when the second line is [OK], whereas any other second
    line raises [ValueError("Device did not end with 'OK'")], the
    engine's protocol violation. *)
Theorem C3_transact_classifies_the_reply w self p port cmd :
  ready w self p port ->
  write_times_out port = false ->
  (forall rest,
      rx port = "OK" ++ String LF rest ->
      (__transact self cmd w).1 = Ok "OK") /\
  (forall rest,
      rx port = "ERROR" ++ String LF rest ->
      (__transact self cmd w).1 = Raise (ValueError Device_replied_ERROR)) /\
  (forall v second rest,
      rx port = v ++ String LF (second ++ String LF rest) ->
      has_LF v = false -> utf8_valid v = true ->
      v <> "OK" -> v <> "ERROR" ->
      has_LF second = false -> utf8_valid second = true ->
      (__transact self cmd w).1 =
        if String.eqb second "OK" then Ok v
        else Raise (ValueError Device_did_not_end_with_OK)).
Proof.
  intros Hr Hw. repeat split.
  - intros rest Hrx.
    destruct (transact_OK _ _ _ _ cmd rest Hr Hw Hrx) as (w' & -> & _).
    reflexivity.
  - intros rest Hrx.
    destruct (transact_ERROR _ _ _ _ cmd rest Hr Hw Hrx) as (w' & -> & _).
    reflexivity.
  - intros v second rest Hrx Hl Hu Hok Herr Hl2 Hu2.
    destruct (transact_value _ _ _ _ cmd v second rest Hr Hw Hrx Hl Hu
                Hok Herr Hl2 Hu2) as (w' & -> & _).
    reflexivity.
Qed.

(** C3 on the four sample replies. *)
Lemma C3_transact_witness :
  let cmd := "VERS?" ++ Scenario.LF in
  (__transact Scenario.d1 cmd
     (Scenario.first_hears ("OK" ++ Scenario.LF))).1 = Ok "OK" /\
  (__transact Scenario.d1 cmd
     (Scenario.first_hears ("ERROR" ++ Scenario.LF))).1
    = Raise (ValueError Device_replied_ERROR) /\
  (__transact Scenario.d1 cmd
     (Scenario.first_hears
        ("VALUE" ++ Scenario.LF ++ "OK" ++ Scenario.LF))).1 = Ok "VALUE" /\
  (__transact Scenario.d1 cmd
     (Scenario.first_hears
        ("VALUE" ++ Scenario.LF ++ "JUNK" ++ Scenario.LF))).1
    = Raise (ValueError Device_did_not_end_with_OK).
Proof.
  intros cmd.
  assert (Hready : forall reply,
             ready (Scenario.first_hears reply) Scenario.d1 Scenario.port1
                   (mkPort reply "" false)).
  { intros reply. split; reflexivity. }
  split; [|split; [|split]].
  - apply (proj1 (C3_transact_classifies_the_reply _ _ _ _ cmd
                    (Hready _) eq_refl) ""). reflexivity.
  - apply (proj1 (proj2 (C3_transact_classifies_the_reply _ _ _ _ cmd
                    (Hready _) eq_refl)) ""). reflexivity.
  - apply (proj2 (proj2 (C3_transact_classifies_the_reply _ _ _ _ cmd
                    (Hready _) eq_refl)) "VALUE" "OK" "");
      solve [reflexivity | discriminate].
  - apply (proj2 (proj2 (C3_transact_classifies_the_reply _ _ _ _ cmd
                    (Hready _) eq_refl)) "VALUE" "JUNK" "");
      solve [reflexivity | discriminate].
Defined.

(** *** What a transaction leaves alone *)

Lemma same_objects_refl w : same_objects w w.
Proof. repeat split. Qed.

Lemma same_objects_trans w1 w2 w3 :
  same_objects w1 w2 -> same_objects w2 w3 -> same_objects w1 w3.
Proof.
  intros (A1 & A2 & A3) (B1 & B2 & B3).
  repeat split; congruence.
Qed.

Section Keeps.
Context {A B : Type}.

Lemma keeps_ret (a : A) : keeps_objects (ret (S := World) a).
Proof. intros w. apply same_objects_refl. Qed.

Lemma keeps_raise e : keeps_objects (raise (S := World) (A := A) e).
Proof. intros w. apply same_objects_refl. Qed.

Lemma keeps_lift_result (r : result A) :
  keeps_objects (lift_result (S := World) r).
Proof. intros w. apply same_objects_refl. Qed.

Lemma keeps_bind (c : M World A) (k : A -> M World B) :
  keeps_objects c -> (forall a, keeps_objects (k a)) ->
  keeps_objects (bind c k).
Proof.
  intros Hc Hk w. unfold bind. specialize (Hc w).
  destruct (c w) as [[a|e] w1]; simpl in *; [|exact Hc].
  eapply same_objects_trans; [exact Hc|apply Hk].
Qed.

Lemma keeps_try_except (c : M World A) h :
  keeps_objects c -> (forall e, keeps_objects (h e)) ->
  keeps_objects (try_except c h).
Proof.
  intros Hc Hh w. unfold try_except. specialize (Hc w).
  destruct (c w) as [[a|e] w1]; simpl in *; [exact Hc|].
  eapply same_objects_trans; [exact Hc|apply Hh].
Qed.

Lemma keeps_if (b : bool) (c1 c2 : M World A) :
  keeps_objects c1 -> keeps_objects c2 ->
  keeps_objects (if b then c1 else c2).
Proof. now destruct b. Qed.
End Keeps.

Lemma keeps_get : keeps_objects (get (S := World)).
Proof. intros w. apply same_objects_refl. Qed.

Lemma keeps_with_ports f : keeps_objects (modify (with_ports f)).
Proof. intros w. repeat split. Qed.

Lemma keeps_with_files f : keeps_objects (modify (with_files f)).
Proof. intros w. repeat split. Qed.

Lemma keeps_time_sleep ms : keeps_objects (time_sleep ms).
Proof. intros w. repeat split. Qed.

Lemma keeps_logging name lvl msg : keeps_objects (logging name lvl msg).
Proof. intros w. repeat split. Qed.

Lemma keeps_getattr self name : keeps_objects (getattr self name).
Proof.
  intros w. unfold getattr.
  destruct (instances w !! self); [|apply same_objects_refl].
  destruct (lookup_attr _ _ _); apply same_objects_refl.
Qed.

Create HintDb keeps discriminated.
#[local] Hint Resolve keeps_ret keeps_raise keeps_lift_result keeps_get
  keeps_with_ports keeps_with_files keeps_time_sleep keeps_logging
  keeps_getattr : keeps.

Ltac keeps :=
  repeat first
    [ progress auto with keeps
    | apply keeps_bind; [|intros ?]
    | apply keeps_try_except; [|intros ?]
    | apply keeps_if
    | match goal with
      | |- keeps_objects (match ?x with _ => _ end) => destruct x
      | |- keeps_objects (let '(_, _) := ?x in _) => destruct x
      end ].

Lemma keeps_the_port self method : keeps_objects (the_port self method).
Proof. unfold the_port. keeps. Qed.
#[local] Hint Resolve keeps_the_port : keeps.

Lemma keeps_port_write self b : keeps_objects (port_write self b).
Proof. unfold port_write. keeps. Qed.

Lemma keeps_port_readline self : keeps_objects (port_readline self).
Proof. unfold port_readline. keeps. Qed.

Lemma keeps_port_flushInput self : keeps_objects (port_flushInput self).
Proof. unfold port_flushInput. keeps. Qed.

Lemma keeps_logfile_write self text :
  keeps_objects (logfile_write self text).
Proof. unfold logfile_write. keeps. Qed.
#[local] Hint Resolve keeps_port_write keeps_port_readline
  keeps_port_flushInput keeps_logfile_write : keeps.

Lemma keeps_readln self : keeps_objects (readln self).
Proof. unfold readln. keeps. Qed.
#[local] Hint Resolve keeps_readln : keeps.

Lemma keeps_reporting {A} response (c : M World A) :
  keeps_objects c -> keeps_objects (reporting response c).
Proof. intros Hc. unfold reporting. keeps. Qed.

(** A transaction, whatever its outcome, binds no attribute and touches
    no list. *)
Lemma keeps_transact self cmd : keeps_objects (__transact self cmd).
Proof.
  unfold __transact.
  repeat first
    [ apply keeps_reporting
    | progress keeps ].
Qed.

Lemma command_log_same_objects w w' self :
  same_objects w w' -> command_log w' self = command_log w self.
Proof.
  intros (Hl & Hi & Hd). unfold command_log, attr.
  now rewrite Hl, Hi, Hd.
Qed.

(** *** Measurements *)

Lemma Z_in_In n l : Z_in n l = true <-> In n l.
Proof.
  unfold Z_in. rewrite existsb_exists. split.
  - intros (x & Hx & E). apply Z.eqb_eq in E. now subst.
  - intros H. exists n. split; [exact H|apply Z.eqb_refl].
Qed.

Lemma Z_in_not_In n l : ~ In n l -> Z_in n l = false.
Proof.
  intros H. destruct (Z_in n l) eqn:E; [|reflexivity].
  now apply Z_in_In in E.
Qed.



(** *** The command log *)

Lemma command_log_inv w self items :
  command_log w self = Some items ->
  exists l, attr w self "cmds" = Some (VList l) /\ lists w !! l = Some items.
Proof.
  unfold command_log.
  destruct (attr w self "cmds") as [[|l| |]|]; try discriminate.
  intros H. now exists l.
Qed.

Lemma the_cmds_run w self l items method :
  attr w self "cmds" = Some (VList l) ->
  lists w !! l = Some items ->
  the_cmds self method w = (Ok (l, items), w).
Proof.
  intros Ha Hl. unfold the_cmds.
  rewrite (bind_Ok _ _ _ _ _ (getattr_attr _ _ _ _ Ha)).
  unfold bind, get, ret. now rewrite Hl.
Qed.

Lemma the_cmds_Raise w self method e w' :
  the_cmds self method w = (Raise e, w') ->
  w' = w /\ command_log w self = None.
Proof.
  unfold the_cmds, command_log, attr, bind, getattr, get, ret, raise.
  destruct (instances w !! self) as [d|]; [|now inversion 1].
  destruct (lookup_attr d (Device_dict w) "cmds") as [[|l| |]|];
    try now inversion 1.
  destruct (lists w !! l); now inversion 1.
Qed.

Lemma command_log_with_lists w self l items new :
  attr w self "cmds" = Some (VList l) ->
  lists w !! l = Some items ->
  command_log (with_lists (insert l new) w) self = Some new.
Proof.
  intros Ha Hl. unfold command_log, attr in *. simpl.
  destruct (instances w !! self); [|discriminate].
  rewrite Ha. apply lookup_insert_eq.
Qed.

(** Instances that bind no [cmds] of their own read the same list. *)
Lemma command_log_shared w a b da db :
  instances w !! a = Some da -> instances w !! b = Some db ->
  da !! "cmds" = None -> db !! "cmds" = None ->
  command_log w a = command_log w b.
Proof.
  intros Ha Hb Hda Hdb. unfold command_log, attr, lookup_attr.
  now rewrite Ha, Hb, Hda, Hdb.
Qed.

(** C5: [commands()] is one step of the store.  On an instance with a
    command log it returns every logged command, joined with commas and
    with LF turned into a space, and leaves the log empty and the rest of
    the store as it was; when it raises instead, the store is untouched.
    No outcome returns commands that stay in the log or clears commands it
    does not return. *)
Theorem C5_commands_reads_and_clears_in_one_step w self :
  (forall items,
      command_log w self = Some items ->
      exists w',
        commands self w = (Ok (replace LF " " (join "," items)), w') /\
        command_log w' self = Some [] /\
        ports w' = ports w /\ files w' = files w /\
        instances w' = instances w /\ Device_dict w' = Device_dict w /\
        slept w' = slept w /\ log w' = log w) /\
  (forall e w',
      commands self w = (Raise e, w') ->
      w' = w /\ command_log w self = None).
Proof.
  split.
  - intros items Hlog.
    destruct (command_log_inv _ _ _ Hlog) as (l & Ha & Hl).
    eexists. split.
    + unfold commands.
      rewrite (bind_Ok _ _ _ _ _ (the_cmds_run _ _ _ _ _ Ha Hl)).
      reflexivity.
    + split; [|repeat split]. eapply command_log_with_lists; eassumption.
  - intros e w' H. unfold commands in H.
    destruct (the_cmds self "join" w) as [[[l items]|e0] w0] eqn:E.
    + rewrite (bind_Ok _ _ _ _ _ E) in H. discriminate.
    + rewrite (bind_Raise _ _ _ _ _ E) in H. inversion H; subst.
      eapply the_cmds_Raise, E.
Qed.

(** C5 on a log of two commands. *)
Lemma C5_commands_witness :
  exists w',
    commands Scenario.d1 Scenario.after_two_pwm
      = (Ok "PWM1S005 ,PWM2S010 ", w') /\
    command_log w' Scenario.d1 = Some [].
Proof.
  destruct (proj1 (C5_commands_reads_and_clears_in_one_step
                     Scenario.after_two_pwm Scenario.d1)
              [PWM_set 1 5; PWM_set 2 10])
    as (w' & Hrun & Hlog & _).
  - vm_compute. reflexivity.
  - exists w'. split; [exact Hrun|exact Hlog].
Defined.

(** An accepted set command goes to the end of the list behind
    [self.cmds]. *)
Lemma pwm_set_accepted w self n x items val w' :
  command_log w self = Some items ->
  __transact self (PWM_set n x) w = (Ok val, w') ->
  exists l,
    attr w' self "cmds" = Some (VList l) /\
    lists w' !! l = Some items /\
    pwm self n (Some x) w =
      (int val, with_lists (insert l (items ++ [PWM_set n x])%list) w').
Proof.
  intros Hlog Ht.
  pose proof (keeps_transact self (PWM_set n x) w) as Hk.
  rewrite Ht in Hk. simpl in Hk.
  rewrite <- (command_log_same_objects _ _ self Hk) in Hlog.
  destruct (command_log_inv _ _ _ Hlog) as (l & Ha & Hl).
  exists l. split; [exact Ha|]. split; [exact Hl|].
  unfold pwm. fold (PWM_set n x).
  erewrite bind_Ok.
  2:{ rewrite (bind_Ok _ _ _ _ _ Ht).
      unfold cmds_append.
      rewrite (bind_Ok _ _ _ _ _
                 (bind_Ok _ _ _ _ _ (the_cmds_run _ _ _ _ _ Ha Hl))).
      reflexivity. }
  reflexivity.
Qed.

(** The constructor binds no [cmds] on the new instance and leaves the
    class and the list objects alone. *)
Lemma init_leaves_cmds_to_the_class line lg w :
  exists w' d,
    __init__ line lg w = (Ok (next_id w), w') /\
    instances w' !! next_id w = Some d /\
    d !! "cmds" = None /\
    Device_dict w' = Device_dict w /\
    lists w' = lists w /\
    (next_id w < next_id w')%positive /\
    (forall other, other <> next_id w ->
                   instances w' !! other = instances w !! other).
Proof.
  assert (Hrun : forall w1,
             instances w1 !! next_id w
               = Some (<["port" := VPort (Pos.succ (next_id w))]> ∅) ->
             ports w1 !! Pos.succ (next_id w) = Some line ->
             exists w2,
               port_flushInput (next_id w) w1 = (Ok tt, w2) /\
               instances w2 = instances w1 /\ lists w2 = lists w1 /\
               Device_dict w2 = Device_dict w1 /\ next_id w2 = next_id w1).
  { intros w1 Hi Hp.
    unfold port_flushInput, the_port, bind, getattr, get, ret, modify,
      lookup_attr.
    rewrite Hi, lookup_insert_eq, Hp. eexists. now repeat split. }
  unfold __init__, new_id.
  repeat first [progress cbn [bind fst snd]
               | progress unfold bind at 1, modify, setattr; cbn ].
  rewrite lookup_insert_eq.
  edestruct Hrun as (w2 & -> & Hi & Hl & Hd & Hn);
    [ cbn; apply lookup_insert_eq | cbn; apply lookup_insert_eq | ].
  cbn in Hi, Hl, Hd, Hn.
  destruct lg; cbn.
  - rewrite Hi, lookup_insert_eq. cbn.
    eexists _, _. split; [reflexivity|]. cbn.
    split; [rewrite ?Hi; apply lookup_insert_eq|].
    split; [rewrite !lookup_insert_ne by discriminate; apply lookup_empty|].
    split; [exact Hd|]. split; [exact Hl|]. split; [rewrite ?Hn; lia|].
    intros other Hne. rewrite ?Hi. now rewrite !lookup_insert_ne by auto.
  - eexists _, _. split; [reflexivity|]. cbn.
    split; [rewrite ?Hi; apply lookup_insert_eq|].
    split; [rewrite !lookup_insert_ne by discriminate; apply lookup_empty|].
    split; [exact Hd|]. split; [exact Hl|]. split; [rewrite ?Hn; lia|].
    intros other Hne. rewrite ?Hi. now rewrite !lookup_insert_ne by auto.
Qed.

(** Two devices constructed one after the other are two instances with
    one command log. *)
Lemma constructed_devices_share_the_log line1 lg1 line2 lg2 w a w1 b w2 :
  __init__ line1 lg1 w = (Ok a, w1) ->
  __init__ line2 lg2 w1 = (Ok b, w2) ->
  a <> b /\ command_log w2 a = command_log w2 b.
Proof.
  intros H1 H2.
  destruct (init_leaves_cmds_to_the_class line1 lg1 w)
    as (w1' & d1 & E1 & Hi1 & Hc1 & _ & _ & Hlt1 & _).
  rewrite H1 in E1. inversion E1; subst a w1'. clear E1.
  destruct (init_leaves_cmds_to_the_class line2 lg2 w1)
    as (w2' & d2 & E2 & Hi2 & Hc2 & _ & _ & _ & Hother).
  rewrite H2 in E2. inversion E2; subst b w2'. clear E2.
  assert (Hne : next_id w <> next_id w1) by lia.
  split; [exact Hne|].
  apply (command_log_shared w2 _ _ d1 d2); auto.
  rewrite Hother by exact Hne. exact Hi1.
Qed.

(** Hence the defect behind C1 in general: whatever one device logs, every
    other device that binds no [cmds] of its own reads. *)
Lemma accepted_command_is_read_through_every_device
    w a b da db n x items val w' :
  instances w !! a = Some da -> instances w !! b = Some db ->
  da !! "cmds" = None -> db !! "cmds" = None ->
  command_log w a = Some items ->
  __transact a (PWM_set n x) w = (Ok val, w') ->
  exists w'',
    pwm a n (Some x) w = (int val, w'') /\
    command_log w'' b = Some (items ++ [PWM_set n x])%list.
Proof.
  intros Ha Hb Hda Hdb Hlog Ht.
  destruct (pwm_set_accepted _ _ _ _ _ _ _ Hlog Ht) as (l & Hattr & Hl & Hrun).
  eexists. split; [exact Hrun|].
  pose proof (keeps_transact a (PWM_set n x) w) as Hk.
  rewrite Ht in Hk. destruct Hk as (_ & Hi & Hd). simpl in Hi, Hd.
  eapply command_log_with_lists; [|exact Hl].
  unfold attr, lookup_attr in *. rewrite Hi in *.
  rewrite Ha in Hattr. rewrite Hb. rewrite Hda in Hattr. now rewrite Hdb.
Qed.

(** C6: [pwm(n, x)] with a value to set.  When the transaction of
    [PWMnSxxx] returns, that command is appended at the end of the
    instance's command log (and nothing else changes before [int] reads
    the reply); when the transaction raises, [pwm] raises the same
    exception and the command log is as it was. *)
Theorem C6_pwm_set_logs_the_accepted_command w self n x items :
  command_log w self = Some items ->
  (forall val w',
      __transact self (PWM_set n x) w = (Ok val, w') ->
      exists w'',
        pwm self n (Some x) w = (int val, w'') /\
        command_log w'' self = Some (items ++ [PWM_set n x])%list /\
        ports w'' = ports w' /\ files w'' = files w' /\
        instances w'' = instances w' /\ Device_dict w'' = Device_dict w' /\
        slept w'' = slept w' /\ log w'' = log w') /\
  (forall e w',
      __transact self (PWM_set n x) w = (Raise e, w') ->
      pwm self n (Some x) w = (Raise e, w') /\
      command_log w' self = Some items).
Proof.
  intros Hlog. split.
  - intros val w' Ht.
    destruct (pwm_set_accepted _ _ _ _ _ _ _ Hlog Ht) as (l & Ha & Hl & Hrun).
    eexists. split; [exact Hrun|].
    split; [|repeat split]. eapply command_log_with_lists; eassumption.
  - intros e w' Ht. split.
    + unfold pwm. fold (PWM_set n x).
      apply bind_Raise. now apply bind_Raise.
    + pose proof (keeps_transact self (PWM_set n x) w) as Hk.
      rewrite Ht in Hk. simpl in Hk.
      now rewrite (command_log_same_objects _ _ self Hk).
Qed.

(** C6 on a second set command, once accepted and once answered with
    [ERROR]. *)
Lemma C6_pwm_witness :
  (exists w'',
      pwm Scenario.d1 2 (Some 10)
          (line_delivers Scenario.port1
             ("010" ++ Scenario.LF ++ "OK" ++ Scenario.LF) Scenario.after_pwm)
        = (Ok 10, w'') /\
      command_log w'' Scenario.d1 = Some [PWM_set 1 5; PWM_set 2 10]) /\
  (exists w',
      pwm Scenario.d1 2 (Some 10)
          (line_delivers Scenario.port1 ("ERROR" ++ Scenario.LF) Scenario.after_pwm)
        = (Raise (ValueError Device_replied_ERROR), w') /\
      command_log w' Scenario.d1 = Some [PWM_set 1 5]).
Proof.
  split.
  - destruct (proj1 (C6_pwm_set_logs_the_accepted_command
                       (line_delivers Scenario.port1
                          ("010" ++ Scenario.LF ++ "OK" ++ Scenario.LF)
                          Scenario.after_pwm)
                       Scenario.d1 2 10 [PWM_set 1 5] ltac:(vm_compute; reflexivity))
                "010" _ ltac:(vm_compute; reflexivity))
      as (w'' & Hrun & Hlog & _).
    exists w''. split; [exact Hrun|exact Hlog].
  - destruct (proj2 (C6_pwm_set_logs_the_accepted_command
                       (line_delivers Scenario.port1 ("ERROR" ++ Scenario.LF)
                          Scenario.after_pwm)
                       Scenario.d1 2 10 [PWM_set 1 5] ltac:(vm_compute; reflexivity))
                (ValueError Device_replied_ERROR) _ ltac:(vm_compute; reflexivity))
      as (Hrun & Hlog).
    eexists. split; [exact Hrun|exact Hlog].
Defined.

(** C1, on the code: the command log is the one list the class statement
    creates, and every instance reads it through the class.  With two
    connections open, [PWM1S005] sent and accepted on the first is in the
    log the second sees, and the second's [commands()] returns it and
    empties the log for both. *)
Theorem C1_the_command_log_is_one_list_for_all_devices :
  let w := Scenario.first_hears ("005" ++ Scenario.LF ++ "OK" ++ Scenario.LF) in
  Scenario.d1 <> Scenario.d2 /\
  command_log w Scenario.d1 = Some [] /\
  command_log w Scenario.d2 = Some [] /\
  pwm Scenario.d1 1 (Some 5) w = (Ok 5, Scenario.after_pwm) /\
  command_log Scenario.after_pwm Scenario.d2 = Some [PWM_set 1 5] /\
  (commands Scenario.d2 Scenario.after_pwm).1 = Ok "PWM1S005 " /\
  command_log (commands Scenario.d2 Scenario.after_pwm).2 Scenario.d1
    = Some [].
Proof.
  cbv zeta. split; [discriminate|].
  do 5 (split; [vm_compute; reflexivity|]).
  vm_compute; reflexivity.
Qed.

End DeviceFacts.

(** ** KeyboardInput: the decoder *)
Module KeyboardFacts.
Import KeyboardInput.
Local Open Scope py_scope.

Lemma bytes_drop_shorter n c b :
  (String.length (bytes_drop (S n) (String c b)) <= String.length b)%nat.
Proof.
  simpl. revert n. induction b as [|a b IH]; intros [|n]; simpl; try lia.
  specialize (IH n). lia.
Qed.

(** The loop ends with nothing left to read, given a round per byte. *)
Lemma read_until_empty_drains fuel k :
  (String.length (raw k) <= fuel)%nat ->
  read_until_empty fuel k = (Ok tt, mkKeyboard (chunk k) "").
Proof.
  revert k. induction fuel as [|fuel IH]; intros [ch r] Hlen; simpl in *.
  - destruct r; [reflexivity|simpl in Hlen; lia].
  - destruct r as [|c r]; [reflexivity|].
    unfold bind, __has_data, raw_read. cbn [raw chunk String.eqb negb].
    rewrite IH; [reflexivity|].
    cbn [raw]. pose proof (bytes_drop_shorter 1023 c r). simpl in Hlen.
    change 1024%nat with (S 1023). lia.
Qed.

Lemma drain_drains k : drain k = (Ok tt, mkKeyboard (chunk k) "").
Proof.
  unfold drain, bind, get. now apply read_until_empty_drains.
Qed.

Lemma utf8_valid_one_byte c : utf8_valid (String c "") = byte_in 0 127 c.
Proof. unfold utf8_valid. simpl. now destruct (byte_in 0 127 c). Qed.

Lemma ascii_is_not_continuation c :
  byte_in 0 127 c = true -> is_continuation c = false.
Proof.
  unfold is_continuation, byte_in. intros H.
  apply andb_true_iff in H as [_ H]. apply N.leb_le in H.
  apply andb_false_iff. left. apply N.leb_gt. lia.
Qed.

Lemma key_of_byte_single c : str_len (key_of_byte c) = 1%nat.
Proof.
  unfold key_of_byte. destruct (byte_in 0 127 c) eqn:E; [|reflexivity].
  simpl. now rewrite (ascii_is_not_continuation _ E).
Qed.

(** The dictionary holds each entry of the display under its own key: no
    key occurs twice. *)
Lemma translate_holds_every_entry :
  forallb (fun e => bool_decide (translate !! e.1 = Some e.2))
          translate_entries = true.
Proof. vm_compute. reflexivity. Qed.

(** C7: one [__next__] on a decoder holding [bytes].  If [bytes] is a key
    of [translate], the entry's name is the token and the look-ahead is
    used up.  If it is not and starts with ESC, everything the terminal
    has ready is read away and the iteration stops without a token.
    Otherwise the first byte alone becomes a one-character token (the
    byte as a character, or [?] when it is no text by itself), the other
    bytes stay in the look-ahead, and an emptied look-ahead is refilled
    with up to five bytes from the terminal. *)
Theorem C7_next_decodes_one_key k bytes :
  chunk k = Some bytes ->
  (forall key,
      translate !! bytes = Some key ->
      __next__ k = (Ok key, mkKeyboard None (raw k))) /\
  (translate !! bytes = None ->
   bytes_take 1 bytes = byte ESC ->
   __next__ k = (Raise StopIteration, mkKeyboard (Some bytes) "")) /\
  (forall c rest,
      translate !! bytes = None ->
      bytes = String c rest ->
      c <> ESC ->
      __next__ k =
        (Ok (key_of_byte c),
         match rest with
         | String _ _ => mkKeyboard (Some rest) (raw k)
         | EmptyString =>
             match raw k with
             | EmptyString => mkKeyboard None ""
             | String _ _ =>
                 mkKeyboard (Some (bytes_take 5 (raw k))) (bytes_drop 5 (raw k))
             end
         end) /\
      str_len (key_of_byte c) = 1%nat).
Proof.
  destruct k as [ch r]. cbn [chunk raw]. intros ->.
  unfold __next__, bind, get. cbn [chunk].
  split; [|split].
  - intros key ->. reflexivity.
  - intros -> Hesc. rewrite Hesc. cbn [String.eqb].
    rewrite String.eqb_refl.
    pose proof (drain_drains (mkKeyboard (Some bytes) r)) as Hd.
    cbn [chunk] in Hd. rewrite Hd. reflexivity.
  - intros c rest -> -> Hc. split; [|apply key_of_byte_single].
    cbn [bytes_take bytes_drop].
    assert (Hne : String.eqb (String c "") (byte ESC) = false).
    { apply String.eqb_neq. intros E. apply Hc. now inversion E. }
    rewrite Hne.
    unfold decode_utf8. rewrite utf8_valid_one_byte. fold (byte c).
    destruct rest as [|c' rest'].
    + destruct r as [|a r'];
        destruct (byte_in 0 127 c) eqn:E; unfold key_of_byte; rewrite E;
        reflexivity.
    + destruct (byte_in 0 127 c) eqn:E; unfold key_of_byte; rewrite E;
        reflexivity.
Qed.

(** C7 on sample input: an arrow key, an unknown escape sequence alone
    and with more typed behind it, a single letter, and a letter followed
    by more. *)
Lemma C7_next_witness :
  __next__ (Scenario.typed (esc "[A")) = (Ok "UP", mkKeyboard None "") /\
  __next__ (Scenario.typed (esc "ZZZ"))
    = (Raise StopIteration, mkKeyboard (Some (esc "ZZZ")) "") /\
  __next__ (Scenario.typed (esc "ZZZabcdefg"))
    = (Raise StopIteration, mkKeyboard (Some (esc "ZZZa")) "") /\
  __next__ (Scenario.typed "a") = (Ok "a", mkKeyboard None "") /\
  __next__ (Scenario.typed "abcdefg")
    = (Ok "a", mkKeyboard (Some "bcde") "fg").
Proof.
  split; [|split; [|split; [|split]]].
  - apply (proj1 (C7_next_decodes_one_key
                    (Scenario.typed (esc "[A")) (esc "[A") eq_refl) "UP").
    vm_compute. reflexivity.
  - apply (proj1 (proj2 (C7_next_decodes_one_key
                    (Scenario.typed (esc "ZZZ")) (esc "ZZZ") eq_refl)));
      vm_compute; reflexivity.
  - apply (proj1 (proj2 (C7_next_decodes_one_key
                    (Scenario.typed (esc "ZZZabcdefg")) (esc "ZZZa")
                    eq_refl)));
      vm_compute; reflexivity.
  - apply (proj1 (proj2 (proj2 (C7_next_decodes_one_key
                    (Scenario.typed "a") "a" eq_refl)) "a"%char ""
                   ltac:(vm_compute; reflexivity) eq_refl
                   ltac:(discriminate))).
  - apply (proj1 (proj2 (proj2 (C7_next_decodes_one_key
                    (Scenario.typed "abcdefg") "abcde" eq_refl)) "a"%char "bcde"
                   ltac:(vm_compute; reflexivity) eq_refl
                   ltac:(discriminate))).
Defined.

End KeyboardFacts.

(** ** KeyboardInput: the manager of input consumers *)
Module ManagerFacts.
Import KeyboardInput.
Local Open Scope py_scope.

Section Management.
Context {consumer : Type}.
Variable process_input : string -> consumer -> bool * consumer.

Abbreviation World := (World consumer).
Abbreviation input := (input process_input).
Abbreviation offer := (offer process_input).
Abbreviation call_process_input := (call_process_input process_input).
Abbreviation step := (step process_input).

Implicit Types (w : World) (self c : loc) (key : string).

(** *** Attributes *)

Lemma getattr_of_attr w self name v :
  attr w self name = Some v -> getattr self name w = (Ok v, w).
Proof.
  unfold attr, getattr. destruct (instances w !! self); [|discriminate].
  now intros ->.
Qed.

Lemma lookup_attr_insert_ne (d cls : gmap string attr_value) name name' v :
  name <> name' ->
  lookup_attr (<[name := v]> d) cls name' = lookup_attr d cls name'.
Proof. intros H. unfold lookup_attr. now rewrite lookup_insert_ne. Qed.

Lemma lookup_attr_insert_eq (d cls : gmap string attr_value) name v :
  lookup_attr (<[name := v]> d) cls name = Some v.
Proof. unfold lookup_attr. now rewrite lookup_insert_eq. Qed.

Lemma the_consumers_run w self l items method :
  attr w self "consumers" = Some (VList l) ->
  lists w !! l = Some items ->
  the_consumers self method w = (Ok (l, items), w).
Proof.
  intros Ha Hl. unfold the_consumers.
  rewrite (bind_Ok _ _ _ _ _ (getattr_of_attr _ _ _ _ Ha)).
  unfold bind, get, ret. now rewrite Hl.
Qed.

Lemma registered_inv w self cs :
  registered w self = Some cs ->
  exists l, attr w self "consumers" = Some (VList l) /\ lists w !! l = Some cs.
Proof.
  unfold registered.
  destruct (attr w self "consumers") as [[|l|]|]; try discriminate.
  intros H. now exists l.
Qed.

(** *** One call, and the round of offers *)

Lemma call_process_input_run w c key st :
  objects w !! c = Some st ->
  call_process_input c key w =
    (Ok (process_input key st).1,
     mkWorld (lists w) (instances w) (class_dict w)
             (<[c := (process_input key st).2]> (objects w))
             (calls w ++ [(c, key, (process_input key st).1)])
             (next_id w)).
Proof.
  intros H. unfold KeyboardInput.call_process_input. rewrite H.
  now destruct (process_input key st).
Qed.

Lemma offered_refuse key c refused taker :
  ([(c, key, false)] ++ offered key refused taker)%list
  = offered key (c :: refused) taker.
Proof. reflexivity. Qed.

Lemma offer_run self key d todo :
  forall w,
    instances w !! self = Some d ->
    (forall c, In c todo -> is_Some (objects w !! c)) ->
    exists w' refused taker,
      offer self key todo w = (Ok tt, w') /\
      calls w' = (calls w ++ offered key refused taker)%list /\
      lists w' = lists w /\ class_dict w' = class_dict w /\
      (forall c, is_Some (objects w !! c) -> is_Some (objects w' !! c)) /\
      match taker with
      | None => refused = todo /\ instances w' = instances w
      | Some c =>
          (exists later, todo = (refused ++ c :: later)%list) /\
          instances w' = <[self := <["active_consumer" := VObj c]> d]>
                           (instances w)
      end.
Proof.
  induction todo as [|c todo IH]; intros w Hself Hobjs.
  - exists w, [], None. simpl. rewrite app_nil_r. repeat split; auto.
  - destruct (Hobjs c (or_introl eq_refl)) as [st Hst].
    pose proof (call_process_input_run w c key st Hst) as Hcall.
    cbn [KeyboardInput.offer].
    rewrite (bind_Ok _ _ _ _ _ Hcall).
    destruct (process_input key st) as [[|] st'] eqn:Hp; cbn [fst snd].
    + (* the consumer takes the key: break *)
      eexists _, [], (Some c). split.
      { unfold setattr. cbn [instances]. rewrite Hself. reflexivity. }
      cbn. repeat split; auto.
      * intros c' Hc'. destruct (decide (c = c')) as [->|Hne].
        -- rewrite lookup_insert_eq. eauto.
        -- now rewrite lookup_insert_ne.
      * now exists todo.
    + (* it does not: on to the next *)
      edestruct (IH (mkWorld (lists w) (instances w) (class_dict w)
                             (<[c := st']> (objects w))
                             (calls w ++ [(c, key, false)]) (next_id w)))
        as (w' & refused & taker & Hrun & Hcalls & Hl & Hc & Ho & Ht).
      { exact Hself. }
      { intros c' Hc'. cbn. destruct (decide (c = c')) as [->|Hne].
        - rewrite lookup_insert_eq. eauto.
        - rewrite lookup_insert_ne by exact Hne. apply Hobjs. now right. }
      exists w', (c :: refused), taker. split; [exact Hrun|].
      split.
      { rewrite Hcalls. cbn [calls]. rewrite <- app_assoc.
        now rewrite offered_refuse. }
      split; [exact Hl|]. split; [exact Hc|]. split.
      { intros c' Hc'. apply Ho. cbn. destruct (decide (c = c')) as [->|Hne].
        - rewrite lookup_insert_eq. eauto.
        - now rewrite lookup_insert_ne. }
      destruct taker as [t|].
      * destruct Ht as [[later ->] Hi]. split; [|exact Hi]. now exists later.
      * destruct Ht as [-> Hi]. split; [reflexivity|exact Hi].
Qed.

(** *** Dispatch *)

Lemma attr_inv w self name v :
  attr w self name = Some v ->
  exists d, instances w !! self = Some d /\
            lookup_attr d (class_dict w) name = Some v.
Proof.
  unfold attr. destruct (instances w !! self) as [d|]; [|discriminate].
  intros H. now exists d.
Qed.

(** With nobody active, the key goes round the registered consumers in
    order and stops at the first that takes it. *)
Lemma input_idle w self key cs :
  active_slot w self = Some VNone ->
  registered w self = Some cs ->
  (forall c, In c cs -> is_Some (objects w !! c)) ->
  exists w' refused taker,
    input self key w = (Ok tt, w') /\
    calls w' = (calls w ++ offered key refused taker)%list /\
    registered w' self = Some cs /\
    (forall c, is_Some (objects w !! c) -> is_Some (objects w' !! c)) /\
    match taker with
    | None => refused = cs /\ active_slot w' self = Some VNone
    | Some c =>
        (exists later, cs = (refused ++ c :: later)%list) /\
        active_slot w' self = Some (VObj c)
    end.
Proof.
  intros Hslot Hreg Hobjs.
  destruct (attr_inv _ _ _ _ Hslot) as (d & Hd & Hlook).
  destruct (registered_inv _ _ _ Hreg) as (l & Ha & Hl).
  destruct (offer_run self key d cs w Hd Hobjs)
    as (w' & refused & taker & Hrun & Hcalls & Hlists & Hcls & Ho & Ht).
  exists w', refused, taker. split.
  { unfold KeyboardInput.input.
    rewrite (bind_Ok _ _ _ _ _ (getattr_of_attr _ _ _ _ Hslot)).
    rewrite (bind_Ok _ _ _ _ _ (the_consumers_run _ _ _ _ "__iter__" Ha Hl)).
    exact Hrun. }
  split; [exact Hcalls|].
  assert (Hattr : forall v, instances w' = <[self := <["active_consumer" := v]> d]>
                                   (instances w) ->
                  attr w' self "consumers" = Some (VList l) /\
                  active_slot w' self = Some v).
  { intros v Hi. unfold active_slot, attr. rewrite Hi, lookup_insert_eq, Hcls.
    split.
    - rewrite lookup_attr_insert_ne by discriminate.
      unfold attr in Ha. now rewrite Hd in Ha.
    - apply lookup_attr_insert_eq. }
  split; [|split; [exact Ho|]].
  - unfold registered. destruct taker as [t|].
    + destruct Ht as [_ Hi]. destruct (Hattr _ Hi) as [-> _].
      now rewrite Hlists.
    + destruct Ht as [_ Hi]. unfold attr. rewrite Hi, Hcls.
      unfold attr in Ha. rewrite Ha. now rewrite Hlists.
  - destruct taker as [t|].
    + destruct Ht as [Hlater Hi]. split; [exact Hlater|].
      now destruct (Hattr _ Hi).
    + destruct Ht as [-> Hi]. split; [reflexivity|].
      unfold active_slot, attr in *. now rewrite Hi, Hcls.
Qed.

(** With a consumer active, the key goes to it alone, and its answer
    decides whether it stays. *)
Lemma input_active w self key c st :
  active_slot w self = Some (VObj c) ->
  objects w !! c = Some st ->
  exists w',
    input self key w = (Ok tt, w') /\
    calls w' = (calls w ++ [(c, key, (process_input key st).1)])%list /\
    objects w' = <[c := (process_input key st).2]> (objects w) /\
    lists w' = lists w /\
    registered w' self = registered w self /\
    active_slot w' self =
      Some (if (process_input key st).1 then VObj c else VNone).
Proof.
  intros Hslot Hst.
  destruct (attr_inv _ _ _ _ Hslot) as (d & Hd & Hlook).
  pose proof (call_process_input_run w c key st Hst) as Hcall.
  unfold KeyboardInput.input.
  rewrite (bind_Ok _ _ _ _ _ (getattr_of_attr _ _ _ _ Hslot)).
  rewrite (bind_Ok _ _ _ _ _ Hcall).
  destruct (process_input key st) as [[|] st']; cbn [fst snd negb].
  - eexists. split; [reflexivity|]. cbn. repeat split; auto.
  - eexists. split.
    { unfold setattr. cbn [instances]. rewrite Hd. reflexivity. }
    cbn. repeat split; auto.
    + unfold registered, attr. cbn. rewrite lookup_insert_eq, Hd.
      now rewrite lookup_attr_insert_ne by discriminate.
    + unfold active_slot, attr. cbn. rewrite lookup_insert_eq.
      apply lookup_attr_insert_eq.
Qed.

(** *** At most one consumer is active *)

Lemma last_answer_app asked asked' c :
  last_answer (asked ++ asked') c =
    match last_answer asked' c with
    | Some a => Some a
    | None => last_answer asked c
    end.
Proof.
  induction asked as [|[[c' k] a] asked IH]; simpl.
  - now destruct (last_answer asked' c).
  - rewrite IH. now destruct (last_answer asked' c).
Qed.

Lemma last_answer_offered key refused taker c :
  last_answer (offered key refused taker) c = Some true -> taker = Some c.
Proof.
  induction refused as [|r refused IH].
  - destruct taker as [t|]; simpl; [|discriminate].
    destruct (Pos.eqb_spec t c); [now subst|discriminate].
  - change (offered key (r :: refused) taker)
      with ((r, key, false) :: offered key refused taker).
    simpl. destruct (last_answer (offered key refused taker) c) as [a|].
    + intros [= ->]. now apply IH.
    + destruct (Pos.eqb r c); discriminate.
Qed.

Lemma step_keeps_one_active w w' self :
  manager_ok w self -> one_active w self -> step self w w' ->
  manager_ok w' self /\ one_active w' self.
Proof.
  intros [(cs & Hreg & Hobjs) Hslot] Hone Hstep.
  destruct Hstep as [st o w w' Hnew | c w w' Hc Hadd | key w w' Hin].
  - (* a consumer is created *)
    inversion Hnew; subst; clear Hnew.
    assert (Hkeep : forall c, is_Some (objects w !! c) ->
                              is_Some (<[next_id w := st]> (objects w) !! c)).
    { intros c Hc. destruct (decide (next_id w = c)) as [<-|Hne].
      - rewrite lookup_insert_eq. eauto.
      - now rewrite lookup_insert_ne. }
    split; [split|].
    + exists cs. split; [exact Hreg|]. intros c Hc. cbn. auto.
    + destruct Hslot as [Hs|(c & Hs & Hc)]; [now left|right].
      exists c. split; [exact Hs|]. cbn. auto.
    + exact Hone.
  - (* a consumer is registered *)
    destruct (registered_inv _ _ _ Hreg) as (l & Ha & Hl).
    unfold add in Hadd.
    rewrite (bind_Ok _ _ _ _ _ (the_consumers_run _ _ _ _ "append" Ha Hl))
      in Hadd.
    inversion Hadd; subst; clear Hadd.
    split; [split|].
    + exists (cs ++ [c])%list. split.
      * unfold registered, attr in *. cbn.
        destruct (instances w !! self); [|discriminate].
        rewrite Ha. apply lookup_insert_eq.
      * intros c' Hc'. cbn. apply in_app_or in Hc' as [Hc'|[<-|[]]]; auto.
    + exact Hslot.
    + exact Hone.
  - (* a key is dispatched *)
    destruct Hslot as [Hs|(c & Hs & [st Hst])].
    + destruct (input_idle w self key cs Hs Hreg Hobjs)
        as (w1 & refused & taker & Hrun & Hcalls & Hreg1 & Ho & Ht).
      rewrite Hrun in Hin. inversion Hin; subst w1; clear Hin.
      split; [split|].
      * exists cs. split; [exact Hreg1|]. intros c Hc. apply Ho, Hobjs, Hc.
      * destruct taker as [t|].
        -- destruct Ht as [[later ->] Hs']. right. exists t.
           split; [exact Hs'|]. apply Ho, Hobjs.
           apply in_or_app. right. now left.
        -- left. apply Ht.
      * intros c. rewrite Hcalls, last_answer_app.
        destruct (last_answer (offered key refused taker) c) as [a|] eqn:E.
        -- intros [= ->]. apply last_answer_offered in E. subst taker.
           apply Ht.
        -- intros Hlast. apply Hone in Hlast. congruence.
    + destruct (input_active w self key c st Hs Hst)
        as (w1 & Hrun & Hcalls & Hobj & Hl & Hreg1 & Hs1).
      rewrite Hrun in Hin. inversion Hin; subst w1; clear Hin.
      assert (Hkeep : forall c', is_Some (objects w !! c') ->
                                 is_Some (objects w' !! c')).
      { intros c' Hc'. rewrite Hobj.
        destruct (decide (c = c')) as [->|Hne].
        - rewrite lookup_insert_eq. eauto.
        - now rewrite lookup_insert_ne. }
      split; [split|].
      * exists cs. split; [congruence|]. intros c' Hc'. auto.
      * destruct (process_input key st).1; [right|now left].
        exists c. split; [exact Hs1|]. apply Hkeep. eauto.
      * intros c'. rewrite Hcalls, last_answer_app. simpl.
        destruct (Pos.eqb_spec c c') as [->|Hne].
        -- intros [= Ha]. now rewrite Ha in Hs1.
        -- intros Hlast. apply Hone in Hlast. congruence.
Qed.

Lemma run_keeps_one_active w w' self :
  manager_ok w self -> one_active w self -> rtc (step self) w w' ->
  manager_ok w' self /\ one_active w' self.
Proof.
  intros Hok Hone Hrun. induction Hrun as [w|w w1 w' Hstep _ IH].
  - now split.
  - destruct (step_keeps_one_active _ _ _ Hok Hone Hstep) as [Hok1 Hone1].
    now apply IH.
Qed.

(** C8: dispatch through a manager.  With no consumer active, the key is
    offered to the registered consumers in registration order; those
    asked before the first taker all refuse, the first taker becomes the
    active consumer, and nobody registered after it is asked.  With a
    consumer active, it alone is asked, and the slot is cleared exactly
    when it answers that it is no longer active.  Along any run of the
    one manager, whoever last answered "active" is the consumer in the
    slot, so no two consumers are active at once. *)
Theorem C8_dispatch_is_mutually_exclusive self :
  (forall w key cs,
      active_slot w self = Some VNone ->
      registered w self = Some cs ->
      (forall c, In c cs -> is_Some (objects w !! c)) ->
      exists w' refused taker,
        input self key w = (Ok tt, w') /\
        calls w' = (calls w ++ offered key refused taker)%list /\
        match taker with
        | None => refused = cs /\ active_slot w' self = Some VNone
        | Some c =>
            (exists later, cs = (refused ++ c :: later)%list) /\
            active_slot w' self = Some (VObj c)
        end) /\
  (forall w key c st,
      active_slot w self = Some (VObj c) ->
      objects w !! c = Some st ->
      exists w',
        input self key w = (Ok tt, w') /\
        calls w' = (calls w ++ [(c, key, (process_input key st).1)])%list /\
        active_slot w' self =
          Some (if (process_input key st).1 then VObj c else VNone)) /\
  (forall w w',
      manager_ok w self -> one_active w self -> rtc (step self) w w' ->
      one_active w' self /\
      forall a b,
        last_answer (calls w') a = Some true ->
        last_answer (calls w') b = Some true ->
        a = b).
Proof.
  split; [|split].
  - intros w key cs Hs Hreg Hobjs.
    destruct (input_idle w self key cs Hs Hreg Hobjs)
      as (w' & refused & taker & Hrun & Hcalls & _ & _ & Ht).
    now exists w', refused, taker.
  - intros w key c st Hs Hst.
    destruct (input_active w self key c st Hs Hst)
      as (w' & Hrun & Hcalls & _ & _ & _ & Hs').
    now exists w'.
  - intros w w' Hok Hone Hrun.
    destruct (run_keeps_one_active _ _ _ Hok Hone Hrun) as [_ Hone'].
    split; [exact Hone'|].
    intros a b Ha Hb. apply Hone' in Ha, Hb. congruence.
Qed.

(** *** Two managers *)

(** Dispatch through [self] binds attributes on [self] only. *)
Lemma offer_frame self key todo :
  forall w,
    let w' := (offer self key todo w).2 in
    class_dict w' = class_dict w /\ lists w' = lists w /\
    forall other, other <> self -> instances w' !! other = instances w !! other.
Proof.
  induction todo as [|c todo IH]; intros w; cbn [KeyboardInput.offer].
  - now repeat split.
  - unfold bind, KeyboardInput.call_process_input.
    destruct (objects w !! c) as [st|]; [|now repeat split].
    destruct (process_input key st) as [[|] st'].
    + unfold setattr. cbn [instances].
      destruct (instances w !! self); cbn; repeat split; auto.
      intros other Hne. now rewrite lookup_insert_ne.
    + apply (IH (mkWorld _ _ _ _ _ _)).
Qed.

Lemma input_frame self key w :
  let w' := (input self key w).2 in
  class_dict w' = class_dict w /\ lists w' = lists w /\
  forall other, other <> self -> instances w' !! other = instances w !! other.
Proof.
  unfold KeyboardInput.input, bind, getattr.
  destruct (instances w !! self) as [d|] eqn:Hd; [|now repeat split].
  destruct (lookup_attr d (class_dict w) "active_consumer") as [[|l|c]|];
    try now repeat split.
  - unfold the_consumers, bind, getattr, get. rewrite Hd.
    destruct (lookup_attr d (class_dict w) "consumers") as [[|l|c]|];
      try now repeat split.
    destruct (lists w !! l) as [items|]; [|now repeat split].
    apply offer_frame.
  - unfold KeyboardInput.call_process_input.
    destruct (objects w !! c) as [st|]; [|now repeat split].
    destruct (process_input key st) as [[|] st']; cbn; [now repeat split|].
    unfold setattr. cbn. rewrite Hd. cbn. repeat split; auto.
    intros other Hne. now rewrite lookup_insert_ne.
Qed.

(** C10, as the code has it: the list of consumers is the one list the
    class statement creates, so managers that bind no [consumers] of
    their own read the same registrations, and a consumer added through
    one is in the list the other offers keys to.  The active slot is
    another matter: dispatching through one manager leaves the slot any
    other manager reads as it was. *)
Theorem C10_consumers_are_shared_the_active_slot_is_not self other w :
  self <> other ->
  (forall d d',
      instances w !! self = Some d -> instances w !! other = Some d' ->
      d !! "consumers" = None -> d' !! "consumers" = None ->
      registered w other = registered w self /\
      forall c cs w',
        registered w self = Some cs ->
        add self c w = (Ok tt, w') ->
        registered w' other = Some (cs ++ [c])%list) /\
  (forall key,
      active_slot (input self key w).2 other = active_slot w other).
Proof.
  intros Hne. split.
  - intros d d' Hd Hd' Hc Hc'.
    assert (Hsame : registered w other = registered w self).
    { unfold registered, attr, lookup_attr. now rewrite Hd, Hd', Hc, Hc'. }
    split; [exact Hsame|].
    intros c cs w' Hreg Hadd.
    destruct (registered_inv _ _ _ Hreg) as (l & Ha & Hl).
    unfold add in Hadd.
    rewrite (bind_Ok _ _ _ _ _ (the_consumers_run _ _ _ _ "append" Ha Hl))
      in Hadd.
    inversion Hadd; subst; clear Hadd.
    rewrite <- Hsame in Hreg.
    unfold registered, attr in *. cbn.
    rewrite Hd in Ha. rewrite Hd' in Hreg |- *.
    unfold lookup_attr in *. rewrite Hc in Ha. rewrite Hc' in Hreg |- *.
    rewrite Ha. apply lookup_insert_eq.
  - intros key.
    destruct (input_frame self key w) as (Hcls & _ & Hinst).
    unfold active_slot, attr.
    rewrite Hcls, (Hinst other) by auto. reflexivity.
Qed.

End Management.

(** *** The example consumers *)

(** F1 wakes the first consumer only; what is typed next goes to it alone
    until ENTER ends its input; F2 is then offered round again. *)
Example F1_then_digits_then_F2 :
  calls (Scenario.dispatch Scenario.m1 ["F1"; "4"; "2"; "ENTER"; "F2"]
           Scenario.two_managers)
  = [ (Scenario.c1, "F1", true);
      (Scenario.c1, "4", true);
      (Scenario.c1, "2", true);
      (Scenario.c1, "ENTER", false);
      (Scenario.c1, "F2", false);
      (Scenario.c2, "F2", true) ].
Proof. vm_compute. reflexivity. Qed.

(** C8 on the sample manager: F2 offered round, ESC given to the active
    F1 consumer, and the invariant after F1. *)
Lemma C8_dispatch_witness :
  (exists w' refused taker,
      input process_input Scenario.m1 "F2" Scenario.two_managers
        = (Ok tt, w') /\
      calls w' = (calls Scenario.two_managers ++ offered "F2" refused taker)%list /\
      match taker with
      | None =>
          refused = [Scenario.c1; Scenario.c2] /\
          active_slot w' Scenario.m1 = Some VNone
      | Some c =>
          (exists later,
              [Scenario.c1; Scenario.c2] = (refused ++ c :: later)%list) /\
          active_slot w' Scenario.m1 = Some (VObj c)
      end) /\
  (exists w',
      input process_input Scenario.m1 "ESC"
            (Scenario.dispatch Scenario.m1 ["F1"] Scenario.two_managers)
        = (Ok tt, w') /\
      calls w' =
        (calls (Scenario.dispatch Scenario.m1 ["F1"] Scenario.two_managers)
           ++ [(Scenario.c1, "ESC", false)])%list /\
      active_slot w' Scenario.m1 = Some VNone) /\
  (one_active
     (Scenario.dispatch Scenario.m1 ["F1"] Scenario.two_managers)
     Scenario.m1 /\
   forall a b,
     last_answer
       (calls (Scenario.dispatch Scenario.m1 ["F1"] Scenario.two_managers)) a
       = Some true ->
     last_answer
       (calls (Scenario.dispatch Scenario.m1 ["F1"] Scenario.two_managers)) b
       = Some true ->
     a = b).
Proof.
  assert (Hobjs : forall c, In c [Scenario.c1; Scenario.c2] ->
                            is_Some (objects Scenario.two_managers !! c)).
  { intros c [<-|[<-|[]]]; eexists; vm_compute; reflexivity. }
  split; [|split].
  - apply (proj1 (C8_dispatch_is_mutually_exclusive process_input Scenario.m1)
             Scenario.two_managers "F2" [Scenario.c1; Scenario.c2]);
      [vm_compute; reflexivity | vm_compute; reflexivity | exact Hobjs].
  - apply (proj1 (proj2 (C8_dispatch_is_mutually_exclusive
                           process_input Scenario.m1))
             (Scenario.dispatch Scenario.m1 ["F1"] Scenario.two_managers)
             "ESC" Scenario.c1 (mkInputConsumer "F1" true "" "" []));
      vm_compute; reflexivity.
  - apply (proj2 (proj2 (C8_dispatch_is_mutually_exclusive
                           process_input Scenario.m1))
             Scenario.two_managers).
    + split.
      * exists [Scenario.c1; Scenario.c2].
        split; [vm_compute; reflexivity | exact Hobjs].
      * left. vm_compute. reflexivity.
    + intros c Hc. vm_compute in Hc. discriminate.
    + apply rtc_once. apply (step_input _ _ "F1").
      vm_compute. reflexivity.
Defined.

(** C10, as stated, fails on the code: after F1 went through the first
    manager, the second reads the registrations made through the first,
    but its active slot is still [None] while the first's holds the F1
    consumer. *)
Lemma C10_second_manager_does_not_see_the_active_consumer :
  let w := Scenario.dispatch Scenario.m1 ["F1"] Scenario.two_managers in
  registered w Scenario.m2 = Some [Scenario.c1; Scenario.c2] /\
  active_slot w Scenario.m1 = Some (VObj Scenario.c1) /\
  active_slot w Scenario.m2 = Some VNone /\
  active_slot w Scenario.m2 <> active_slot w Scenario.m1.
Proof.
  cbv zeta.
  assert (H1 : active_slot
                 (Scenario.dispatch Scenario.m1 ["F1"] Scenario.two_managers)
                 Scenario.m1 = Some (VObj Scenario.c1))
    by (vm_compute; reflexivity).
  assert (H2 : active_slot
                 (Scenario.dispatch Scenario.m1 ["F1"] Scenario.two_managers)
                 Scenario.m2 = Some VNone)
    by (vm_compute; reflexivity).
  split; [vm_compute; reflexivity|].
  split; [exact H1|]. split; [exact H2|].
  rewrite H1, H2. discriminate.
Qed.

(** C10, as the code has it, on the two sample managers. *)
Lemma C10_two_managers_witness :
  (registered Scenario.two_managers Scenario.m2
     = registered Scenario.two_managers Scenario.m1 /\
   forall c cs w',
     registered Scenario.two_managers Scenario.m1 = Some cs ->
     add Scenario.m1 c Scenario.two_managers = (Ok tt, w') ->
     registered w' Scenario.m2 = Some (cs ++ [c])%list) /\
  (forall key,
      active_slot
        (input process_input Scenario.m1 key Scenario.two_managers).2
        Scenario.m2
      = active_slot Scenario.two_managers Scenario.m2).
Proof.
  destruct (C10_consumers_are_shared_the_active_slot_is_not process_input
              Scenario.m1 Scenario.m2 Scenario.two_managers
              ltac:(discriminate)) as [Hlist Hslot].
  split; [|exact Hslot].
  apply (Hlist ∅ ∅); vm_compute; reflexivity.
Defined.

End ManagerFacts.

(** ** Device: timeouts, the log file, and what a query leaves alone *)
Module DeviceMore.
Import Device DeviceIO DeviceFacts.
Local Open Scope py_scope.

Lemma io_ready w self p port text :
  io w self = Some (p, port, text) -> ready w self p port.
Proof.
  unfold io, ready, logfile_text, logfile_usable. intros H.
  destruct (port_of w self) as [[q pt]|]; [|discriminate].
  destruct (attr w self "logfile") as [[| | |f]|]; try discriminate.
  - now inversion H.
  - destruct (files w !! f); [|discriminate]. now inversion H.
Qed.

Lemma calm_refl w : calm w w.
Proof. repeat split. Qed.

Lemma calm_trans w1 w2 w3 : calm w1 w2 -> calm w2 w3 -> calm w1 w3.
Proof.
  intros (A & A1 & A2) (B & B1 & B2). split; [|split; congruence].
  eapply same_objects_trans; eassumption.
Qed.

Lemma io_with_ports w self p port text port' :
  io w self = Some (p, port, text) ->
  io (with_ports (insert p port') w) self = Some (p, port', text).
Proof.
  unfold io, logfile_text, port_of, attr. cbn. intros H.
  destruct (instances w !! self); [|discriminate].
  destruct (lookup_attr _ _ "port") as [[| |q|]|]; try discriminate.
  destruct (ports w !! q) eqn:Hq; [|discriminate].
  destruct (lookup_attr _ _ "logfile") as [[| | |f]|]; try discriminate.
  - inversion H; subst. now rewrite lookup_insert_eq.
  - destruct (files w !! f); [|discriminate].
    inversion H; subst. now rewrite lookup_insert_eq.
Qed.

Lemma port_write_io w self p port text b :
  io w self = Some (p, port, text) ->
  write_times_out port = false ->
  exists w',
    port_write self b w = (Ok tt, w') /\
    io w' self = Some (p, sent b port, text) /\ calm w w'.
Proof.
  intros Hio Hw. eexists. split; [|split].
  - unfold port_write.
    rewrite (bind_Ok _ _ _ _ _
               (the_port_run _ _ _ _ _ (proj1 (io_ready _ _ _ _ _ Hio)))).
    rewrite Hw. reflexivity.
  - erewrite io_with_ports by exact Hio. unfold sent. now rewrite Hw.
  - repeat split.
Qed.

Lemma port_readline_io w self p port text :
  io w self = Some (p, port, text) ->
  exists w',
    port_readline self w = (Ok (split_line (rx port)).1, w') /\
    io w' self = Some (p, left_with (split_line (rx port)).2 port, text) /\
    calm w w'.
Proof.
  intros Hio. unfold port_readline.
  rewrite (bind_Ok _ _ _ _ _
             (the_port_run _ _ _ _ _ (proj1 (io_ready _ _ _ _ _ Hio)))).
  destruct (split_line (rx port)) as [line rest]. cbn.
  eexists. split; [reflexivity|]. split; [|repeat split].
  eapply io_with_ports. exact Hio.
Qed.

Lemma port_flushInput_io w self p port text :
  io w self = Some (p, port, text) ->
  exists w',
    port_flushInput self w = (Ok tt, w') /\
    io w' self = Some (p, left_with "" port, text) /\ calm w w'.
Proof.
  intros Hio. unfold port_flushInput.
  rewrite (bind_Ok _ _ _ _ _
             (the_port_run _ _ _ _ _ (proj1 (io_ready _ _ _ _ _ Hio)))).
  eexists. split; [reflexivity|]. split; [|repeat split].
  eapply io_with_ports. exact Hio.
Qed.

Lemma logfile_write_io w self p port text t :
  io w self = Some (p, port, text) ->
  exists w',
    logfile_write self t w = (Ok tt, w') /\
    io w' self = Some (p, port, logged t text) /\ calm w w'.
Proof.
  intros Hio. unfold logfile_write.
  pose proof Hio as Hio'. unfold io, logfile_text in Hio'.
  destruct (port_of w self) as [[q pt]|] eqn:Hp; [|discriminate].
  destruct (attr w self "logfile") as [[| | |f]|] eqn:Ha; try discriminate;
    rewrite (bind_Ok _ _ _ _ _ (getattr_attr _ _ _ _ Ha)).
  - inversion Hio'; subst. eexists. split; [reflexivity|].
    split; [exact Hio|apply calm_refl].
  - unfold bind, get. destruct (files w !! f) as [old|] eqn:Hf; [|discriminate].
    inversion Hio'; subst. eexists. split; [reflexivity|].
    split; [|repeat split].
    unfold io, logfile_text, port_of, attr in *. cbn.
    destruct (instances w !! self); [|discriminate].
    rewrite Ha. cbn in Hp. rewrite Hp. now rewrite lookup_insert_eq.
Qed.

Lemma readln_io_line w self p port text l rest :
  io w self = Some (p, port, text) ->
  rx port = l ++ String LF rest ->
  has_LF l = false ->
  utf8_valid l = true ->
  exists w',
    readln self w = (Ok l, w') /\
    io w' self = Some (p, left_with rest port, text) /\ calm w w'.
Proof.
  intros Hio Hrx Hl Hu.
  destruct (port_readline_io _ _ _ _ _ Hio) as (w' & Hrun & Hio' & Hcalm).
  rewrite Hrx, (split_line_app _ _ Hl) in Hrun, Hio'. cbn in Hrun, Hio'.
  exists w'. split; [|split; assumption].
  unfold readln. apply try_except_Ok.
  rewrite (bind_Ok _ _ _ _ _ Hrun).
  rewrite ends_with_LF_app, but_last_app. cbn.
  unfold lift_result, decode_utf8. now rewrite Hu.
Qed.

(** A read that ends in a [ValueError], be it the timeout or a line that
    is no text: 200 ms pass and the input buffer is emptied. *)
Lemma readln_io_ValueError w self p port text why :
  io w self = Some (p, port, text) ->
  (ends_with_LF (split_line (rx port)).1 = false /\
   why = Serial_read_timeout) \/
  (ends_with_LF (split_line (rx port)).1 = true /\
   utf8_valid (but_last (split_line (rx port)).1) = false /\
   why = UnicodeDecodeError) ->
  exists w',
    readln self w = (Raise (ValueError why), w') /\
    io w' self = Some (p, left_with "" port, text) /\
    same_objects w w' /\ slept w' = slept w + 200 /\ log w' = log w.
Proof.
  intros Hio Hwhy.
  destruct (port_readline_io _ _ _ _ _ Hio)
    as (w1 & Hrun & Hio1 & (Hobj1 & Hsl1 & Hlog1)).
  assert (Hio2 : io (with_slept (Z.add 200) w1) self
                 = Some (p, left_with (split_line (rx port)).2 port, text))
    by exact Hio1.
  destruct (port_flushInput_io _ _ _ _ _ Hio2)
    as (w3 & Hflush & Hio3 & (Hobj3 & Hsl3 & Hlog3)).
  exists w3. split; [|split; [exact Hio3|split; [|split]]].
  - unfold readln. erewrite try_except_Raise.
    2:{ rewrite (bind_Ok _ _ _ _ _ Hrun).
        destruct Hwhy as [[-> ->]|(-> & Hu & ->)]; cbn; [reflexivity|].
        unfold lift_result, decode_utf8. now rewrite Hu. }
    simpl. unfold time_sleep. erewrite bind_Ok by reflexivity.
    rewrite (bind_Ok _ _ _ _ _ Hflush). reflexivity.
  - eapply same_objects_trans; [exact Hobj1|exact Hobj3].
  - rewrite Hsl3. cbn. rewrite Hsl1. lia.
  - rewrite Hlog3. cbn. exact Hlog1.
Qed.

Lemma no_LF_line l :
  has_LF l = false ->
  split_line l = (l, "") /\ ends_with_LF l = false.
Proof.
  induction l as [|c l IH]; cbn; intros H; [now split|].
  apply orb_false_iff in H as [Hc Hl]. destruct (IH Hl) as [-> He].
  split; [now rewrite Hc|]. destruct l; [exact Hc|exact He].
Qed.

(** The command goes out, is copied to the log file, and the first line
    comes in and is copied too. *)
Lemma transact_first_line_io w self p port text cmd l rest :
  io w self = Some (p, port, text) ->
  write_times_out port = false ->
  rx port = l ++ String LF rest ->
  has_LF l = false ->
  utf8_valid l = true ->
  exists w1,
    io w1 self = Some (p, left_with rest (sent cmd port),
                       logged (l ++ String LF "") (logged cmd text)) /\
    calm w w1 /\
    __transact self cmd w = after_first_line self l w1.
Proof.
  intros Hio Hw Hrx Hl Hu.
  destruct (port_write_io _ _ _ _ _ cmd Hio Hw) as (wa & Ea & Ia & Ca).
  destruct (logfile_write_io _ _ _ _ _ cmd Ia) as (wb & Eb & Ib & Cb).
  destruct (readln_io_line _ _ _ _ _ l rest Ib Hrx Hl Hu)
    as (wc & Ec & Ic & Cc).
  destruct (logfile_write_io _ _ _ _ _ (l ++ String LF "") Ic)
    as (wd & Ed & Id & Cd).
  exists wd. split; [exact Id|]. split.
  { eapply calm_trans; [|exact Cd]. eapply calm_trans; [|exact Cc].
    eapply calm_trans; eassumption. }
  unfold __transact.
  rewrite (bind_Ok _ _ _ _ _ (try_except_Ok _ _ _ _ _ Ea)).
  rewrite (bind_Ok _ _ _ _ _ Eb).
  rewrite (bind_Ok _ _ _ _ _ (reporting_Ok _ _ _ _ _ Ec)).
  rewrite (bind_Ok _ _ _ _ _ (reporting_Ok _ _ _ _ _ Ed)).
  reflexivity.
Qed.

Lemma reporting_ValueError {A} response (c : M World A) w why w' :
  c w = (Raise (ValueError why), w') ->
  reporting response c w = (Raise (ValueError why), w').
Proof. intros H. unfold reporting. now rewrite (try_except_Raise _ _ _ _ _ H). Qed.

Lemma append_assoc (a b c : string) : (a ++ b) ++ c = a ++ (b ++ c).
Proof.
  induction a as [|x a IH]; [reflexivity|].
  change (String x ((a ++ b) ++ c) = String x (a ++ (b ++ c))).
  now rewrite IH.
Qed.

Lemma logged_app a b text : logged b (logged a text) = logged (a ++ b) text.
Proof.
  destruct text as [old|]; [|reflexivity].
  unfold logged. now rewrite append_assoc.
Qed.

Lemma calm_same_objects w w' : calm w w' -> same_objects w w'.
Proof. now intros [H _]. Qed.

(** The first read of a transaction ends in a [ValueError]. *)
Lemma transact_first_read_fails w self p port text cmd why :
  io w self = Some (p, port, text) ->
  write_times_out port = false ->
  (ends_with_LF (split_line (rx port)).1 = false /\
   why = Serial_read_timeout) \/
  (ends_with_LF (split_line (rx port)).1 = true /\
   utf8_valid (but_last (split_line (rx port)).1) = false /\
   why = UnicodeDecodeError) ->
  exists w',
    __transact self cmd w = (Raise (ValueError why), w') /\
    io w' self = Some (p, left_with "" (sent cmd port), logged cmd text) /\
    same_objects w w' /\ slept w' = slept w + 200 /\ log w' = log w.
Proof.
  intros Hio Hw Hwhy.
  destruct (port_write_io _ _ _ _ _ cmd Hio Hw) as (wa & Ea & Ia & Ca).
  destruct (logfile_write_io _ _ _ _ _ cmd Ia) as (wb & Eb & Ib & Cb).
  destruct (readln_io_ValueError _ _ _ _ _ why Ib Hwhy)
    as (wc & Ec & Ic & Oc & Sc & Lc).
  destruct (calm_trans _ _ _ Ca Cb) as (Oab & Sab & Lab).
  exists wc. split; [|split; [exact Ic|split; [|split]]].
  - unfold __transact.
    rewrite (bind_Ok _ _ _ _ _ (try_except_Ok _ _ _ _ _ Ea)).
    rewrite (bind_Ok _ _ _ _ _ Eb).
    now rewrite (bind_Raise _ _ _ _ _ (reporting_ValueError _ _ _ _ _ Ec)).
  - eapply same_objects_trans; eassumption.
  - now rewrite Sc, Sab.
  - now rewrite Lc, Lab.
Qed.

(** The second read of a transaction ends in a [ValueError]. *)
Lemma transact_second_read_fails w self p port text cmd v tail why :
  io w self = Some (p, port, text) ->
  write_times_out port = false ->
  rx port = v ++ String LF tail ->
  value_line v ->
  (ends_with_LF (split_line tail).1 = false /\
   why = Serial_read_timeout) \/
  (ends_with_LF (split_line tail).1 = true /\
   utf8_valid (but_last (split_line tail).1) = false /\
   why = UnicodeDecodeError) ->
  exists w',
    __transact self cmd w = (Raise (ValueError why), w') /\
    io w' self = Some (p, left_with "" (sent cmd port),
                       logged (cmd ++ v ++ String LF "") text) /\
    same_objects w w' /\ slept w' = slept w + 200 /\ log w' = log w.
Proof.
  intros Hio Hw Hrx (Hl & Hu & Hok & Herr) Hwhy.
  destruct (transact_first_line_io _ _ _ _ _ cmd _ _ Hio Hw Hrx Hl Hu)
    as (w1 & I1 & (O1 & S1 & L1) & ->).
  destruct (readln_io_ValueError _ _ _ _ _ why I1 Hwhy)
    as (w2 & E2 & I2 & O2 & S2 & L2).
  exists w2. split; [|split; [|split; [|split]]].
  - unfold after_first_line.
    apply String.eqb_neq in Hok, Herr. rewrite Hok, Herr.
    now rewrite (bind_Raise _ _ _ _ _ (reporting_ValueError _ _ _ _ _ E2)).
  - rewrite I2, logged_app. reflexivity.
  - eapply same_objects_trans; eassumption.
  - now rewrite S2, S1.
  - now rewrite L2, L1.
Qed.

(** X1: a command the board does not answer within the read timeout
    makes the transaction raise [ValueError("Serial read timeout!")];
    the command has gone out and is in the log file, 200 ms have been
    slept, and whatever part of a line had arrived is thrown away. *)
Theorem unanswered_command_times_out w self p port text cmd :
  io w self = Some (p, port, text) ->
  write_times_out port = false ->
  has_LF (rx port) = false ->
  exists w',
    __transact self cmd w = (Raise (ValueError Serial_read_timeout), w') /\
    io w' self = Some (p, left_with "" (sent cmd port), logged cmd text) /\
    same_objects w w' /\ slept w' = slept w + 200 /\ log w' = log w.
Proof.
  intros Hio Hw Hl. apply (transact_first_read_fails _ _ _ _ _ _ _ Hio Hw).
  left. destruct (no_LF_line _ Hl) as [-> He]. now split.
Qed.

Lemma unanswered_command_witness :
  (version Scenario.d1 (Scenario.first_hears "12")).1
  = Raise (ValueError Serial_read_timeout).
Proof.
  destruct (unanswered_command_times_out (Scenario.first_hears "12")
              Scenario.d1 Scenario.port1 (mkPort "12" "" false) (Some "")
              ("VERS?" ++ String LF "")
              ltac:(vm_compute; reflexivity) eq_refl eq_refl)
    as (w' & E & _).
  unfold version. rewrite E. reflexivity.
Defined.

(** X2: a value line that is not followed by a complete second line is
    lost: the transaction raises the read timeout instead of returning
    the value, after copying the value line to the log file, sleeping
    200 ms and emptying the input buffer. *)
Theorem value_without_OK_times_out w self p port text cmd v tail :
  io w self = Some (p, port, text) ->
  write_times_out port = false ->
  rx port = v ++ String LF tail ->
  value_line v ->
  has_LF tail = false ->
  exists w',
    __transact self cmd w = (Raise (ValueError Serial_read_timeout), w') /\
    io w' self = Some (p, left_with "" (sent cmd port),
                       logged (cmd ++ v ++ String LF "") text) /\
    same_objects w w' /\ slept w' = slept w + 200 /\ log w' = log w.
Proof.
  intros Hio Hw Hrx Hv Hl.
  apply (transact_second_read_fails _ _ _ _ _ _ _ _ _ Hio Hw Hrx Hv).
  left. destruct (no_LF_line _ Hl) as [-> He]. now split.
Qed.

Lemma value_without_OK_witness :
  (meas Scenario.d1 0 (Scenario.first_hears ("028 V" ++ Scenario.LF ++ "O"))).1
  = Raise (ValueError Serial_read_timeout).
Proof.
  destruct (value_without_OK_times_out
              (Scenario.first_hears ("028 V" ++ Scenario.LF ++ "O"))
              Scenario.d1 Scenario.port1
              (mkPort ("028 V" ++ Scenario.LF ++ "O") "" false) (Some "")
              (MEAS_query 0) "028 V" "O"
              ltac:(vm_compute; reflexivity) eq_refl eq_refl
              ltac:(repeat split; discriminate)
              eq_refl)
    as (w' & E & _).
  unfold meas. change ("MEAS" ++ format_zero_padded 2 0 ++ "?" ++ String LF "")
    with (MEAS_query 0).
  now rewrite (bind_Raise _ _ _ _ _ E).
Defined.

(** X3: a first line that is not UTF-8 makes the transaction raise the
    decoding error, and costs the whole input buffer: the lines behind
    it, complete or not, are discarded unread. *)
Theorem undecodable_line_discards_the_buffer w self p port text cmd l rest :
  io w self = Some (p, port, text) ->
  write_times_out port = false ->
  rx port = l ++ String LF rest ->
  has_LF l = false ->
  utf8_valid l = false ->
  exists w',
    __transact self cmd w = (Raise (ValueError UnicodeDecodeError), w') /\
    io w' self = Some (p, left_with "" (sent cmd port), logged cmd text) /\
    same_objects w w' /\ slept w' = slept w + 200 /\ log w' = log w.
Proof.
  intros Hio Hw Hrx Hl Hu.
  apply (transact_first_read_fails _ _ _ _ _ _ _ Hio Hw).
  right. rewrite Hrx, (split_line_app _ _ Hl). cbn.
  rewrite ends_with_LF_app, but_last_app. now repeat split.
Qed.

Lemma undecodable_line_witness :
  let reply := String "255" Scenario.LF ++ "OK" ++ Scenario.LF in
  let w' := (version Scenario.d1 (Scenario.first_hears reply)).2 in
  (version Scenario.d1 (Scenario.first_hears reply)).1
  = Raise (ValueError UnicodeDecodeError) /\
  option_map (fun pp => rx pp.2) (port_of w' Scenario.d1) = Some "".
Proof.
  intros reply w'.
  destruct (undecodable_line_discards_the_buffer
              (Scenario.first_hears reply)
              Scenario.d1 Scenario.port1 (mkPort reply "" false) (Some "")
              ("VERS?" ++ String LF "") (String "255" "")
              ("OK" ++ Scenario.LF)
              ltac:(vm_compute; reflexivity) eq_refl eq_refl eq_refl eq_refl)
    as (w1 & E & I & _).
  subst w'. unfold version. rewrite E. split; [reflexivity|].
  cbn [snd]. unfold io in I.
  destruct (port_of w1 Scenario.d1) as [[q port]|]; [|discriminate].
  destruct (logfile_text w1 Scenario.d1); [|discriminate].
  now inversion I.
Defined.

#[local] Hint Resolve keeps_ret keeps_raise keeps_lift_result keeps_get
  keeps_with_ports keeps_with_files keeps_time_sleep keeps_logging
  keeps_getattr keeps_the_port keeps_port_write keeps_port_readline
  keeps_port_flushInput keeps_logfile_write keeps_readln keeps_transact
  : keeps.

Lemma keeps_version self : keeps_objects (version self).
Proof. unfold version. keeps. Qed.

Lemma keeps_meas self n : keeps_objects (meas self n).
Proof. unfold meas. keeps. Qed.

Lemma keeps_pwm_query self n : keeps_objects (pwm self n None).
Proof. unfold pwm. keeps. Qed.

(** X4: when the write times out, every public method of the device
    ends in [NameError]: the handler meant to report the timeout names a
    logger [log] that is bound nowhere.  Nothing has happened by then:
    no byte sent, no command logged, no pause. *)
Theorem write_timeout_surfaces_as_NameError w self p port :
  ready w self p port ->
  write_times_out port = true ->
  version self w = (Raise (NameError "log"), w) /\
  (forall n, meas self n w = (Raise (NameError "log"), w)) /\
  (forall n x, pwm self n x w = (Raise (NameError "log"), w)).
Proof.
  intros Hr Hw.
  pose proof (fun cmd => transact_write_times_out _ _ _ _ cmd Hr Hw) as E.
  split; [apply E|]. split.
  - intros n. unfold meas. now rewrite (bind_Raise _ _ _ _ _ (E _)).
  - intros n [x|]; unfold pwm.
    + apply bind_Raise. now rewrite (bind_Raise _ _ _ _ _ (E _)).
    + now rewrite (bind_Raise _ _ _ _ _ (E _)).
Qed.

Lemma write_timeout_witness :
  (pwm 2%positive 1 (Some 5) jammed).1 = Raise (NameError "log") /\
  command_log (pwm 2%positive 1 (Some 5) jammed).2 2%positive = Some [].
Proof.
  destruct (write_timeout_surfaces_as_NameError jammed 2%positive 3%positive
              (mkPort "" "" true)
              ltac:(split; vm_compute; reflexivity) eq_refl)
    as (_ & _ & E).
  rewrite (E 1 (Some 5)). split; vm_compute; reflexivity.
Defined.

(** X5: the queries [version()], [meas(n)] and [pwm(n)] never touch a
    command log, neither the caller's nor any other instance's, whatever
    the board answers and whether they return or raise. *)
Theorem queries_leave_every_command_log w self d :
  command_log (version self w).2 d = command_log w d /\
  (forall n, command_log (meas self n w).2 d = command_log w d) /\
  (forall n, command_log (pwm self n None w).2 d = command_log w d).
Proof.
  split; [|split]; intros; apply command_log_same_objects.
  - apply keeps_version.
  - apply keeps_meas.
  - apply keeps_pwm_query.
Qed.

Lemma transact_two_lines_io w self p port text cmd v second rest :
  io w self = Some (p, port, text) ->
  write_times_out port = false ->
  rx port = v ++ String LF (second ++ String LF rest) ->
  value_line v ->
  has_LF second = false ->
  utf8_valid second = true ->
  exists w',
    __transact self cmd w =
      (if String.eqb second "OK" then Ok v
       else Raise (ValueError Device_did_not_end_with_OK), w') /\
    io w' self =
      Some (p, left_with rest (sent cmd port),
            logged (cmd ++ v ++ String LF (second ++ String LF "")) text) /\
    calm w w'.
Proof.
  intros Hio Hw Hrx (Hl & Hu & Hok & Herr) Hl2 Hu2.
  destruct (transact_first_line_io _ _ _ _ _ cmd _ _ Hio Hw Hrx Hl Hu)
    as (w1 & I1 & C1 & ->).
  destruct (readln_io_line _ _ _ _ _ second rest I1 eq_refl Hl2 Hu2)
    as (w2 & E2 & I2 & C2).
  destruct (logfile_write_io _ _ _ _ _ (second ++ String LF "") I2)
    as (w3 & E3 & I3 & C3).
  exists w3. split; [|split].
  - unfold after_first_line.
    apply String.eqb_neq in Hok, Herr. rewrite Hok, Herr.
    rewrite (bind_Ok _ _ _ _ _ (reporting_Ok _ _ _ _ _ E2)).
    rewrite (bind_Ok _ _ _ _ _ (reporting_Ok _ _ _ _ _ E3)).
    now destruct (String.eqb second "OK").
  - rewrite I3. cbn [left_with sent rx tx write_times_out].
    rewrite !logged_app, !append_assoc. reflexivity.
  - eapply calm_trans; [exact C1|]. eapply calm_trans; eassumption.
Qed.

(** X6: a transaction answered with a value line and a second line
    sends exactly the command, takes exactly those two lines from the
    input buffer, leaving what follows for the next transaction, and
    appends command and reply to the log file; it neither sleeps nor
    writes a log record. *)
Theorem answered_transaction_io w self p port text cmd v second rest :
  io w self = Some (p, port, text) ->
  write_times_out port = false ->
  rx port = v ++ String LF (second ++ String LF rest) ->
  value_line v ->
  has_LF second = false ->
  utf8_valid second = true ->
  exists w',
    __transact self cmd w =
      (if String.eqb second "OK" then Ok v
       else Raise (ValueError Device_did_not_end_with_OK), w') /\
    io w' self =
      Some (p, left_with rest (sent cmd port),
            logged (cmd ++ v ++ String LF (second ++ String LF "")) text) /\
    calm w w'.
Proof. apply transact_two_lines_io. Qed.

Lemma answered_transaction_witness :
  let reply := "028 V" ++ Scenario.LF ++ "OK" ++ Scenario.LF ++ "stray" in
  let w' := (__transact Scenario.d1 (MEAS_query 0)
               (Scenario.first_hears reply)).2 in
  io w' Scenario.d1
  = Some (Scenario.port1, mkPort "stray" (MEAS_query 0) false,
          Some (MEAS_query 0 ++ "028 V" ++ Scenario.LF ++ "OK" ++ Scenario.LF)).
Proof.
  intros reply w'.
  destruct (answered_transaction_io (Scenario.first_hears reply)
              Scenario.d1 Scenario.port1 (mkPort reply "" false) (Some "")
              (MEAS_query 0) "028 V" "OK" "stray"
              ltac:(vm_compute; reflexivity) eq_refl eq_refl
              ltac:(repeat split; discriminate) eq_refl eq_refl)
    as (w1 & E & I & _).
  subst w'. rewrite E. cbn [snd]. rewrite I. reflexivity.
Defined.

(** X7: a one-line reply, [OK] or [ERROR], is accounted for in the same
    way: the command sent, that one line consumed and both copied to the
    log file, no pause and no log record, also when the transaction
    raises for [ERROR]. *)
Theorem status_reply_io w self p port text cmd l rest :
  io w self = Some (p, port, text) ->
  write_times_out port = false ->
  rx port = l ++ String LF rest ->
  l = "OK" \/ l = "ERROR" ->
  exists w',
    __transact self cmd w =
      (if String.eqb l "OK" then Ok "OK"
       else Raise (ValueError Device_replied_ERROR), w') /\
    io w' self = Some (p, left_with rest (sent cmd port),
                       logged (cmd ++ l ++ String LF "") text) /\
    calm w w'.
Proof.
  intros Hio Hw Hrx Hl.
  assert (has_LF l = false /\ utf8_valid l = true) as [Hl1 Hl2]
    by (destruct Hl as [->| ->]; now split).
  destruct (transact_first_line_io _ _ _ _ _ cmd _ _ Hio Hw Hrx Hl1 Hl2)
    as (w1 & I1 & C1 & ->).
  exists w1. split; [|split; [|exact C1]].
  - destruct Hl as [->| ->]; reflexivity.
  - rewrite I1, logged_app. reflexivity.
Qed.

Lemma status_reply_witness :
  let reply := "ERROR" ++ Scenario.LF in
  let r := pwm Scenario.d1 7 None (Scenario.first_hears reply) in
  r.1 = Raise (ValueError Device_replied_ERROR) /\
  logfile_text r.2 Scenario.d1
  = Some (Some ("PWM7?" ++ Scenario.LF ++ "ERROR" ++ Scenario.LF)).
Proof.
  intros reply r.
  destruct (status_reply_io (Scenario.first_hears reply)
              Scenario.d1 Scenario.port1 (mkPort reply "" false) (Some "")
              ("PWM7?" ++ Scenario.LF) "ERROR" ""
              ltac:(vm_compute; reflexivity) eq_refl eq_refl
              ltac:(right; reflexivity))
    as (w1 & E & I & _).
  assert (Hr : r = (Raise (ValueError Device_replied_ERROR), w1)).
  { subst r. unfold pwm. apply bind_Raise. exact E. }
  rewrite Hr. split; [reflexivity|]. cbn [snd].
  unfold io in I. destruct (port_of w1 Scenario.d1) as [[q pt]|]; [|discriminate].
  destruct (logfile_text w1 Scenario.d1); [|discriminate].
  now inversion I.
Defined.

Lemma io_with_lists w self f : io (with_lists f w) self = io w self.
Proof. reflexivity. Qed.

Lemma command_log_with_ports w self f :
  command_log (with_ports f w) self = command_log w self.
Proof. reflexivity. Qed.

Lemma line_delivers_io w self p port text reply :
  io w self = Some (p, port, text) ->
  io (line_delivers p reply w) self
  = Some (p, mkPort (rx port ++ reply) (tx port) (write_times_out port), text).
Proof.
  unfold io, port_of, logfile_text, line_delivers, attr. cbn.
  destruct (instances w !! self) as [d|]; [|discriminate].
  destruct (lookup_attr d (Device_dict w) "port") as [[| |q|]|]; try discriminate.
  destruct (ports w !! q) as [pt|] eqn:E; [|discriminate].
  destruct (lookup_attr d (Device_dict w) "logfile") as [[| | |f]|];
    try discriminate.
  - intros H. inversion H; subst. rewrite lookup_alter_eq, E. reflexivity.
  - destruct (files w !! f); [|discriminate].
    intros H. inversion H; subst. rewrite lookup_alter_eq, E. reflexivity.
Qed.

(** One accepted set command, on a line with nothing pending. *)
Lemma pwm_set_step w self p port text items n x v :
  io w self = Some (p, port, text) ->
  rx port = "" ->
  write_times_out port = false ->
  command_log w self = Some items ->
  value_line v ->
  let w' := (pwm self n (Some x)
               (line_delivers p (v ++ String LF ("OK" ++ String LF "")) w)).2 in
  exists port' text',
    io w' self = Some (p, port', text') /\
    rx port' = "" /\ write_times_out port' = false /\
    command_log w' self = Some (items ++ [PWM_set n x])%list.
Proof.
  intros Hio Hrx Hw Hlog Hv w'.
  pose proof (line_delivers_io _ _ _ _ _ (v ++ String LF ("OK" ++ String LF ""))
                Hio) as Hio1.
  rewrite Hrx in Hio1.
  destruct (transact_two_lines_io _ _ _ _ _ (PWM_set n x) v "OK" ""
              Hio1 Hw eq_refl Hv eq_refl eq_refl)
    as (w2 & E & I2 & C2).
  assert (Hlog1 : command_log
                    (line_delivers p (v ++ String LF ("OK" ++ String LF "")) w)
                    self = Some items) by exact Hlog.
  destruct (pwm_set_accepted _ _ n x _ _ _ Hlog1 E) as (l & Ha & Hl & Hrun).
  subst w'. rewrite Hrun. cbn [snd].
  eexists _, _. split; [rewrite io_with_lists; exact I2|].
  split; [reflexivity|]. split; [exact Hw|].
  eapply command_log_with_lists; eassumption.
Qed.

Lemma set_all_log self p sets :
  forall w port text items,
    io w self = Some (p, port, text) ->
    rx port = "" ->
    write_times_out port = false ->
    command_log w self = Some items ->
    Forall (fun s => value_line s.2) sets ->
    command_log (set_all self p sets w) self
    = Some (items ++ map (fun s => PWM_set s.1.1 s.1.2) sets)%list.
Proof.
  induction sets as [|[[n x] v] sets IH]; intros w port text items
    Hio Hrx Hw Hlog Hall.
  - cbn. now rewrite app_nil_r.
  - inversion Hall as [|? ? Hv Hrest]; subst. cbn in Hv.
    destruct (pwm_set_step _ _ _ _ _ _ n x v Hio Hrx Hw Hlog Hv)
      as (port' & text' & I & R & W & L).
    cbn [set_all]. rewrite (IH _ _ _ _ I R W L Hrest).
    cbn [map fst snd]. now rewrite <- app_assoc.
Qed.

(** X8: set commands the board accepted one after the other are what
    [commands()] hands out next: all of them, oldest first, together
    with what the log held before; and once handed out they are gone,
    a second [commands()] returns the empty string. *)
Theorem commands_reports_accepted_sets_in_order w self p port text items sets :
  io w self = Some (p, port, text) ->
  rx port = "" ->
  write_times_out port = false ->
  command_log w self = Some items ->
  Forall (fun s => value_line s.2) sets ->
  let r := commands self (set_all self p sets w) in
  r.1 = Ok (replace LF " "
              (join "," (items ++ map (fun s => PWM_set s.1.1 s.1.2) sets))) /\
  (commands self r.2).1 = Ok "".
Proof.
  intros Hio Hrx Hw Hlog Hall r.
  pose proof (set_all_log _ _ _ _ _ _ _ Hio Hrx Hw Hlog Hall) as L.
  destruct (command_log_inv _ _ _ L) as (l & Ha & Hl).
  assert (Hr : r = (Ok (replace LF " "
              (join "," (items ++ map (fun s => PWM_set s.1.1 s.1.2) sets))),
              with_lists (insert l []) (set_all self p sets w))).
  { subst r. unfold commands.
    rewrite (bind_Ok _ _ _ _ _ (the_cmds_run _ _ _ _ _ Ha Hl)). reflexivity. }
  rewrite Hr. split; [reflexivity|]. cbn [snd].
  assert (L' : command_log (with_lists (insert l []) (set_all self p sets w))
                 self = Some []) by (eapply command_log_with_lists; eassumption).
  destruct (command_log_inv _ _ _ L') as (l' & Ha' & Hl').
  unfold commands.
  rewrite (bind_Ok _ _ _ _ _ (the_cmds_run _ _ _ _ _ Ha' Hl')). reflexivity.
Qed.

Lemma commands_reports_witness :
  (commands Scenario.d1
     (set_all Scenario.d1 Scenario.port1
        [(1, 5, "005"); (2, 10, "010"); (1, 0, "000")]
        Scenario.two_devices)).1
  = Ok "PWM1S005 ,PWM2S010 ,PWM1S000 ".
Proof.
  destruct (commands_reports_accepted_sets_in_order Scenario.two_devices
              Scenario.d1 Scenario.port1 (mkPort "" "" false) (Some "") []
              [(1, 5, "005"); (2, 10, "010"); (1, 0, "000")]
              ltac:(vm_compute; reflexivity) eq_refl eq_refl
              ltac:(vm_compute; reflexivity)
              ltac:(repeat constructor; discriminate))
    as [E _].
  rewrite E. vm_compute. reflexivity.
Defined.

Lemma io_inv w self p port text :
  io w self = Some (p, port, text) ->
  exists d,
    instances w !! self = Some d /\
    lookup_attr d (Device_dict w) "port" = Some (VPort p) /\
    ports w !! p = Some port.
Proof.
  unfold io, port_of, attr.
  destruct (instances w !! self) as [d|]; [|discriminate].
  destruct (lookup_attr d (Device_dict w) "port") as [[| |q|]|] eqn:Ea;
    try discriminate.
  destruct (ports w !! q) as [pt|] eqn:E; [|discriminate].
  destruct (logfile_text w self); [|discriminate].
  intros H. inversion H; subst. now exists d.
Qed.

(** X9: the constructor yields a connection that is ready for
    transactions: its own port with nothing pending on input (what had
    arrived before is flushed), nothing sent yet, and the log file, when
    one was asked for, empty.  It neither sleeps nor logs. *)
Theorem init_opens_a_flushed_connection line lg w :
  Device_dict w !! "logfile" = Some VNone ->
  exists w',
    __init__ line lg w = (Ok (next_id w), w') /\
    io w' (next_id w)
    = Some (Pos.succ (next_id w), left_with "" line,
            if lg then Some "" else None) /\
    slept w' = slept w /\ log w' = log w.
Proof.
  intros Hcls.
  set (self := next_id w). set (p := Pos.succ self).
  set (w1 := mkWorld (lists w) (<[p := line]> (ports w)) (files w)
               (<[self := <["port" := VPort p]> ∅]>
                  (<[self := ∅]> (instances w)))
               (Device_dict w) (slept w) (log w) (Pos.succ p)).
  assert (I1 : io w1 self = Some (p, line, None)).
  { unfold io, port_of, logfile_text, attr, lookup_attr. cbn.
    rewrite !lookup_insert_eq. cbn. rewrite ?lookup_insert_eq.
    rewrite ?lookup_insert_ne by discriminate. rewrite ?lookup_empty.
    now rewrite Hcls. }
  destruct (port_flushInput_io _ _ _ _ _ I1)
    as (w2 & E2 & I2 & (_ & Hi2 & _) & S2 & L2).
  assert (Hrun : __init__ line lg w
                 = ((if lg then
                       (let* f := new_id in
                        modify (with_files (insert f "")) ;;;
                        setattr self "logfile" (VFile f))
                     else ret tt) ;;; ret self)%py w2).
  { unfold __init__, new_id.
    repeat first [progress cbn [bind fst snd]
                 | progress unfold bind at 1, modify, setattr; cbn ].
    rewrite lookup_insert_eq. fold self p.
    change (with_instances _ (with_ports _ (with_instances _ _))) with w1.
    rewrite E2. reflexivity. }
  rewrite Hrun. clear Hrun.
  destruct lg.
  - destruct (io_inv _ _ _ _ _ I2) as (d & Hd & Hport & Hp).
    unfold bind at 1. unfold bind at 1. unfold new_id.
    unfold bind at 1. unfold modify. unfold setattr. cbn.
    rewrite Hd. cbn.
    eexists. split; [reflexivity|]. split; [|split; assumption].
    unfold io, port_of, logfile_text, attr. cbn.
    rewrite lookup_insert_eq.
    assert (Hp' : lookup_attr (<["logfile" := VFile (next_id w2)]> d)
                    (Device_dict w2) "port" = Some (VPort p)).
    { unfold lookup_attr in *. now rewrite lookup_insert_ne by discriminate. }
    rewrite Hp', Hp.
    unfold lookup_attr. rewrite lookup_insert_eq. now rewrite lookup_insert_eq.
  - exists w2. split; [reflexivity|]. split; [exact I2|]. split; assumption.
Qed.

Lemma init_opens_witness :
  let line := mkPort ("stale" ++ Scenario.LF) "" false in
  (__init__ line true Scenario.two_devices).1 = Ok 7%positive /\
  io (__init__ line true Scenario.two_devices).2 7%positive
  = Some (8%positive, mkPort "" "" false, Some "").
Proof.
  intros line.
  destruct (init_opens_a_flushed_connection line true Scenario.two_devices
              ltac:(vm_compute; reflexivity))
    as (w' & E & I & _).
  rewrite E. cbn [fst snd]. split; [vm_compute; reflexivity|].
  replace 7%positive with (next_id Scenario.two_devices)
    by (vm_compute; reflexivity).
  rewrite I. vm_compute. reflexivity.
Defined.

End DeviceMore.

(** ** IntervalScheduler, in a loop *)
Module SchedulerMore.
Import IntervalScheduler SchedulerRuns SchedulerFacts.
Local Open Scope py_scope.

(** [next] on integer time. *)
Lemma next_on_integers (s : State Z) h hi m mi :
  scheduled s h hi m mi ->
  let now := clock s in
  let fire_h := h <? now + time_window (self s) in
  let fire_m := m <? now + time_window (self s) in
  next s =
    (Ok (Z.lor (if fire_h then 1 else 0) (if fire_m then 2 else 0)),
     mkState (Z.max now (Z.min h m))
       (mkScheduler
          (if fire_h then <["NEXTEVENT" := h + hi]> (Heartbeat (self s))
           else Heartbeat (self s))
          (if fire_m then <["NEXTEVENT" := m + mi]> (Measurement (self s))
           else Measurement (self s))
          (time_window (self s)))).
Proof.
  intros (Hh & Hhi & Hm & Hmi) now fire_h fire_m.
  rewrite (next_unfolded s h hi m mi) by assumption.
  subst now fire_h fire_m.
  unfold num_min. cbn [num_lt num_add num_sub num_zero int_Number].
  f_equal. f_equal.
  destruct (Z.ltb_spec m h);
    match goal with
    | |- context [0 <? ?d] => destruct (Z.ltb_spec 0 d)
    end; lia.
Qed.

Lemma scheduled_after_next (s : State Z) h hi m mi :
  scheduled s h hi m mi ->
  let fire_h := h <? clock s + time_window (self s) in
  let fire_m := m <? clock s + time_window (self s) in
  exists ev s',
    next s = (Ok ev, s') /\
    has_flag HEARTBEAT ev = fire_h /\
    has_flag MEASUREMENT ev = fire_m /\
    clock s' = Z.max (clock s) (Z.min h m) /\
    time_window (self s') = time_window (self s) /\
    scheduled s' (if fire_h then h + hi else h) hi
                 (if fire_m then m + mi else m) mi.
Proof.
  intros Hs fire_h fire_m.
  rewrite (next_on_integers s h hi m mi Hs).
  destruct Hs as (Hh & Hhi & Hm & Hmi).
  fold fire_h fire_m.
  eexists _, _. split; [reflexivity|].
  split; [now destruct fire_h, fire_m|].
  split; [now destruct fire_h, fire_m|].
  split; [reflexivity|]. split; [reflexivity|].
  unfold scheduled. cbn [self Heartbeat Measurement].
  destruct fire_h, fire_m;
    rewrite ?lookup_insert_eq, ?lookup_insert_ne by discriminate;
    now repeat split.
Qed.

Lemma reported_cons flag ev evs :
  reported flag (ev :: evs)
  = (if has_flag flag ev then 1 else 0) + reported flag evs.
Proof.
  unfold reported. rewrite filter_cons.
  destruct (decide (has_flag flag ev = true)) as [E|E].
  - rewrite E. cbn [length]. lia.
  - apply not_true_is_false in E. rewrite E. lia.
Qed.





Lemma burst n :
  forall (s : State Z) h hi m mi,
    scheduled s h hi m mi ->
    0 < time_window (self s) ->
    0 <= hi ->
    (n = 0%nat \/ h + (Z.of_nat n - 1) * hi <= clock s) ->
    exists evs s',
      calls (repeat 0 n) s = (Ok evs, s') /\
      length evs = n /\
      Forall (fun ev => has_flag HEARTBEAT ev = true) evs /\
      clock s' = clock s /\
      time_window (self s') = time_window (self s) /\
      Heartbeat (self s') !! "NEXTEVENT" = Some (h + Z.of_nat n * hi).
Proof.
  induction n as [|n IH]; intros s h hi m mi Hs Htw Hhi Hlate.
  - exists [], s. split; [reflexivity|]. split; [reflexivity|].
    split; [constructor|]. split; [reflexivity|]. split; [reflexivity|].
    destruct Hs as (Hh & _). rewrite Hh. f_equal. lia.
  - destruct Hlate as [?|Hlate]; [discriminate|].
    set (s1 := mkState (clock s + 0) (self s)).
    assert (Hs1 : scheduled s1 h hi m mi) by exact Hs.
    destruct (scheduled_after_next s1 h hi m mi Hs1)
      as (ev & s2 & E2 & Fh & _ & C2 & W2 & Hs2).
    change (clock s1) with (clock s + 0) in *.
    change (time_window (self s1)) with (time_window (self s)) in *.
    assert (Hfire : (h <? clock s + 0 + time_window (self s)) = true)
      by (apply Z.ltb_lt; nia).
    rewrite Hfire in *.
    assert (C2' : clock s2 = clock s) by nia.
    destruct (IH s2 _ hi _ mi Hs2 ltac:(now rewrite W2) Hhi
                ltac:(destruct n; [now left|right; rewrite C2'; nia]))
      as (evs & s3 & E3 & L3 & F3 & C3 & W3 & H3).
    exists (ev :: evs), s3.
    split; [|split; [|split; [|split; [|split]]]].
    + cbn [repeat calls]. unfold time_sleep, modify.
      erewrite bind_Ok by reflexivity. cbn [num_add int_Number]. fold s1.
      rewrite (bind_Ok _ _ _ _ _ E2), (bind_Ok _ _ _ _ _ E3). reflexivity.
    + cbn [length]. now rewrite L3.
    + constructor; assumption.
    + now rewrite C3.
    + now rewrite W3, W2.
    + rewrite H3. f_equal. lia.
Qed.





Section Restart.
Context {time : Type} `{Number time}.

(** X13: [restart()] forgets when the scheduler was made: restarting at
    clock reading [t] a scheduler constructed at any earlier reading
    gives exactly the scheduler constructed at [t].  This holds for
    whatever numbers the scheduler runs on. *)
Theorem restart_is_construction_anew (heartbeat measurement window t0 t : time) :
  restart (mkState t (self (__init__ heartbeat measurement window t0)))
  = (Ok tt, __init__ heartbeat measurement window t).
Proof.
  unfold restart, __init__, bind, time_time, get_Heartbeat, get_Measurement,
    operand, set_Heartbeat, set_Measurement, modify, get, ret.
  cbn [clock self Heartbeat Measurement time_window fst snd].
  rewrite !lookup_insert_ne by discriminate.
  rewrite !lookup_insert_eq.
  cbn [clock self Heartbeat Measurement time_window fst snd].
  rewrite !lookup_insert_ne by discriminate.
  rewrite !lookup_insert_eq.
  cbn [clock self Heartbeat Measurement time_window fst snd].
  now rewrite !insert_insert_eq.
Qed.

End Restart.

End SchedulerMore.

(** ** KeyboardInput, a whole pass *)
Module KeyboardMore.
Import KeyboardInput KeyboardPass KeyboardFacts.
Local Open Scope py_scope.

Lemma foldl_insert_lookup (l : list (string * string)) :
  forall (m : gmap string string) s key,
    foldl (fun m e => <[e.1 := e.2]> m) m l !! s = Some key ->
    In (s, key) l \/ m !! s = Some key.
Proof.
  induction l as [|[a b] l IH]; intros m s key H; cbn in *; [now right|].
  destruct (IH _ _ _ H) as [Hin|Hm]; [left; now right|].
  destruct (decide (a = s)) as [->|Hne].
  - rewrite lookup_insert_eq in Hm. inversion Hm; subst. left; now left.
  - rewrite lookup_insert_ne in Hm by exact Hne. now right.
Qed.

Lemma translate_lookup_In s key :
  translate !! s = Some key -> In (s, key) translate_entries.
Proof.
  intros H. destruct (foldl_insert_lookup _ _ _ _ H) as [Hin|He];
    [exact Hin|]. now rewrite lookup_empty in He.
Qed.

Lemma entries_begin_special :
  forallb (fun e => match e.1 with
                    | String c _ => special c
                    | EmptyString => false
                    end) translate_entries = true.
Proof. vm_compute. reflexivity. Qed.

Lemma entries_are_names :
  forallb (fun e => (2 <=? str_len e.2)%nat) translate_entries = true.
Proof. vm_compute. reflexivity. Qed.

Lemma plain_is_no_key c r :
  special c = false -> translate !! String c r = None.
Proof.
  intros Hc. destruct (translate !! String c r) as [key|] eqn:E; [|reflexivity].
  apply translate_lookup_In in E.
  pose proof entries_begin_special as H.
  rewrite forallb_forall in H. specialize (H _ E). cbn in H. congruence.
Qed.

Lemma translated_is_token s key : translate !! s = Some key -> token key.
Proof.
  intros E. apply translate_lookup_In in E. right. split; [|now exists s].
  pose proof entries_are_names as H.
  rewrite forallb_forall in H. specialize (H _ E). cbn [fst snd] in H.
  now apply Nat.leb_le in H.
Qed.

Lemma next_translated k bytes key :
  chunk k = Some bytes ->
  translate !! bytes = Some key ->
  __next__ k = (Ok key, mkKeyboard None (raw k)).
Proof.
  destruct k as [ch r]. cbn [chunk raw]. intros -> E.
  unfold __next__, bind, get. cbn [chunk]. now rewrite E.
Qed.

Lemma next_unknown_escape k rest :
  chunk k = Some (String ESC rest) ->
  translate !! String ESC rest = None ->
  __next__ k = (Raise StopIteration, mkKeyboard (Some (String ESC rest)) "").
Proof.
  destruct k as [ch r]. cbn [chunk raw]. intros -> E.
  unfold __next__, bind, get. cbn [chunk]. rewrite E.
  cbn [bytes_take]. unfold byte. rewrite String.eqb_refl.
  pose proof (drain_drains (mkKeyboard (Some (String ESC rest)) r)) as Hd.
  cbn [chunk] in Hd. now rewrite Hd.
Qed.

Lemma next_one_byte k c rest :
  chunk k = Some (String c rest) ->
  translate !! String c rest = None ->
  c <> ESC ->
  __next__ k =
    (Ok (key_of_byte c),
     match rest with
     | String _ _ => mkKeyboard (Some rest) (raw k)
     | EmptyString =>
         match raw k with
         | EmptyString => mkKeyboard None ""
         | String _ _ =>
             mkKeyboard (Some (bytes_take 5 (raw k))) (bytes_drop 5 (raw k))
         end
     end).
Proof.
  destruct k as [ch r]. cbn [chunk raw]. intros -> E Hc.
  unfold __next__, bind, get. cbn [chunk]. rewrite E.
  cbn [bytes_take bytes_drop].
  assert (Hne : String.eqb (String c "") (byte ESC) = false).
  { apply String.eqb_neq. intros E'. apply Hc. now inversion E'. }
  rewrite Hne.
  unfold decode_utf8. rewrite utf8_valid_one_byte. fold (byte c).
  destruct rest as [|c' rest'].
  - destruct r as [|a r'];
      destruct (byte_in 0 127 c) eqn:Eb; unfold key_of_byte; rewrite Eb;
      reflexivity.
  - destruct (byte_in 0 127 c) eqn:Eb; unfold key_of_byte; rewrite Eb;
      reflexivity.
Qed.

Lemma take_drop_length n b :
  (String.length (bytes_take n b) + String.length (bytes_drop n b)
   = String.length b)%nat.
Proof.
  revert b. induction n as [|n IH]; intros [|c b]; cbn; try reflexivity.
  now rewrite IH.
Qed.

Lemma take_drop_app n b : bytes_take n b ++ bytes_drop n b = b.
Proof.
  revert b. induction n as [|n IH]; intros [|c b]; try reflexivity.
  cbn [bytes_take bytes_drop].
  change (String c (bytes_take n b ++ bytes_drop n b) = String c b).
  now rewrite IH.
Qed.

Lemma nexts_stop fuel k e :
  __next__ k = (Raise StopIteration, e) ->
  nexts (S fuel) k = (Ok (Some []), e).
Proof.
  intros E. cbn [nexts].
  rewrite (bind_Ok _ _ _ None e); [reflexivity|].
  rewrite (try_except_Raise _ _ _ StopIteration e); [reflexivity|].
  now rewrite (bind_Raise _ _ _ _ _ E).
Qed.

Lemma nexts_key fuel k key k' :
  __next__ k = (Ok key, k') ->
  nexts (S fuel) k
  = (let* rest := nexts fuel in ret (option_map (cons key) rest))%py k'.
Proof.
  intros E. cbn [nexts].
  rewrite (bind_Ok _ _ _ (Some key) k'); [reflexivity|].
  apply try_except_Ok. now rewrite (bind_Ok _ _ _ _ _ E).
Qed.

Lemma nexts_ends fuel :
  forall k,
    chunk_ok k ->
    (pending k < fuel)%nat ->
    exists keys k',
      nexts fuel k = (Ok (Some keys), k') /\
      (length keys <= pending k)%nat /\
      Forall token keys /\
      chunk_ok k'.
Proof.
  induction fuel as [|fuel IH]; intros k Hok Hfuel; [lia|].
  destruct k as [[c|] r]; unfold pending in Hfuel |- *;
    cbn [chunk raw] in Hfuel |- *.
  2:{ exists [], (mkKeyboard None r). split; [|split; [cbn; lia|split]].
      - apply nexts_stop. reflexivity.
      - constructor.
      - exact Hok. }
  destruct c as [|a rest]; [now elim Hok|].
  destruct (translate !! String a rest) as [key|] eqn:E.
  - (* a key of the table *)
    rewrite (nexts_key _ _ _ _
               (next_translated (mkKeyboard (Some (String a rest)) r)
                  _ _ eq_refl E)).
    cbn [raw].
    destruct (IH (mkKeyboard None r) ltac:(discriminate)
                ltac:(cbn in *; lia))
      as (keys & k' & E' & L & F & Hok').
    rewrite (bind_Ok _ _ _ _ _ E'). cbn [option_map].
    exists (key :: keys), k'. split; [reflexivity|].
    split; [cbn in *; lia|]. split; [|exact Hok'].
    constructor; [eapply translated_is_token; exact E|exact F].
  - destruct (Ascii.eqb_spec a ESC) as [->|Hne].
    + (* an escape sequence nobody knows *)
      exists [], (mkKeyboard (Some (String ESC rest)) "").
      split; [|split; [cbn; lia|split; [constructor|discriminate]]].
      apply nexts_stop. now apply next_unknown_escape.
    + (* one byte *)
      rewrite (nexts_key _ _ _ _
                 (next_one_byte (mkKeyboard (Some (String a rest)) r)
                    _ _ eq_refl E Hne)).
      cbn [raw].
      match goal with
      | |- context [bind _ _ ?k1] => set (k' := k1)
      end.
      assert (chunk_ok k' /\ (pending k' < fuel)%nat) as [Hok1 Hp1].
      { subst k'. unfold chunk_ok, pending.
        destruct rest as [|b rest']; [destruct r as [|b r']|];
          cbn [chunk raw].
        - split; [discriminate|cbn in *; lia].
        - split; [discriminate|].
          pose proof (take_drop_length 5 (String b r')).
          cbn [String.length] in *. lia.
        - split; [discriminate|cbn [String.length] in *; lia]. }
      destruct (IH k' Hok1 Hp1) as (keys & k'' & E' & L & F & Hok'').
      rewrite (bind_Ok _ _ _ _ _ E'). cbn [option_map].
      exists (key_of_byte a :: keys), k''. split; [reflexivity|].
      split.
      { assert (pending k' < String.length (String a rest) + String.length r)%nat.
        { subst k'. unfold pending.
          destruct rest as [|b rest']; [destruct r as [|b r']|];
            cbn [chunk raw].
          - cbn; lia.
          - pose proof (take_drop_length 5 (String b r')).
            cbn [String.length] in *. lia.
          - cbn [String.length]. lia. }
        cbn [length]. lia. }
      split; [|exact Hok''].
      constructor; [left; apply key_of_byte_single|exact F].
Qed.

Lemma iter_run k :
  exists k',
    __iter__ k = (Ok tt, k') /\
    chunk_ok k' /\
    pending k' = String.length (raw k) /\
    match chunk k' with
    | Some c => c ++ raw k' = raw k
    | None => raw k = "" /\ raw k' = ""
    end.
Proof.
  destruct k as [ch [|a r]].
  - exists (mkKeyboard None ""). split; [reflexivity|].
    split; [discriminate|]. split; [reflexivity|]. now split.
  - exists (mkKeyboard (Some (bytes_take 5 (String a r)))
                       (bytes_drop 5 (String a r))).
    split; [reflexivity|]. split; [discriminate|].
    split; [apply take_drop_length|]. apply take_drop_app.
Qed.


Lemma special_not_ESC a : special a = false -> a <> ESC.
Proof. intros H ->. discriminate. Qed.

Lemma nexts_plain fuel :
  forall c r,
    c <> "" ->
    plain (c ++ r) = true ->
    (String.length c + String.length r < fuel)%nat ->
    nexts fuel (mkKeyboard (Some c) r)
    = (Ok (Some (keys_of_bytes (c ++ r))), mkKeyboard None "").
Proof.
  induction fuel as [|fuel IH]; intros c r Hc Hp Hfuel; [lia|].
  destruct c as [|a rest]; [now elim Hc|].
  change (String a rest ++ r) with (String a (rest ++ r)) in *.
  cbn [plain keys_of_bytes] in *.
  apply andb_true_iff in Hp as [Ha Hp]. apply negb_true_iff in Ha.
  rewrite (nexts_key _ _ _ _
             (next_one_byte (mkKeyboard (Some (String a rest)) r) _ _
                eq_refl (plain_is_no_key _ _ Ha) (special_not_ESC _ Ha))).
  cbn [raw].
  destruct rest as [|b rest']; [destruct r as [|b r']|].
  - destruct fuel as [|fuel']; [cbn in Hfuel; lia|].
    rewrite (bind_Ok _ _ _ _ _
               (nexts_stop fuel' (mkKeyboard None "") _ eq_refl)).
    reflexivity.
  - pose proof (take_drop_length 5 (String b r')) as Hl.
    pose proof (take_drop_app 5 (String b r')) as Ha'.
    rewrite (bind_Ok _ _ _ _ _
               (IH (bytes_take 5 (String b r')) (bytes_drop 5 (String b r'))
                  ltac:(discriminate)
                  ltac:(rewrite Ha'; exact Hp)
                  ltac:(cbn [String.length] in *; lia))).
    rewrite Ha'. reflexivity.
  - rewrite (bind_Ok _ _ _ _ _
               (IH (String b rest') r ltac:(discriminate) Hp
                  ltac:(cbn [String.length] in *; lia))).
    reflexivity.
Qed.

(** X15: plain typing comes through byte by byte.  When none of the
    bytes the terminal has ready is ESC, DEL (127), LF, CR or TAB, one
    pass hands out one key per byte, in order (the byte as a character,
    or [?] for a byte above 127), however many look-aheads of five bytes
    it takes, and leaves nothing behind. *)
Theorem plain_typing_comes_through k :
  plain (raw k) = true ->
  for_keys (String.length (raw k) + 1) k
  = (Ok (Some (keys_of_bytes (raw k))), mkKeyboard None "").
Proof.
  intros Hp. destruct k as [ch [|a r]].
  - reflexivity.
  - unfold for_keys.
    erewrite bind_Ok by reflexivity.
    cbn [raw] in *.
    pose proof (take_drop_length 5 (String a r)) as Hl.
    pose proof (take_drop_app 5 (String a r)) as Ha.
    rewrite nexts_plain.
    + now rewrite Ha.
    + discriminate.
    + now rewrite Ha.
    + lia.
Qed.

Lemma plain_typing_witness :
  (for_keys 8 (mkKeyboard None "PWM 035")).1
  = Ok (Some ["P"; "W"; "M"; " "; "0"; "3"; "5"]).
Proof.
  pose proof (plain_typing_comes_through (mkKeyboard None "PWM 035") eq_refl)
    as H.
  change (for_keys 8 (mkKeyboard None "PWM 035")
          = (Ok (Some (keys_of_bytes "PWM 035")), mkKeyboard None "")) in H.
  rewrite H. reflexivity.
Defined.

Lemma take_all n b :
  (String.length b <= n)%nat -> bytes_take n b = b /\ bytes_drop n b = "".
Proof.
  revert b. induction n as [|n IH]; intros [|c b] H; cbn in *;
    try (split; reflexivity); try lia.
  destruct (IH b ltac:(lia)) as [-> ->]. now split.
Qed.

Lemma nexts_text_then_key fuel s key :
  translate !! s = Some key ->
  forall text,
    plain text = true ->
    (String.length text + 1 < fuel)%nat ->
    nexts fuel (mkKeyboard (Some (text ++ s)) "")
    = (Ok (Some (keys_of_bytes text ++ [key])%list), mkKeyboard None "").
Proof.
  intros E. revert fuel.
  assert (Hs : s <> "") by (intros ->; vm_compute in E; discriminate).
  intros fuel text. revert fuel.
  induction text as [|a t IH]; intros fuel Hp Hfuel.
  - destruct fuel as [|[|fuel]]; cbn in Hfuel; try lia.
    change ("" ++ s) with s.
    rewrite (nexts_key _ _ _ _
               (next_translated (mkKeyboard (Some s) "") _ _ eq_refl E)).
    rewrite (bind_Ok _ _ _ _ _
               (nexts_stop fuel (mkKeyboard None "") _ eq_refl)).
    reflexivity.
  - destruct fuel as [|fuel]; [lia|].
    change (String a t ++ s) with (String a (t ++ s)).
    cbn [plain keys_of_bytes] in *.
    apply andb_true_iff in Hp as [Ha Hp]. apply negb_true_iff in Ha.
    rewrite (nexts_key _ _ _ _
               (next_one_byte (mkKeyboard (Some (String a (t ++ s))) "") _ _
                  eq_refl (plain_is_no_key _ _ Ha) (special_not_ESC _ Ha))).
    assert (Hne : t ++ s <> "") by (destruct t; [exact Hs|discriminate]).
    specialize (IH fuel Hp ltac:(cbn in Hfuel; lia)).
    cbn [raw].
    set (rest := t ++ s) in *. clearbody rest.
    destruct rest as [|b u]; [now elim Hne|].
    rewrite (bind_Ok _ _ _ _ _ IH). reflexivity.
Qed.

(** X16: a key of the table typed right after some plain characters is
    recognised when all of it arrived in one look-ahead of five bytes:
    the pass hands out the characters one by one and then the key's
    name, and nothing is left behind. *)
Theorem key_after_text_is_recognised k text s key :
  raw k = text ++ s ->
  plain text = true ->
  translate !! s = Some key ->
  (String.length (raw k) <= 5)%nat ->
  for_keys (String.length text + 2) k
  = (Ok (Some (keys_of_bytes text ++ [key])%list), mkKeyboard None "").
Proof.
  intros Hraw Hp E Hlen.
  assert (Hs : s <> "") by (intros ->; vm_compute in E; discriminate).
  destruct k as [ch r]. cbn [raw] in *.
  destruct (take_all 5 r Hlen) as [Ht Hd].
  assert (Hiter : __iter__ (mkKeyboard ch r)
                  = (Ok tt, mkKeyboard (Some (text ++ s)) "")).
  { unfold __iter__, bind, raw_read, set_chunk, modify. cbn [raw chunk].
    destruct r as [|a r'].
    - destruct text as [|b t'].
      + change ("" = s) in Hraw. now elim Hs.
      + change ("" = String b (t' ++ s)) in Hraw. discriminate.
    - rewrite Ht, Hd, Hraw. reflexivity. }
  unfold for_keys. rewrite (bind_Ok _ _ _ _ _ Hiter).
  apply nexts_text_then_key; [exact E|exact Hp|lia].
Qed.

Lemma key_after_text_witness :
  (for_keys 4 (mkKeyboard None ("35" ++ byte "010"))).1
  = Ok (Some ["3"; "5"; "ENTER"]).
Proof.
  pose proof (key_after_text_is_recognised
                (mkKeyboard None ("35" ++ byte "010")) "35" (byte "010")
                "ENTER" eq_refl eq_refl ltac:(vm_compute; reflexivity)
                ltac:(vm_compute; lia)) as H.
  change (String.length "35" + 2)%nat with 4%nat in H.
  rewrite H. reflexivity.
Defined.

End KeyboardMore.

(** ** InputConsumer, a whole entry *)
Module ConsumerMore.
Import KeyboardInput ConsumerSessions.

Lemma append_empty_r (a : string) : a ++ "" = a.
Proof.
  induction a as [|x a IH]; [reflexivity|].
  change (String x (a ++ "") = String x a). now rewrite IH.
Qed.

Lemma single_is_no_name key :
  str_len key = 1%nat ->
  key <> "ESC" /\ key <> "DEL" /\ key <> "BACKSPACE" /\ key <> "ENTER".
Proof. intros H. repeat split; intros ->; discriminate. Qed.

Lemma typing_one c key :
  active c = true ->
  str_len key = 1%nat ->
  key <> trigger c ->
  process_input key c
  = (true, mkInputConsumer (trigger c) true (buffer c ++ key) (value c)
             (printed c ++ [(trigger c ++ " " ++ buffer c ++ key)%string])%list).
Proof.
  intros Ha Hk Hne.
  destruct (single_is_no_name _ Hk) as (H1 & H2 & H3 & H4).
  apply String.eqb_neq in Hne, H1, H2, H3, H4.
  unfold process_input. rewrite Ha, Hne, H1, H2, H3, H4. cbn [negb orb].
  rewrite Hk. reflexivity.
Qed.

Lemma typing_all keys :
  forall c,
    active c = true ->
    Forall (fun key => str_len key = 1%nat /\ key <> trigger c) keys ->
    exists lines,
      feed keys c
      = (map (fun _ => true) keys,
         mkInputConsumer (trigger c) true (buffer c ++ concat keys) (value c)
           (printed c ++ lines)%list) /\
      length lines = length keys.
Proof.
  induction keys as [|key keys IH]; intros c Ha Hall.
  - exists []. split; [|reflexivity]. cbn.
    destruct c as [t a b v p]. cbn in *. subst a.
    now rewrite append_empty_r, app_nil_r.
  - inversion Hall as [|? ? [Hk Hne] Hrest]; subst.
    cbn [feed]. rewrite (typing_one _ _ Ha Hk Hne).
    destruct (IH (mkInputConsumer (trigger c) true (buffer c ++ key) (value c)
                    (printed c ++ [(trigger c ++ " " ++ buffer c ++ key)%string])%list)
                eq_refl Hrest) as (lines & E & L).
    rewrite E. cbn [trigger buffer value printed map concat].
    exists ((trigger c ++ " " ++ buffer c ++ key) :: lines).
    split; [|cbn; now rewrite L].
    f_equal. f_equal.
    + apply DeviceMore.append_assoc.
    + now rewrite <- app_assoc.
Qed.

Lemma feed_app ks ks' :
  forall c,
    feed (ks ++ ks') c
    = (let '(a1, c') := feed ks c in
       let '(a2, c'') := feed ks' c' in
       (a1 ++ a2, c''))%list.
Proof.
  induction ks as [|k ks IHk]; intros c; cbn [feed app].
  - now destruct (feed ks' c).
  - destruct (process_input k c) as [a0 c0]. rewrite IHk.
    destruct (feed ks c0) as [a1 c']. now destruct (feed ks' c').
Qed.

Lemma str_len_app b key :
  str_len (b ++ key) = (str_len b + str_len key)%nat.
Proof.
  induction b as [|x b IH]; [reflexivity|].
  change (str_len (String x (b ++ key))
          = (str_len (String x b) + str_len key)%nat).
  cbn [str_len]. rewrite IH. now destruct (is_continuation x).
Qed.

Lemma str_take_app b a rest :
  is_continuation a = false ->
  str_take (str_len b) (b ++ String a rest) = b.
Proof.
  intros Ha. induction b as [|x b IH].
  - change (str_take 0 (String a rest) = ""). cbn [str_take]. now rewrite Ha.
  - change (str_take (str_len (String x b)) (String x (b ++ String a rest))
            = String x b).
    cbn [str_len str_take].
    destruct (is_continuation x); now rewrite IH.
Qed.

Lemma one_char_single key : one_char key = true -> str_len key = 1%nat.
Proof.
  destruct key as [|a rest]; [discriminate|]. cbn [one_char str_len].
  intros H. apply andb_true_iff in H as [Ha Hr].
  apply negb_true_iff in Ha. apply Nat.eqb_eq in Hr. now rewrite Ha, Hr.
Qed.

(** X17: one entry from start to finish.  An idle consumer that is
    given its trigger, then any number of one-character keys, then
    ENTER, ends up idle again with exactly the typed characters as its
    value and an empty buffer; it answers true to every key but the
    last, so a manager keeps it as the active consumer just that
    long. *)
Theorem entry_commits_what_was_typed c keys :
  active c = false ->
  buffer c = "" ->
  trigger c <> "ENTER" ->
  Forall (fun key => str_len key = 1%nat /\ key <> trigger c) keys ->
  let r := feed (trigger c :: keys ++ ["ENTER"]) c in
  r.1 = true :: map (fun _ => true) keys ++ [false] /\
  value r.2 = concat keys /\
  buffer r.2 = "" /\
  active r.2 = false /\
  trigger r.2 = trigger c.
Proof.
  intros Ha Hb Ht Hall r.
  set (c1 := mkInputConsumer (trigger c) true (buffer c) (value c) (printed c)).
  destruct (typing_all keys c1 eq_refl Hall) as (lines & E & _).
  assert (H1 : String.eqb "ENTER" (trigger c) = false)
    by (apply String.eqb_neq; congruence).
  assert (Hr : r = (true :: map (fun _ => true) keys ++ [false],
                    mkInputConsumer (trigger c) false ""
                      (buffer c ++ concat keys) (printed c ++ lines)%list)).
  { subst r. cbn [feed]. unfold process_input at 1.
    rewrite Ha, String.eqb_refl. cbn [negb]. fold c1.
    rewrite feed_app, E. cbn [feed]. unfold process_input.
    subst c1. cbn [active trigger buffer value printed negb].
    rewrite H1. reflexivity. }
  rewrite Hr. cbn [fst snd value buffer active trigger]. rewrite Hb.
  now repeat split.
Qed.

Lemma entry_commits_witness :
  value (feed ["F1"; "3"; "5"; "ENTER"] (new_InputConsumer "F1")).2 = "35".
Proof.
  destruct (entry_commits_what_was_typed (new_InputConsumer "F1")
              ["3"; "5"] eq_refl eq_refl ltac:(discriminate)
              ltac:(repeat constructor; discriminate))
    as (_ & Hv & _).
  exact Hv.
Defined.

(** X18: an entry that is called off changes nothing.  Trigger, any
    number of one-character keys, and then ESC or the trigger once
    more: the consumer is idle again, its buffer empty, and its value
    is the one it had before. *)
Theorem entry_called_off_keeps_the_value c keys last :
  active c = false ->
  last = "ESC" \/ last = trigger c ->
  Forall (fun key => str_len key = 1%nat /\ key <> trigger c) keys ->
  let r := feed (trigger c :: keys ++ [last]) c in
  r.1 = true :: map (fun _ => true) keys ++ [false] /\
  value r.2 = value c /\
  buffer r.2 = "" /\
  active r.2 = false /\
  trigger r.2 = trigger c.
Proof.
  intros Ha Hlast Hall r.
  set (c1 := mkInputConsumer (trigger c) true (buffer c) (value c) (printed c)).
  destruct (typing_all keys c1 eq_refl Hall) as (lines & E & _).
  assert (H1 : String.eqb last "ESC" || String.eqb last (trigger c) = true).
  { destruct Hlast as [->| ->]; [reflexivity|].
    rewrite String.eqb_refl. apply orb_true_r. }
  assert (Hr : r = (true :: map (fun _ => true) keys ++ [false],
                    mkInputConsumer (trigger c) false "" (value c)
                      (printed c ++ lines)%list)).
  { subst r. cbn [feed]. unfold process_input at 1.
    rewrite Ha, String.eqb_refl. cbn [negb]. fold c1.
    rewrite feed_app, E. cbn [feed]. unfold process_input.
    subst c1. cbn [active trigger buffer value printed negb].
    rewrite H1. reflexivity. }
  rewrite Hr. now repeat split.
Qed.

Lemma entry_called_off_witness :
  let c := mkInputConsumer "F2" false "" "10" [] in
  value (feed ["F2"; "9"; "9"; "ESC"] c).2 = "10" /\
  buffer (feed ["F2"; "9"; "9"; "ESC"] c).2 = "".
Proof.
  intros c.
  destruct (entry_called_off_keeps_the_value c ["9"; "9"] "ESC" eq_refl
              ltac:(now left) ltac:(repeat constructor; discriminate))
    as (_ & Hv & Hb & _).
  split; [exact Hv|exact Hb].
Defined.

(** X19: BACKSPACE (or DEL) takes back the character typed last: after
    a one-character key and then BACKSPACE an active consumer has the
    buffer it had before, and is still active with its value
    untouched. *)
Theorem backspace_takes_back_the_last_character c key erase :
  active c = true ->
  one_char key = true ->
  key <> trigger c ->
  erase = "BACKSPACE" \/ erase = "DEL" ->
  erase <> trigger c ->
  let r := feed [key; erase] c in
  r.1 = [true; true] /\
  buffer r.2 = buffer c /\
  value r.2 = value c /\
  active r.2 = true.
Proof.
  intros Ha Hk Hne Herase Hnt r.
  pose proof (one_char_single _ Hk) as Hlen.
  assert (Hcut : str_but_last (buffer c ++ key) = buffer c).
  { unfold str_but_last. rewrite str_len_app, Hlen.
    replace (str_len (buffer c) + 1 - 1)%nat with (str_len (buffer c)) by lia.
    destruct key as [|a rest]; [discriminate|].
    cbn [one_char] in Hk. apply andb_true_iff in Hk as [Hk _].
    apply negb_true_iff in Hk. now apply str_take_app. }
  assert (Hpos : (0 <? str_len (buffer c ++ key))%nat = true)
    by (rewrite str_len_app, Hlen; apply Nat.ltb_lt; lia).
  assert (H1 : String.eqb erase "ESC" || String.eqb erase (trigger c) = false).
  { apply String.eqb_neq in Hnt. rewrite Hnt.
    destruct Herase as [->| ->]; reflexivity. }
  assert (H2 : String.eqb erase "DEL" || String.eqb erase "BACKSPACE" = true)
    by (destruct Herase as [->| ->]; reflexivity).
  subst r. cbn [feed]. rewrite (typing_one _ _ Ha Hlen Hne).
  unfold process_input. cbn [active trigger buffer value printed negb].
  rewrite H1, H2, Hpos. cbn [print active trigger buffer value printed fst snd].
  rewrite Hcut. now repeat split.
Qed.

Lemma backspace_witness :
  let c := mkInputConsumer "F1" true "03" "" [] in
  buffer (feed ["5"; "BACKSPACE"] c).2 = "03".
Proof.
  intros c.
  destruct (backspace_takes_back_the_last_character c "5" "BACKSPACE"
              eq_refl eq_refl ltac:(discriminate) ltac:(now left)
              ltac:(discriminate))
    as (_ & Hb & _).
  exact Hb.
Defined.

End ConsumerMore.

(** ** The device against the emulator *)
Module BenchFacts.
Import Device DeviceIO DeviceFacts DeviceMore Bench.
Local Open Scope py_scope.

Lemma range_from_In n :
  forall a v, a <= v < a + Z.of_nat n -> In v (range_from a n).
Proof.
  induction n as [|n IH]; intros a v H; [lia|]. cbn [range_from].
  destruct (Z.eq_dec a v) as [->|Hne]; [now left|].
  right. apply IH. lia.
Qed.

Lemma range_In a n v : a <= v < a + n -> In v (range a n).
Proof. intros H. apply range_from_In. lia. Qed.

Lemma forallb_range (f : Z -> bool) a n :
  forallb f (range a n) = true ->
  forall v, a <= v < a + n -> f v = true.
Proof.
  intros H v Hv. rewrite forallb_forall in H. apply H, range_In, Hv.
Qed.

Lemma value_lineb_line v : value_lineb v = true -> value_line v.
Proof.
  unfold value_lineb, value_line. intros H.
  repeat (apply andb_true_iff in H as [H ?]).
  apply negb_true_iff in H.
  repeat split; try assumption;
    apply String.eqb_neq, negb_true_iff; assumption.
Qed.

Lemma reads_as_Ok want r : reads_as want r = true -> r = Ok want.
Proof.
  destruct r as [z|e]; cbn; [|discriminate].
  intros H. apply Z.eqb_eq in H. now subst.
Qed.

Lemma pwm_values_read :
  forallb pwm_value_reads (range (-99) 1099) = true.
Proof. vm_compute. reflexivity. Qed.

Lemma pwm_sets_parse :
  forallb (fun n => forallb (fun x => pwm_set_parses n x x) (range (-99) 1099))
          [1; 2; 3; 4] = true.
Proof. vm_compute. reflexivity. Qed.

Lemma cuts : forallb cut_ok (range 1000 9000) = true.
Proof. vm_compute. reflexivity. Qed.

Lemma all_ascii_app a b : all_ascii (a ++ b) = all_ascii a && all_ascii b.
Proof.
  induction a as [|x a IH]; [reflexivity|].
  change (all_ascii (String x (a ++ b)) = all_ascii (String x a) && all_ascii b).
  cbn [all_ascii]. rewrite IH. now rewrite andb_assoc.
Qed.

Lemma decode_ascii s :
  all_ascii s = true -> Emulator.decode_ascii_ignore s = s.
Proof.
  induction s as [|c s IH]; cbn; [reflexivity|]. intros H.
  apply andb_true_iff in H as [Hc Hs]. now rewrite Hc, IH.
Qed.

Lemma but_last_line s : Emulator.but_last (s ++ String LF "") = s.
Proof.
  induction s as [|a s IH]; [reflexivity|].
  change (Emulator.but_last (String a (s ++ String LF "")) = String a s).
  cbn [Emulator.but_last]. rewrite IH. now destruct s.
Qed.

Lemma heard_line s : all_ascii s = true -> heard (s ++ String LF "") = s.
Proof.
  intros H. unfold heard. rewrite decode_ascii.
  - apply but_last_line.
  - rewrite all_ascii_app, H. reflexivity.
Qed.

(** What the emulator hears of a set command for channel 1 to 4. *)
Lemma heard_pwm_set n x :
  In n [1; 2; 3; 4] ->
  all_ascii (format_zero_padded 3 x) = true ->
  heard (PWM_set n x)
  = "PWM" ++ str_of_int n ++ "S" ++ format_zero_padded 3 x.
Proof.
  intros Hn Hf. unfold PWM_set.
  rewrite <- !DeviceMore.append_assoc. rewrite heard_line.
  - now rewrite !DeviceMore.append_assoc.
  - rewrite !all_ascii_app, Hf.
    destruct Hn as [<-|[<-|[<-|[<-|[]]]]]; reflexivity.
Qed.

Lemma pwm_set_parses_cut n x stored :
  In n [1; 2; 3; 4] ->
  all_ascii (format_zero_padded 3 x) = true ->
  int (substring 0 3 (format_zero_padded 3 x)) = Ok stored ->
  pwm_set_parses n x stored = true.
Proof.
  intros Hn Hf Hint. unfold pwm_set_parses. cbv zeta.
  rewrite (heard_pwm_set n x Hn Hf).
  set (f := format_zero_padded 3 x) in *. clearbody f.
  destruct Hn as [<-|[<-|[<-|[<-|[]]]]];
    match goal with
    | |- context [str_of_int ?n] =>
        let t := eval vm_compute in (str_of_int n) in
        change (str_of_int n) with t
    end;
    match goal with
    | |- context [int (substring 5 3 ?cmd)] =>
        change (substring 5 3 cmd) with (substring 0 3 f)
    end;
    match goal with
    | |- context [String.eqb (substring 4 1 ?cmd) "S"] =>
        change (substring 4 1 cmd) with (String "S" (substring 0 0 f))
    end;
    replace (substring 0 0 f) with "" by (now destruct f);
    rewrite Hint; cbn [reads_as]; rewrite (Z.eqb_refl stored);
    reflexivity.
Qed.

Lemma pwm_queries_parse : forallb pwm_query_parses [1; 2; 3; 4] = true.
Proof. vm_compute. reflexivity. Qed.

Lemma bus_answer reply e :
  Emulator.bus (Emulator.answer reply e) = Emulator.bus e ++ reply /\
  Emulator._pwm (Emulator.answer reply e) = Emulator._pwm e /\
  Emulator.entropy (Emulator.answer reply e) = Emulator.entropy e.
Proof. now repeat split. Qed.

(** The emulator's round for a set command it can read. *)
Lemma loop_body_pwm_set e n x stored :
  In n [1; 2; 3; 4] ->
  pwm_set_parses n x stored = true ->
  length (Emulator._pwm e) = 5%nat ->
  exists e',
    Emulator.loop_body (PWM_set n x) e = Some e' /\
    Emulator.bus e'
    = Emulator.bus e
      ++ (format_zero_padded 3 stored ++ Emulator.NL ++ "OK" ++ Emulator.NL) /\
    Emulator._pwm e' = <[Z.to_nat n := stored]> (Emulator._pwm e).
Proof.
  intros Hn Hparse Hlen. unfold pwm_set_parses in Hparse. cbv zeta in Hparse.
  repeat (apply andb_true_iff in Hparse as [Hparse ?]).
  apply negb_true_iff in Hparse.
  match goal with H : negb _ = true |- _ => apply negb_true_iff in H end.
  match goal with H : (_ =? n) = true |- _ => apply Z.eqb_eq in H end.
  match goal with H : reads_as _ _ = true |- _ => apply reads_as_Ok in H end.
  unfold Emulator.loop_body. cbv zeta. fold (heard (PWM_set n x)).
  repeat match goal with H : _ = _ |- _ => rewrite H end.
  assert (Hin : Z_in n [1; 2; 3; 4] = true)
    by (destruct Hn as [<-|[<-|[<-|[<-|[]]]]]; reflexivity).
  rewrite Hin. cbn [negb].
  assert (Hlt : (Z.to_nat n <? 5)%nat = true)
    by (destruct Hn as [<-|[<-|[<-|[<-|[]]]]]; reflexivity).
  cbn [Emulator._pwm Emulator.print]. rewrite Hlen, Hlt.
  eexists. split; [reflexivity|]. now split.
Qed.

Lemma line_delivers_calm w p reply :
  calm w (line_delivers p reply w).
Proof. now repeat split. Qed.

(** The device hears a value line and [OK] on a line that had nothing
    pending. *)
Lemma transact_heard w self p port text cmd v :
  io w self = Some (p, port, text) ->
  rx port = "" ->
  write_times_out port = false ->
  value_line v ->
  exists w',
    __transact self cmd
      (line_delivers p (v ++ Emulator.NL ++ "OK" ++ Emulator.NL) w)
    = (Ok v, w') /\
    calm w w'.
Proof.
  intros Hio Hrx Hw Hv.
  pose proof (line_delivers_io _ _ _ _ _
                (v ++ Emulator.NL ++ "OK" ++ Emulator.NL) Hio) as Hio1.
  rewrite Hrx in Hio1.
  destruct (transact_two_lines_io _ _ _ _ _ cmd v "OK" ""
              Hio1 Hw eq_refl Hv eq_refl eq_refl)
    as (w2 & E & _ & C2).
  exists w2. split; [exact E|].
  eapply calm_trans; [apply line_delivers_calm|exact C2].
Qed.

(** The device side of an accepted set command. *)
Lemma pwm_set_heard w self p port text items n x :
  -99 <= x <= 999 ->
  io w self = Some (p, port, text) ->
  rx port = "" ->
  write_times_out port = false ->
  command_log w self = Some items ->
  exists w',
    pwm self n (Some x)
      (line_delivers p
         (format_zero_padded 3 x ++ Emulator.NL ++ "OK" ++ Emulator.NL) w)
    = (Ok x, w') /\
    command_log w' self = Some (items ++ [PWM_set n x])%list /\
    log w' = log w.
Proof.
  intros Hx Hio Hrx Hw Hlog.
  pose proof (forallb_range _ _ _ pwm_values_read x ltac:(lia)) as Hval.
  apply andb_true_iff in Hval as [Hline Hread].
  apply value_lineb_line in Hline. apply reads_as_Ok in Hread.
  destruct (transact_heard _ _ _ _ _ (PWM_set n x) _ Hio Hrx Hw Hline)
    as (w' & Et & (_ & _ & Cl)).
  assert (Hlog1 : command_log
                    (line_delivers p
                       (format_zero_padded 3 x ++ Emulator.NL ++ "OK"
                          ++ Emulator.NL) w) self = Some items) by exact Hlog.
  destruct (pwm_set_accepted _ _ n x _ _ _ Hlog1 Et) as (l & Ha & Hl & Hrun).
  eexists. split; [rewrite Hrun, Hread; reflexivity|].
  split; [eapply command_log_with_lists; eassumption|exact Cl].
Qed.

(** X20: a set command goes round.  With the emulator at the other end
    of the line, [pwm(n, x)] for a channel 1 to 4 and a value from -99 to
    999 returns [x]: the emulator reads channel and value out of the
    command the device sent, stores the value in [_pwm[n]] and answers
    with it, zero-padded, and the device reads that back.  The command
    is entered in the device's command log. *)
Theorem pwm_set_goes_round e w self p port text items n x :
  In n [1; 2; 3; 4] ->
  -99 <= x <= 999 ->
  length (Emulator._pwm e) = 5%nat ->
  io w self = Some (p, port, text) ->
  rx port = "" ->
  write_times_out port = false ->
  command_log w self = Some items ->
  let reply := format_zero_padded 3 x ++ Emulator.NL ++ "OK" ++ Emulator.NL in
  let r := pwm self n (Some x) (line_delivers p reply w) in
  (exists e',
      Emulator.loop_body (PWM_set n x) e = Some e' /\
      Emulator.bus e' = Emulator.bus e ++ reply /\
      Emulator._pwm e' = <[Z.to_nat n := x]> (Emulator._pwm e)) /\
  r.1 = Ok x /\
  command_log r.2 self = Some (items ++ [PWM_set n x])%list.
Proof.
  intros Hn Hx Hlen Hio Hrx Hw Hlog reply r.
  pose proof pwm_sets_parse as Hp. rewrite forallb_forall in Hp.
  specialize (Hp n Hn).
  pose proof (forallb_range _ _ _ Hp x ltac:(lia)) as Hparse. cbv beta in Hparse.
  split; [exact (loop_body_pwm_set e n x x Hn Hparse Hlen)|].
  destruct (pwm_set_heard _ _ _ _ _ _ n x Hx Hio Hrx Hw Hlog)
    as (w' & Hrun & Hcmd & _).
  subst r reply. rewrite Hrun. now split.
Qed.

Lemma pwm_set_goes_round_witness :
  let reply := "042" ++ Emulator.NL ++ "OK" ++ Emulator.NL in
  (pwm Scenario.d1 3 (Some 42)
     (line_delivers Scenario.port1 reply Scenario.two_devices)).1 = Ok 42.
Proof.
  intros reply.
  destruct (pwm_set_goes_round (Emulator.started []) Scenario.two_devices
              Scenario.d1 Scenario.port1 (mkPort "" "" false) (Some "") []
              3 42
              ltac:(cbn; tauto) ltac:(lia) eq_refl
              ltac:(vm_compute; reflexivity) eq_refl eq_refl
              ltac:(vm_compute; reflexivity))
    as (_ & Hr & _).
  exact Hr.
Defined.

(** X21: a value of four digits is cut short without a word.  The
    emulator reads three characters of the value, so [pwm(n, x)] with
    [x] from 1000 to 9999 sets the channel to [x // 10], and returns
    that, while the device's command log records the command with
    [x] in full. *)
Theorem pwm_set_of_four_digits_is_cut e w self p port text items n x :
  In n [1; 2; 3; 4] ->
  1000 <= x <= 9999 ->
  length (Emulator._pwm e) = 5%nat ->
  io w self = Some (p, port, text) ->
  rx port = "" ->
  write_times_out port = false ->
  command_log w self = Some items ->
  let reply := format_zero_padded 3 (x / 10)
                 ++ Emulator.NL ++ "OK" ++ Emulator.NL in
  let r := pwm self n (Some x) (line_delivers p reply w) in
  (exists e',
      Emulator.loop_body (PWM_set n x) e = Some e' /\
      Emulator.bus e' = Emulator.bus e ++ reply /\
      Emulator._pwm e' = <[Z.to_nat n := x / 10]> (Emulator._pwm e)) /\
  r.1 = Ok (x / 10) /\
  command_log r.2 self = Some (items ++ [PWM_set n x])%list.
Proof.
  intros Hn Hx Hlen Hio Hrx Hw Hlog reply r.
  pose proof (forallb_range _ _ _ cuts x ltac:(lia)) as Hcut.
  unfold cut_ok in Hcut. cbv zeta in Hcut.
  apply andb_true_iff in Hcut as [Hf Hint]. apply reads_as_Ok in Hint.
  pose proof (pwm_set_parses_cut n x (x / 10) Hn Hf Hint) as Hparse.
  assert (Hx10 : -99 <= x / 10 < -99 + 1099).
  { pose proof (Z.div_le_lower_bound x 10 100 ltac:(lia) ltac:(lia)).
    pose proof (Z.div_lt_upper_bound x 10 1000 ltac:(lia) ltac:(lia)). lia. }
  pose proof (forallb_range _ _ _ pwm_values_read (x / 10) Hx10) as Hval.
  apply andb_true_iff in Hval as [Hline Hread].
  apply value_lineb_line in Hline. apply reads_as_Ok in Hread.
  split; [exact (loop_body_pwm_set e n x (x / 10) Hn Hparse Hlen)|].
  destruct (transact_heard _ _ _ _ _ (PWM_set n x) _ Hio Hrx Hw Hline)
    as (w' & Et & Cw).
  assert (Hlog1 : command_log (line_delivers p reply w) self = Some items)
    by exact Hlog.
  destruct (pwm_set_accepted _ _ n x _ _ _ Hlog1 Et) as (l & Ha & Hl & Hrun).
  subst r. rewrite Hrun, Hread. split; [reflexivity|].
  eapply command_log_with_lists; eassumption.
Qed.

Lemma pwm_set_of_four_digits_witness :
  let reply := "123" ++ Emulator.NL ++ "OK" ++ Emulator.NL in
  (pwm Scenario.d1 1 (Some 1234)
     (line_delivers Scenario.port1 reply Scenario.two_devices)).1 = Ok 123.
Proof.
  intros reply.
  destruct (pwm_set_of_four_digits_is_cut (Emulator.started [])
              Scenario.two_devices
              Scenario.d1 Scenario.port1 (mkPort "" "" false) (Some "") []
              1 1234
              ltac:(cbn; tauto) ltac:(lia) eq_refl
              ltac:(vm_compute; reflexivity) eq_refl eq_refl
              ltac:(vm_compute; reflexivity))
    as (_ & Hr & _).
  exact Hr.
Defined.

(** X22: a query reads what the emulator holds.  [pwm(n)] for a
    channel 1 to 4 returns the value of [_pwm[n]], which the query
    leaves as it is. *)
Theorem pwm_query_reads_the_channel e w self p port text n v :
  In n [1; 2; 3; 4] ->
  Emulator._pwm e !! Z.to_nat n = Some v ->
  -99 <= v <= 999 ->
  io w self = Some (p, port, text) ->
  rx port = "" ->
  write_times_out port = false ->
  let reply := format_zero_padded 3 v ++ Emulator.NL ++ "OK" ++ Emulator.NL in
  (exists e',
      Emulator.loop_body (PWM_query n) e = Some e' /\
      Emulator.bus e' = Emulator.bus e ++ reply /\
      Emulator._pwm e' = Emulator._pwm e) /\
  (pwm self n None (line_delivers p reply w)).1 = Ok v.
Proof.
  intros Hn Hv Hrange Hio Hrx Hw reply.
  pose proof pwm_queries_parse as Hp. rewrite forallb_forall in Hp.
  specialize (Hp n Hn). unfold pwm_query_parses in Hp. cbv zeta in Hp.
  repeat (apply andb_true_iff in Hp as [Hp ?]).
  apply negb_true_iff in Hp.
  repeat match goal with
         | H : negb _ = true |- _ => apply negb_true_iff in H
         end.
  match goal with H : (_ =? n) = true |- _ => apply Z.eqb_eq in H end.
  pose proof (forallb_range _ _ _ pwm_values_read v ltac:(lia)) as Hval.
  apply andb_true_iff in Hval as [Hline Hread].
  apply value_lineb_line in Hline. apply reads_as_Ok in Hread.
  split.
  - unfold Emulator.loop_body. cbv zeta. fold (heard (PWM_query n)).
    repeat match goal with H : _ = _ |- _ => rewrite H end.
    assert (Hin : Z_in n [1; 2; 3; 4] = true)
      by (destruct Hn as [<-|[<-|[<-|[<-|[]]]]]; reflexivity).
    rewrite Hin. cbn [Emulator._pwm Emulator.print]. rewrite Hv.
    eexists. split; [reflexivity|]. now split.
  - destruct (transact_heard _ _ _ _ _ (PWM_query n) _ Hio Hrx Hw Hline)
      as (w' & Et & Cw).
    unfold pwm. fold (PWM_query n).
    rewrite (bind_Ok _ _ _ _ _ Et). unfold lift_result. now rewrite Hread.
Qed.

Lemma pwm_query_witness :
  let reply := "035" ++ Emulator.NL ++ "OK" ++ Emulator.NL in
  (pwm Scenario.d1 4 None
     (line_delivers Scenario.port1 reply Scenario.two_devices)).1 = Ok 35.
Proof.
  intros reply.
  destruct (pwm_query_reads_the_channel (Emulator.started [])
              Scenario.two_devices
              Scenario.d1 Scenario.port1 (mkPort "" "" false) (Some "")
              4 35
              ltac:(cbn; tauto) eq_refl ltac:(lia)
              ltac:(vm_compute; reflexivity) eq_refl eq_refl)
    as (_ & Hr).
  exact Hr.
Defined.

Lemma meas_queries_parse :
  forallb meas_query_parses (range 0 100) = true.
Proof. vm_compute. reflexivity. Qed.

Lemma unhandled_are_refused :
  forallb (fun n => Z_in n handled || refused n) (range 0 100) = true.
Proof. vm_compute. reflexivity. Qed.

Lemma loop_body_meas e n :
  0 <= n <= 99 ->
  Emulator.loop_body (MEAS_query n) e
  = (let '(reply, e') :=
       Emulator.meas (format_zero_padded 2 n)
         (Emulator.print (heard (MEAS_query n) ++ " ") e) in
     Some (Emulator.answer reply e')).
Proof.
  intros Hn.
  pose proof (forallb_range _ _ _ meas_queries_parse n ltac:(lia)) as Hp.
  unfold meas_query_parses in Hp. cbv zeta in Hp.
  apply andb_true_iff in Hp as [H1 H2]. apply String.eqb_eq in H2.
  unfold Emulator.loop_body. cbv zeta. fold (heard (MEAS_query n)).
  now rewrite H1, H2.
Qed.

(** The device hears [ERROR]. *)
Lemma transact_heard_ERROR w self p port text cmd :
  io w self = Some (p, port, text) ->
  rx port = "" ->
  write_times_out port = false ->
  exists w',
    __transact self cmd (line_delivers p ("ERROR" ++ Emulator.NL) w)
    = (Raise (ValueError Device_replied_ERROR), w') /\
    calm w w'.
Proof.
  intros Hio Hrx Hw.
  pose proof (line_delivers_io _ _ _ _ _ ("ERROR" ++ Emulator.NL) Hio) as Hio1.
  rewrite Hrx in Hio1.
  destruct (transact_first_line_io _ _ _ _ _ cmd "ERROR" ""
              Hio1 Hw eq_refl eq_refl eq_refl)
    as (w1 & _ & C1 & E).
  exists w1. split; [exact E|].
  eapply calm_trans; [apply line_delivers_calm|exact C1].
Qed.

(** X23: the device and the emulator have the same table of
    measurements.  A selector from 0 to 99 that [Device.meas] has no
    branch for is refused by the emulator with [ERROR], so [meas] raises
    the [ValueError] for that reply; it never gets as far as its own
    branch for unhandled selectors, and writes no log record. *)
Theorem unhandled_selector_is_refused_first e w self p port text n :
  0 <= n <= 99 ->
  ~ In n handled ->
  io w self = Some (p, port, text) ->
  rx port = "" ->
  write_times_out port = false ->
  let reply := "ERROR" ++ Emulator.NL in
  let r := meas self n (line_delivers p reply w) in
  (exists e',
      Emulator.loop_body (MEAS_query n) e = Some e' /\
      Emulator.bus e' = Emulator.bus e ++ reply /\
      Emulator.entropy e' = Emulator.entropy e) /\
  r.1 = Raise (ValueError Device_replied_ERROR) /\
  log r.2 = log w.
Proof.
  intros Hn Hun Hio Hrx Hw reply r.
  pose proof (forallb_range _ _ _ unhandled_are_refused n ltac:(lia)) as Hp.
  cbv beta in Hp. apply orb_true_iff in Hp as [Hp|Hp].
  { elim Hun. apply Z_in_In. exact Hp. }
  unfold refused in Hp. cbv zeta in Hp.
  repeat (apply andb_true_iff in Hp as [Hp ?]).
  apply negb_true_iff in Hp.
  repeat match goal with
         | H : negb _ = true |- _ => apply negb_true_iff in H
         end.
  split.
  - rewrite (loop_body_meas e n Hn). unfold Emulator.meas.
    repeat match goal with H : _ = false |- _ => rewrite H end.
    eexists. split; [reflexivity|]. now split.
  - destruct (transact_heard_ERROR _ _ _ _ _ (MEAS_query n) Hio Hrx Hw)
      as (w' & Et & (_ & _ & Hlog)).
    subst r. unfold meas. fold (MEAS_query n).
    rewrite (bind_Raise _ _ _ _ _ Et). now split.
Qed.

Lemma unhandled_selector_witness :
  (meas Scenario.d1 7
     (line_delivers Scenario.port1 ("ERROR" ++ Emulator.NL)
        Scenario.two_devices)).1
  = Raise (ValueError Device_replied_ERROR).
Proof.
  destruct (unhandled_selector_is_refused_first (Emulator.started [])
              Scenario.two_devices Scenario.d1 Scenario.port1
              (mkPort "" "" false) (Some "") 7
              ltac:(lia)
              ltac:(cbn; intuition discriminate)
              ltac:(vm_compute; reflexivity) eq_refl eq_refl)
    as (_ & Hr & _).
  exact Hr.
Defined.

Lemma has_LF_app a b : has_LF (a ++ b) = has_LF a || has_LF b.
Proof.
  induction a as [|x a IH]; [reflexivity|].
  change (has_LF (String x (a ++ b)) = has_LF (String x a) || has_LF b).
  cbn [has_LF]. rewrite IH. now rewrite orb_assoc.
Qed.

Lemma all_ascii_valid s : all_ascii s = true -> utf8_valid s = true.
Proof.
  unfold utf8_valid. generalize (Nat.le_refl (String.length s)).
  generalize (String.length s) at 2 3 as fuel.
  intros fuel. revert s.
  induction fuel as [|fuel IH]; intros [|c s] Hlen H; cbn in *;
    try reflexivity; try lia.
  apply andb_true_iff in H as [Hc Hs]. rewrite Hc.
  apply IH; [lia|exact Hs].
Qed.

Lemma no_space_no_LF t : no_space t = true -> has_LF t = false.
Proof.
  induction t as [|c t IH]; cbn; [reflexivity|]. intros H.
  apply andb_true_iff in H as [Hc Ht]. rewrite (IH Ht), orb_false_r.
  destruct (Ascii.eqb_spec c LF) as [->|]; [discriminate|reflexivity].
Qed.

Lemma fields2 : forallb (field_ok 2) (range 0 100) = true.
Proof. vm_compute. reflexivity. Qed.

Lemma fields3 : forallb (field_ok 3) (range 0 1000) = true.
Proof. vm_compute. reflexivity. Qed.

Lemma fields4 : forallb (field_ok 4) (range 0 10000) = true.
Proof. vm_compute. reflexivity. Qed.

Lemma all_digits_plain f :
  all_digits f = true -> all_ascii f = true /\ no_space f = true.
Proof.
  induction f as [|c f IH]; cbn; [now split|]. intros H.
  apply andb_true_iff in H as [Hc Hf]. destruct (IH Hf) as [-> ->].
  assert (byte_in 0 127 c = true /\ is_space c = false) as [-> ->]; [|now split].
  unfold is_digit, is_space, byte_in in *.
  apply andb_true_iff in Hc as [H1 H2].
  apply N.leb_le in H1, H2.
  split.
  - apply andb_true_iff. split; apply N.leb_le; lia.
  - apply orb_false_iff. split; apply andb_false_iff.
    + right. apply N.leb_gt. lia.
    + right. apply N.leb_gt. lia.
Qed.

Lemma str_take_field f u :
  all_ascii f = true ->
  str_take 0 u = "" ->
  str_take (String.length f) (f ++ u) = f.
Proof.
  intros Hf Hu. induction f as [|c f IH]; [exact Hu|].
  change (str_take (S (String.length f)) (String c (f ++ u)) = String c f).
  cbn [all_ascii] in Hf. apply andb_true_iff in Hf as [Hc Hf].
  cbn [str_take]. rewrite (KeyboardFacts.ascii_is_not_continuation _ Hc).
  now rewrite (IH Hf).
Qed.

Lemma digits_are_no_status f u :
  all_digits f = true -> f <> "" -> f ++ u <> "OK" /\ f ++ u <> "ERROR".
Proof.
  destruct f as [|c f]; [intros _ H; now elim H|]. intros H _.
  cbn [all_digits] in H. apply andb_true_iff in H as [Hc _].
  change (String c f ++ u) with (String c (f ++ u)).
  split; intros E; inversion E; subst c; discriminate.
Qed.

(** A field of digits followed by a unit is a value line, and its
    leading characters read back as the number. *)
Lemma scalar_line w v unit :
  field_ok w v = true ->
  (0 < w)%nat ->
  str_take 0 unit = "" ->
  all_ascii unit = true ->
  has_LF unit = false ->
  value_line (format_zero_padded w v ++ unit) /\
  int (str_take w (format_zero_padded w v ++ unit)) = Ok v.
Proof.
  unfold field_ok. cbv zeta. intros H Hw Hu Ha Hl.
  repeat (apply andb_true_iff in H as [H ?]).
  apply Nat.eqb_eq in H.
  match goal with Hr : reads_as _ _ = true |- _ => apply reads_as_Ok in Hr end.
  set (f := format_zero_padded w v) in *. clearbody f.
  match goal with Hd : all_digits f = true |- _ =>
    destruct (all_digits_plain _ Hd) as [Hfa Hfs];
    destruct (digits_are_no_status f unit Hd
                ltac:(intros ->; cbn in H; lia)) as [Hok Herr]
  end.
  split.
  - split; [|split; [|split; assumption]].
    + now rewrite has_LF_app, (no_space_no_LF _ Hfs), Hl.
    + apply all_ascii_valid. now rewrite all_ascii_app, Hfa, Ha.
  - rewrite <- H. now rewrite (str_take_field _ _ Hfa Hu).
Qed.

Lemma field_token w v :
  field_ok w v = true -> (0 < w)%nat ->
  token_reads (format_zero_padded w v) v = true.
Proof.
  unfold field_ok, token_reads. cbv zeta. intros H Hw.
  repeat (apply andb_true_iff in H as [H ?]).
  apply Nat.eqb_eq in H.
  set (f := format_zero_padded w v) in *. clearbody f.
  match goal with Hd : all_digits f = true |- _ =>
    destruct (all_digits_plain _ Hd) as [-> ->]
  end.
  match goal with Hr : reads_as _ _ = true |- _ => rewrite Hr end.
  destruct f; [cbn in H; lia|reflexivity].
Qed.

Ltac decide_closed :=
  repeat match goal with
         | |- context [Emulator.code_in ?c ?l] =>
             let b := eval vm_compute in (Emulator.code_in c l) in
             change (Emulator.code_in c l) with b
         | |- context [Z_in ?c ?l] =>
             let b := eval vm_compute in (Z_in c l) in
             change (Z_in c l) with b
         end.

(** One scalar selector [n]: the emulator formats its number with
    ['{:0w}'] and [unit], the device reads the first [k] characters. *)
Ltac scalar_round n k w unit W fact :=
  match goal with
  | He : Emulator.entropy ?e = ?d :: ?rest,
    Hio : io ?world ?self = Some (?p, ?port, ?text),
    Hrx : rx ?port = "", Hw : write_times_out ?port = false |- _ =>
      let Hval := fresh "Hval" in
      let Hline := fresh "Hline" in
      let Hread := fresh "Hread" in
      pose proof (forallb_range _ _ _ fact (d mod W)
                    ltac:(pose proof (Z.mod_pos_bound d W ltac:(lia)); lia))
        as Hval;
      destruct (scalar_line w (d mod W) unit Hval ltac:(lia)
                  eq_refl eq_refl eq_refl) as [Hline Hread];
      exists (format_zero_padded w (d mod W) ++ unit
                ++ Emulator.NL ++ "OK" ++ Emulator.NL),
        (Emulator.answer
           (format_zero_padded w (d mod W) ++ unit
              ++ Emulator.NL ++ "OK" ++ Emulator.NL)
           (Emulator.mkEmu (Emulator._pwm e) rest (Emulator.bus e)
              (Emulator.stdout e ++ (heard (MEAS_query n) ++ " "))
              (Emulator.slept e)));
      split;
      [ rewrite (loop_body_meas e n ltac:(lia));
        let code := eval vm_compute in (format_zero_padded 2 n) in
        change (format_zero_padded 2 n) with code;
        unfold Emulator.meas, Emulator.randint; decide_closed;
        cbn [Emulator.entropy Emulator.print]; rewrite He; reflexivity
      | split; [reflexivity|]; split; [reflexivity|];
        let w' := fresh "w'" in
        let Et := fresh "Et" in
        destruct (transact_heard _ _ _ _ _ (MEAS_query n)
                    (format_zero_padded w (d mod W) ++ unit)
                    Hio Hrx Hw Hline) as (w' & Et & _);
        unfold meas; fold (MEAS_query n);
        rewrite (DeviceMore.append_assoc (format_zero_padded w (d mod W)) unit)
          in Et;
        rewrite (bind_Ok _ _ _ _ _ Et); decide_closed;
        cbv match; unfold lift_result; rewrite Hread; reflexivity ]
  end.

(** X24: a measurement goes round.  For each scalar selector the
    emulator draws a number, formats it with its unit and [OK], and
    [meas(n)] returns exactly the number drawn: the leading characters
    the device cuts off the reply are the emulator's zero-padded field,
    whatever the number. *)
Theorem scalar_measurement_goes_round e w self p port text n d rest :
  In n [0; 1; 2; 3; 4; 5; 6; 10; 11; 12; 13; 14; 15; 16; 17; 18] ->
  Emulator.entropy e = d :: rest ->
  io w self = Some (p, port, text) ->
  rx port = "" ->
  write_times_out port = false ->
  exists reply e',
    Emulator.loop_body (MEAS_query n) e = Some e' /\
    Emulator.bus e' = Emulator.bus e ++ reply /\
    Emulator.entropy e' = rest /\
    (meas self n (line_delivers p reply w)).1 = Ok (MInt (d mod width n)).
Proof.
  intros Hn He Hio Hrx Hw.
  repeat (destruct Hn as [<-|Hn]); [..|contradiction];
    match goal with
    | |- context [width ?n] =>
        let W := eval vm_compute in (width n) in
        change (width n) with W
    end.
  - scalar_round 0 3%nat 3%nat " V" 1000 fields3.
  - scalar_round 1 3%nat 3%nat " V" 1000 fields3.
  - scalar_round 2 3%nat 3%nat " V" 1000 fields3.
  - scalar_round 3 3%nat 3%nat " V" 1000 fields3.
  - scalar_round 4 4%nat 4%nat " mV" 10000 fields4.
  - scalar_round 5 4%nat 4%nat " mV" 10000 fields4.
  - scalar_round 6 2%nat 2%nat " mA" 100 fields2.
  - scalar_round 10 2%nat 2%nat " mA" 100 fields2.
  - scalar_round 11 2%nat 2%nat " mA" 100 fields2.
  - scalar_round 12 2%nat 2%nat " mA" 100 fields2.
  - scalar_round 13 2%nat 2%nat " mA" 100 fields2.
  - scalar_round 14 2%nat 2%nat " C" 100 fields2.
  - scalar_round 15 2%nat 2%nat " mA" 100 fields2.
  - scalar_round 16 2%nat 2%nat " C" 100 fields2.
  - scalar_round 17 2%nat 2%nat " mA" 100 fields2.
  - scalar_round 18 4%nat 4%nat " mV" 10000 fields4.
Qed.

Lemma scalar_measurement_witness :
  exists reply e',
    Emulator.loop_body (MEAS_query 5) (Emulator.started [12345; 7]) = Some e' /\
    Emulator.entropy e' = [7] /\
    (meas Scenario.d1 5
       (line_delivers Scenario.port1 reply Scenario.two_devices)).1
    = Ok (MInt 2345).
Proof.
  destruct (scalar_measurement_goes_round (Emulator.started [12345; 7])
              Scenario.two_devices Scenario.d1 Scenario.port1
              (mkPort "" "" false) (Some "") 5 12345 [7]
              ltac:(cbn; tauto) eq_refl
              ltac:(vm_compute; reflexivity) eq_refl eq_refl)
    as (reply & e' & H1 & _ & H3 & H4).
  exists reply, e'. split; [exact H1|]. split; [exact H3|exact H4].
Defined.

Lemma tokens_mA :
  forallb (fun m => token_reads (mA_text m) m) (range (-99) 199) = true.
Proof. vm_compute. reflexivity. Qed.

Lemma token_reads_inv t v :
  token_reads t v = true ->
  t <> "" /\ no_space t = true /\ all_ascii t = true /\ int t = Ok v.
Proof.
  unfold token_reads. intros H.
  repeat (apply andb_true_iff in H as [H ?]).
  apply negb_true_iff, String.eqb_neq in H.
  repeat split; try assumption. now apply reads_as_Ok.
Qed.

Lemma split_go_token t :
  no_space t = true ->
  forall s cur,
    split_go (t ++ s) cur
    = split_go s (rev (list_ascii_of_string t) ++ cur)%list.
Proof.
  induction t as [|c t IH]; intros H s cur; [reflexivity|].
  change (split_go (String c (t ++ s)) cur
          = split_go s (rev (c :: list_ascii_of_string t) ++ cur)%list).
  cbn [no_space] in H. apply andb_true_iff in H as [Hc Ht].
  apply negb_true_iff in Hc. cbn [split_go rev]. rewrite Hc.
  rewrite (IH Ht). now rewrite <- app_assoc.
Qed.

Lemma word_back t :
  t <> "" ->
  exists a l, rev (list_ascii_of_string t) = a :: l /\
              string_of_list_ascii (rev (a :: l)) = t.
Proof.
  intros Ht.
  destruct (rev (list_ascii_of_string t)) as [|a l] eqn:E.
  - apply (f_equal (@rev _)) in E. rewrite rev_involutive in E. cbn in E.
    destruct t; [now elim Ht|discriminate].
  - exists a, l. split; [reflexivity|].
    rewrite <- E, rev_involutive. apply string_of_list_ascii_of_string.
Qed.

Lemma split_join tokens :
  Forall (fun t => t <> "" /\ no_space t = true) tokens ->
  split (join " " tokens) = tokens.
Proof.
  induction tokens as [|x rest IH]; intros H; [reflexivity|].
  inversion H as [|? ? [Hx Hs] Hrest]; subst.
  destruct (word_back x Hx) as (a & l & E & Eback).
  destruct rest as [|y rest].
  - cbn [join]. unfold split.
    rewrite <- (ConsumerMore.append_empty_r x) at 1.
    rewrite (split_go_token _ Hs), app_nil_r, E. cbn [split_go].
    now rewrite Eback.
  - change (join " " (x :: y :: rest))
      with (x ++ String " " (join " " (y :: rest))).
    unfold split. rewrite (split_go_token _ Hs), app_nil_r, E.
    cbn [split_go]. change (is_space " ") with true. cbv iota.
    rewrite Eback. f_equal. apply IH, Hrest.
Qed.

Lemma spaced_join tokens tail :
  tokens <> [] -> spaced tokens tail = join " " tokens ++ tail.
Proof.
  induction tokens as [|x rest IH]; intros H; [now elim H|].
  destruct rest as [|y rest]; [reflexivity|].
  change (x ++ " " ++ spaced (y :: rest) tail
          = (x ++ " " ++ join " " (y :: rest)) ++ tail).
  rewrite IH by discriminate.
  now rewrite !DeviceMore.append_assoc.
Qed.

Lemma ints_all tokens :
  forall values,
    Forall2 (fun t v => int t = Ok v) tokens values ->
    ints tokens = Ok values.
Proof.
  induction tokens as [|t tokens IH]; intros values H;
    inversion H as [|? v ? vs Ht Hrest]; subst; [reflexivity|].
  cbn [ints]. rewrite Ht, (IH _ Hrest). reflexivity.
Qed.

Lemma join_line tokens :
  Forall (fun t => no_space t = true /\ all_ascii t = true) tokens ->
  has_LF (join " " tokens) = false /\ all_ascii (join " " tokens) = true.
Proof.
  induction tokens as [|x rest IH]; intros H; [now split|].
  inversion H as [|? ? [Hs Ha] Hrest]; subst.
  destruct rest as [|y rest].
  - cbn [join]. split; [now apply no_space_no_LF|exact Ha].
  - change (join " " (x :: y :: rest))
      with (x ++ String " " (join " " (y :: rest))).
    destruct (IH Hrest) as [IH1 IH2].
    rewrite has_LF_app, all_ascii_app.
    cbn [has_LF all_ascii]. rewrite IH1, IH2, Ha, (no_space_no_LF _ Hs).
    now split.
Qed.

Lemma mA_reads d :
  token_reads (mA_text (mA_value d)) (mA_value d) = true.
Proof.
  apply (forallb_range _ _ _ tokens_mA). unfold mA_value.
  pose proof (Z.mod_pos_bound d 199 ltac:(lia)). lia.
Qed.

Lemma field_reads w bound W d :
  forallb (field_ok w) (range 0 bound) = true ->
  0 < W <= bound ->
  (0 < w)%nat ->
  token_reads (format_zero_padded w (d mod W)) (d mod W) = true.
Proof.
  intros H HW Hw. apply field_token; [|exact Hw].
  apply (forallb_range _ _ _ H).
  pose proof (Z.mod_pos_bound d W ltac:(lia)). lia.
Qed.

(** X25: the full measurement goes round.  For selector 99 the
    emulator draws sixteen numbers and writes nineteen fields on one
    line, three of them the constant 0; [meas(99)] returns the list of
    exactly these nineteen integers, in the order of the line, negative
    currents included. *)
Theorem full_measurement_goes_round e w self p port text
    d00 d01 d02 d03 d04 d05 d06 d10 d11 d12 d13 d14 d15 d16 d17 d18 rest :
  Emulator.entropy e
  = ([d00; d01; d02; d03; d04; d05; d06; d10; d11; d12; d13; d14; d15; d16;
      d17; d18] ++ rest)%list ->
  io w self = Some (p, port, text) ->
  rx port = "" ->
  write_times_out port = false ->
  exists reply e',
    Emulator.loop_body (MEAS_query 99) e = Some e' /\
    Emulator.bus e' = Emulator.bus e ++ reply /\
    Emulator.entropy e' = rest /\
    (meas self 99 (line_delivers p reply w)).1
    = Ok (MList [d00 mod 1000; d01 mod 1000; d02 mod 1000; d03 mod 1000;
                 d04 mod 10000; d05 mod 10000; mA_value d06; 0; 0; 0;
                 mA_value d10; mA_value d11; mA_value d12; mA_value d13;
                 d14 mod 71; mA_value d15; d16 mod 71; mA_value d17;
                 d18 mod 3401]).
Proof.
  intros He Hio Hrx Hw.
  set (values := [d00 mod 1000; d01 mod 1000; d02 mod 1000; d03 mod 1000;
                  d04 mod 10000; d05 mod 10000; mA_value d06; 0; 0; 0;
                  mA_value d10; mA_value d11; mA_value d12; mA_value d13;
                  d14 mod 71; mA_value d15; d16 mod 71; mA_value d17;
                  d18 mod 3401]).
  set (tokens :=
         [format_zero_padded 3 (d00 mod 1000);
          format_zero_padded 3 (d01 mod 1000);
          format_zero_padded 3 (d02 mod 1000);
          format_zero_padded 3 (d03 mod 1000);
          format_zero_padded 4 (d04 mod 10000);
          format_zero_padded 4 (d05 mod 10000);
          mA_text (mA_value d06); "0"; "0"; "0";
          mA_text (mA_value d10); mA_text (mA_value d11);
          mA_text (mA_value d12); mA_text (mA_value d13);
          format_zero_padded 2 (d14 mod 71); mA_text (mA_value d15);
          format_zero_padded 2 (d16 mod 71); mA_text (mA_value d17);
          format_zero_padded 4 (d18 mod 3401)]).
  assert (Htok : Forall2 (fun t v => token_reads t v = true) tokens values).
  { subst tokens values.
    repeat first
      [ apply List.Forall2_nil
      | apply List.Forall2_cons;
        [ first [ apply mA_reads
                | apply (field_reads 3 1000 1000); [exact fields3|lia|lia]
                | apply (field_reads 4 10000 10000); [exact fields4|lia|lia]
                | apply (field_reads 4 10000 3401); [exact fields4|lia|lia]
                | apply (field_reads 2 100 71); [exact fields2|lia|lia]
                | reflexivity ]
        | ] ]. }
  assert (Hwords : Forall (fun t => t <> "" /\ no_space t = true) tokens).
  { clear -Htok. induction Htok as [|t v ts vs H _ IH]; constructor; [|exact IH].
    apply token_reads_inv in H. tauto. }
  assert (Hplain : Forall (fun t => no_space t = true /\ all_ascii t = true)
                     tokens).
  { clear -Htok. induction Htok as [|t v ts vs H _ IH]; constructor; [|exact IH].
    apply token_reads_inv in H. tauto. }
  assert (Hints : ints tokens = Ok values).
  { apply ints_all. clear -Htok.
    induction Htok as [|t v ts vs H _ IH]; constructor; [|exact IH].
    apply token_reads_inv in H. tauto. }
  set (val := join " " tokens).
  assert (Hline : value_line val).
  { destruct (join_line _ Hplain) as [H1 H2].
    split; [exact H1|]. split; [now apply all_ascii_valid|].
    assert (Hlong : forall s, split s = [s] -> val <> s).
    { intros s Hs Heq. pose proof (split_join _ Hwords) as Ht.
      fold val in Ht. rewrite Heq, Hs in Ht.
      apply (f_equal (@length _)) in Ht. subst tokens. discriminate Ht. }
    split; apply Hlong; reflexivity. }
  exists (val ++ Emulator.NL ++ "OK" ++ Emulator.NL),
    (Emulator.answer (val ++ Emulator.NL ++ "OK" ++ Emulator.NL)
       (Emulator.mkEmu (Emulator._pwm e) rest (Emulator.bus e)
          (Emulator.stdout e ++ (heard (MEAS_query 99) ++ " "))
          (Emulator.slept e))).
  split; [|split; [reflexivity|split; [reflexivity|]]].
  - rewrite (loop_body_meas e 99 ltac:(lia)).
    change (format_zero_padded 2 99) with "99".
    destruct e as [pwm ent bus out sl]. cbn [Emulator.entropy] in He. subst ent.
    unfold Emulator.meas. decide_closed. change (String.eqb "99" "99") with true.
    cbv beta iota zeta delta
      [Emulator.mA Emulator.randint Emulator.entropy Emulator.print
       Emulator._pwm Emulator.bus Emulator.stdout Emulator.slept app].
    do 2 f_equal. subst val.
    rewrite <- (spaced_join tokens) by discriminate. reflexivity.
  - destruct (transact_heard _ _ _ _ _ (MEAS_query 99) val Hio Hrx Hw Hline)
      as (w' & Et & _).
    unfold meas. fold (MEAS_query 99).
    rewrite (bind_Ok _ _ _ _ _ Et). decide_closed.
    change (99 =? 99) with true. cbv iota.
    subst val. rewrite (split_join _ Hwords), Hints. reflexivity.
Qed.

Lemma full_measurement_witness :
  exists reply e',
    Emulator.loop_body (MEAS_query 99)
      (Emulator.started [1; 2; 3; 4; 5; 6; 7; 8; 9; 10; 11; 12; 13; 14; 15;
                         16; 17]) = Some e' /\
    Emulator.entropy e' = [17] /\
    (meas Scenario.d1 99
       (line_delivers Scenario.port1 reply Scenario.two_devices)).1
    = Ok (MList [1; 2; 3; 4; 5; 6; -92; 0; 0; 0; -91; -90; -89; -88; 12;
                 -86; 14; -84; 16]).
Proof.
  destruct (full_measurement_goes_round
              (Emulator.started [1; 2; 3; 4; 5; 6; 7; 8; 9; 10; 11; 12; 13;
                                 14; 15; 16; 17])
              Scenario.two_devices Scenario.d1 Scenario.port1
              (mkPort "" "" false) (Some "")
              1 2 3 4 5 6 7 8 9 10 11 12 13 14 15 16 [17]
              eq_refl ltac:(vm_compute; reflexivity) eq_refl eq_refl)
    as (reply & e' & H1 & _ & H3 & H4).
  exists reply, e'. split; [exact H1|]. split; [exact H3|exact H4].
Defined.

End BenchFacts.

(** ** PWMWidget *)
Module WidgetFacts.
Import Device DeviceIO DeviceFacts DeviceMore Bench BenchFacts.
Import PWMWidget.
Local Open Scope py_scope.

Lemma digit_value_bounds c : is_digit c = true -> 0 <= digit_value c <= 9.
Proof.
  unfold is_digit, byte_in, digit_value. intros H.
  apply andb_true_iff in H as [H1 H2]. apply N.leb_le in H1, H2. lia.
Qed.

Lemma int_digits_digits s :
  all_digits s = true ->
  forall acc b,
    0 <= acc ->
    s <> "" \/ b = true ->
    exists z,
      int_digits s acc b = Some z /\
      acc * 10 ^ Z.of_nat (String.length s) <= z
      < (acc + 1) * 10 ^ Z.of_nat (String.length s).
Proof.
  induction s as [|c s IH]; intros Hs acc b Hacc Hne.
  - destruct Hne as [Hne| ->]; [now elim Hne|].
    exists acc. split; [reflexivity|]. cbn. lia.
  - cbn [all_digits] in Hs. apply andb_true_iff in Hs as [Hc Hs].
    pose proof (digit_value_bounds _ Hc) as Hd.
    cbn [int_digits]. rewrite Hc.
    destruct (IH Hs (10 * acc + digit_value c) true ltac:(lia) ltac:(now right))
      as (z & -> & Hz).
    exists z. split; [reflexivity|].
    cbn [String.length]. rewrite Nat2Z.inj_succ, Z.pow_succ_r by lia.
    pose proof (Z.pow_pos_nonneg 10 (Z.of_nat (String.length s))
                  ltac:(lia) ltac:(lia)).
    nia.
Qed.

Lemma digit_not_space c : is_digit c = true -> is_space c = false.
Proof.
  unfold is_digit, is_space, byte_in. intros H.
  apply andb_true_iff in H as [H1 H2]. apply N.leb_le in H1, H2.
  apply orb_false_iff. split; apply andb_false_iff; right; apply N.leb_gt; lia.
Qed.

Lemma rstrip_digits s : all_digits s = true -> rstrip s = s.
Proof.
  induction s as [|c s IH]; [reflexivity|]. intros H.
  cbn [all_digits] in H. apply andb_true_iff in H as [Hc Hs].
  cbn [rstrip all_space]. rewrite (digit_not_space _ Hc). cbn [andb].
  now rewrite (IH Hs).
Qed.

Lemma strip_digits s : all_digits s = true -> strip s = s.
Proof.
  intros H. unfold strip.
  assert (Hl : lstrip s = s).
  { destruct s as [|c s]; [reflexivity|].
    cbn [all_digits] in H. apply andb_true_iff in H as [Hc _].
    cbn [lstrip]. now rewrite (digit_not_space _ Hc). }
  rewrite Hl. now apply rstrip_digits.
Qed.

(** [int] of a string of digits. *)
Lemma int_of_digits s :
  all_digits s = true ->
  s <> "" ->
  exists z, int s = Ok z /\ 0 <= z < 10 ^ Z.of_nat (String.length s).
Proof.
  intros H Hne.
  destruct (int_digits_digits s H 0 false ltac:(lia) ltac:(now left))
    as (z & Hz & Hb).
  exists z. split; [|lia].
  unfold int. rewrite (strip_digits _ H).
  destruct s as [|c r]; [now elim Hne|].
  cbn [all_digits] in H. apply andb_true_iff in H as [Hc _].
  assert (Hm : c <> "-"%char /\ c <> "+"%char)
    by (split; intros ->; discriminate).
  destruct Hm as [Hm Hp].
  destruct c as [[] [] [] [] [] [] [] []];
    try (now elim Hm); try (now elim Hp); now rewrite Hz.
Qed.

Ltac run :=
  cbv beta iota zeta delta
    [bind ret get modify try_except lift_result on_device log_call addstr
     refresh beep draw set_buffer set_active set_value with_self __set
     self world screen refreshes beeps active buffer trigger channel device
     value xpos ypos Device.logging negb fst snd].

Lemma str_len_digits s :
  all_digits s = true -> KeyboardInput.str_len s = String.length s.
Proof.
  induction s as [|c s IH]; [reflexivity|]. intros H.
  cbn [all_digits] in H. apply andb_true_iff in H as [Hc Hs].
  cbn [KeyboardInput.str_len String.length].
  assert (Ha : byte_in 0 127 c = true).
  { destruct (all_digits_plain (String c "") ltac:(cbn; now rewrite Hc))
      as [Ha _]. cbn in Ha. now apply andb_true_iff in Ha as [Ha _]. }
  rewrite (KeyboardFacts.ascii_is_not_continuation _ Ha). now rewrite (IH Hs).
Qed.

Lemma all_digits_app a b :
  all_digits (a ++ b) = all_digits a && all_digits b.
Proof.
  induction a as [|x a IH]; [reflexivity|].
  change (all_digits (String x (a ++ b))
          = all_digits (String x a) && all_digits b).
  cbn [all_digits]. rewrite IH. now rewrite andb_assoc.
Qed.

Lemma length_app (a b : string) :
  String.length (a ++ b) = (String.length a + String.length b)%nat.
Proof.
  induction a as [|x a IH]; [reflexivity|].
  change (String.length (String x (a ++ b))
          = (String.length (String x a) + String.length b)%nat).
  cbn [String.length]. now rewrite IH.
Qed.

Lemma but_last_digits s :
  all_digits s = true ->
  all_digits (KeyboardInput.str_but_last s) = true /\
  (String.length (KeyboardInput.str_but_last s) <= String.length s)%nat.
Proof.
  unfold KeyboardInput.str_but_last.
  generalize (KeyboardInput.str_len s - 1)%nat as k.
  induction s as [|c s IH]; intros k H; [now split|].
  cbn [all_digits] in H. apply andb_true_iff in H as [Hc Hs].
  assert (Ha : byte_in 0 127 c = true).
  { destruct (all_digits_plain (String c "") ltac:(cbn; now rewrite Hc))
      as [Ha _]. cbn in Ha. now apply andb_true_iff in Ha as [Ha _]. }
  cbn [str_take]. rewrite (KeyboardFacts.ascii_is_not_continuation _ Ha).
  destruct k as [|k]; [split; [reflexivity|cbn [String.length]; lia]|].
  destruct (IH k Hs) as [H1 H2]. cbn [all_digits String.length].
  rewrite Hc, H1. split; [reflexivity|lia].
Qed.

Ltac settled :=
  eexists _, _; split; [reflexivity|]; split; [reflexivity|];
  split;
  [ split; cbn [self buffer all_digits String.length];
    first [assumption|reflexivity|lia]
  | now repeat split ].



Lemma one_character_is_no_name c name :
  (2 <= String.length name)%nat -> String.eqb (String c "") name = false.
Proof.
  intros H. apply String.eqb_neq. intros <-. cbn in H. lia.
Qed.

(** The trigger wakes an idle widget. *)
Lemma press_trigger d :
  active (self d) = false ->
  exists d',
    process_input (trigger (self d)) d = (Ok true, d') /\
    self d' = mkWidget (xpos (self d)) (ypos (self d)) (channel (self d))
                (device (self d)) true (trigger (self d)) (buffer (self d))
                (value (self d)) /\
    (forall dev, io (world d') dev = io (world d) dev) /\
    (forall dev, command_log (world d') dev = command_log (world d) dev).
Proof.
  destruct d as [[x y ch dev act trg buf val] w scr rf bp].
  cbn [self active trigger]. intros ->.
  unfold process_input. run. rewrite String.eqb_refl. run.
  eexists. split; [reflexivity|]. now repeat split.
Qed.

(** A digit typed into an active widget with room in its buffer. *)
Lemma type_digit c d :
  active (self d) = true ->
  is_digit c = true ->
  String c "" <> trigger (self d) ->
  all_digits (buffer (self d)) = true ->
  (String.length (buffer (self d)) < 3)%nat ->
  exists d',
    process_input (String c "") d = (Ok true, d') /\
    self d' = mkWidget (xpos (self d)) (ypos (self d)) (channel (self d))
                (device (self d)) true (trigger (self d))
                (buffer (self d) ++ String c "") (value (self d)) /\
    world d' = world d.
Proof.
  destruct d as [[x y ch dev act trg buf val] w scr rf bp].
  cbn [self active trigger buffer]. intros -> Hc Hne Hdig Hlen.
  unfold process_input. run.
  apply String.eqb_neq in Hne. rewrite Hne.
  rewrite !one_character_is_no_name by (cbn; lia). cbn [orb].
  assert (Hk : ((KeyboardInput.str_len (String c "") =? 1)%nat
                && isdigit (String c "")) = true).
  { rewrite (str_len_digits (String c "")) by (cbn; now rewrite Hc).
    unfold isdigit. cbn [all_digits]. rewrite Hc. reflexivity. }
  rewrite Hk. rewrite (str_len_digits _ Hdig).
  apply Nat.ltb_lt in Hlen. rewrite Hlen. run.
  eexists. split; [reflexivity|]. now split.
Qed.

Lemma type_digits cs :
  forall d,
    active (self d) = true ->
    Forall (fun c => is_digit c = true /\ String c "" <> trigger (self d)) cs ->
    all_digits (buffer (self d)) = true ->
    (String.length (buffer (self d)) + length cs <= 3)%nat ->
    exists d',
      feed (map (fun c => String c "") cs) d
      = (Ok (map (fun _ => true) cs), d') /\
      self d' = mkWidget (xpos (self d)) (ypos (self d)) (channel (self d))
                  (device (self d)) true (trigger (self d))
                  (buffer (self d) ++ string_of_list_ascii cs)
                  (value (self d)) /\
      world d' = world d.
Proof.
  induction cs as [|c cs IH]; intros d Ha Hall Hdig Hlen.
  - exists d. split; [reflexivity|]. split; [|reflexivity].
    cbn [string_of_list_ascii]. rewrite ConsumerMore.append_empty_r.
    destruct d as [[x y ch dev act trg buf val] w scr rf bp].
    cbn in *. now subst act.
  - inversion Hall as [|? ? [Hc Hne] Hrest]; subst.
    cbn [length] in Hlen.
    destruct (type_digit c d Ha Hc Hne Hdig ltac:(lia))
      as (d1 & E1 & S1 & W1).
    assert (Ha1 : active (self d1) = true) by now rewrite S1.
    assert (Hall1 : Forall (fun c => is_digit c = true
                              /\ String c "" <> trigger (self d1)) cs)
      by now rewrite S1.
    assert (Hdig1 : all_digits (buffer (self d1)) = true).
    { rewrite S1. cbn [buffer]. rewrite all_digits_app, Hdig.
      cbn [all_digits]. now rewrite Hc. }
    assert (Hlen1 : (String.length (buffer (self d1)) + length cs <= 3)%nat).
    { rewrite S1. cbn [buffer]. rewrite length_app. cbn [String.length]. lia. }
    destruct (IH d1 Ha1 Hall1 Hdig1 Hlen1) as (d2 & E2 & S2 & W2).
    exists d2. split; [|split].
    + cbn [map feed].
      rewrite (bind_Ok _ _ _ _ _ E1), (bind_Ok _ _ _ _ _ E2). reflexivity.
    + rewrite S2, S1. cbn [xpos ypos channel device trigger buffer value].
      now rewrite DeviceMore.append_assoc.
    + now rewrite W2, W1.
Qed.

(** ENTER on a filled buffer, whatever becomes of the set command. *)
Lemma press_enter d z r w' :
  active (self d) = true ->
  trigger (self d) <> "ENTER" ->
  buffer (self d) <> "" ->
  int (buffer (self d)) = Ok z ->
  Device.pwm (device (self d)) (channel (self d)) (Some z)
    (with_log (fun l => l ++ [LogRecord "Widget.py:PWMWidget.process_input()"
                               "DEBUG"
                               ("buffer='" ++ buffer (self d) ++ "', value="
                                  ++ str_of_int (value (self d)))])%list
       (world d)) = (r, w') ->
  let v := match r with Ok v => v | Raise _ => value (self d) end in
  exists d',
    process_input "ENTER" d = (Ok false, d') /\
    self d' = mkWidget (xpos (self d)) (ypos (self d)) (channel (self d))
                (device (self d)) false (trigger (self d)) "" v /\
    (forall dev, command_log (world d') dev = command_log w' dev) /\
    log (world d')
    = (log w'
       ++ match r with
          | Ok _ => []
          | Raise _ =>
              [LogRecord "Widget.py:PWMWidget.__set()" "ERROR"
                 ("Set PWM" ++ str_of_int (channel (self d)) ++ " failed!")]
          end
       ++ [LogRecord "Widget.py:PWMWidget.process_input()" "INFO"
             ("ch" ++ str_of_int (channel (self d)) ++ " PWM set to "
                ++ str_of_int v)])%list.
Proof.
  destruct d as [[x y ch dev act trg buf val] w scr rf bp].
  cbn [self active trigger buffer channel device value world].
  intros -> Ht Hb Hint Hpwm.
  unfold process_input. run.
  assert (E1 : String.eqb "ENTER" "ESC" || String.eqb "ENTER" trg = false).
  { apply String.eqb_neq in Ht. rewrite String.eqb_sym in Ht. now rewrite Ht. }
  rewrite E1. change (String.eqb "ENTER" "DEL" || String.eqb "ENTER" "BACKSPACE")
    with false. cbv iota.
  change (String.eqb "ENTER" "ENTER") with true. cbv iota.
  apply String.eqb_neq in Hb. rewrite Hb. run. rewrite Hint. run.
  change ("Widget.py:PWMWidget." ++ "process_input" ++ "()")
    with "Widget.py:PWMWidget.process_input()".
  rewrite Hpwm.
  destruct r as [v0|e]; run;
    (eexists; split; [reflexivity|]; split; [reflexivity|]; split;
     [intros; reflexivity|]; cbn [log with_log];
     rewrite <- ?app_assoc; reflexivity).
Qed.

Lemma digits_of_list cs :
  Forall (fun c => is_digit c = true) cs ->
  all_digits (string_of_list_ascii cs) = true /\
  String.length (string_of_list_ascii cs) = length cs.
Proof.
  induction 1 as [|c cs Hc _ [IH1 IH2]]; [now split|].
  cbn [string_of_list_ascii all_digits String.length length].
  now rewrite Hc, IH1, IH2.
Qed.

(** X28: a number typed goes all the way.  On an idle widget of
    channel 1 to 4, the trigger, one to three digits and ENTER make the
    widget send [PWMnSxxx] with the number typed; the emulator, given
    that command, stores the number in [_pwm[n]], and with its reply on
    the line the widget ends up idle, its buffer empty, showing the
    number typed as its value; the command is in the device's command
    log. *)
Theorem typed_number_sets_the_channel d e p port text items cs :
  active (self d) = false ->
  buffer (self d) = "" ->
  In (channel (self d)) [1; 2; 3; 4] ->
  trigger (self d) <> "ENTER" ->
  Forall (fun c => is_digit c = true /\ String c "" <> trigger (self d)) cs ->
  (1 <= length cs <= 3)%nat ->
  io (world d) (device (self d)) = Some (p, port, text) ->
  rx port = "" ->
  write_times_out port = false ->
  command_log (world d) (device (self d)) = Some items ->
  length (Emulator._pwm e) = 5%nat ->
  exists z,
    int (string_of_list_ascii cs) = Ok z /\
    0 <= z <= 999 /\
    let n := channel (self d) in
    let keys := map (fun c => String c "") cs in
    let reply :=
      format_zero_padded 3 z ++ Emulator.NL ++ "OK" ++ Emulator.NL in
    let r1 := feed (trigger (self d) :: keys) d in
    let r2 := process_input "ENTER" (hears p reply r1.2) in
    r1.1 = Ok (true :: map (fun _ => true) keys) /\
    (exists e',
        Emulator.loop_body (PWM_set n z) e = Some e' /\
        Emulator.bus e' = Emulator.bus e ++ reply /\
        Emulator._pwm e' = <[Z.to_nat n := z]> (Emulator._pwm e)) /\
    r2.1 = Ok false /\
    value (self r2.2) = z /\
    buffer (self r2.2) = "" /\
    active (self r2.2) = false /\
    command_log (world r2.2) (device (self d))
    = Some (items ++ [PWM_set n z])%list.
Proof.
  intros Hact Hbuf Hn Ht Hall Hlen Hio Hrx Hw Hlog He.
  assert (Hds : Forall (fun c => is_digit c = true) cs).
  { clear -Hall. induction Hall as [|c cs [H _] _ IH]; constructor; assumption. }
  destruct (digits_of_list cs Hds) as [Hdig Hl].
  assert (Hne : string_of_list_ascii cs <> "")
    by (intros E; rewrite E in Hl; cbn in Hl; lia).
  destruct (int_of_digits _ Hdig Hne) as (z & Hint & Hz).
  assert (Hz' : 0 <= z <= 999).
  { rewrite Hl in Hz.
    assert (10 ^ Z.of_nat (length cs) <= 10 ^ 3)
      by (apply Z.pow_le_mono_r; lia).
    lia. }
  exists z. split; [exact Hint|]. split; [exact Hz'|].
  cbv zeta.
  (* the trigger *)
  destruct (press_trigger d Hact) as (d1 & E1 & S1 & I1 & C1).
  (* the digits *)
  destruct (type_digits cs d1 ltac:(now rewrite S1) ltac:(now rewrite S1)
              ltac:(now rewrite S1; cbn [buffer]; rewrite Hbuf)
              ltac:(rewrite S1; cbn [buffer]; rewrite Hbuf; cbn; lia))
    as (d2 & E2 & S2 & W2).
  assert (Hfeed : feed (trigger (self d) :: map (fun c => String c "") cs) d
                  = (Ok (true :: map (fun _ => true)
                                   (map (fun c => String c "") cs)), d2)).
  { cbn [feed]. rewrite (bind_Ok _ _ _ _ _ E1), (bind_Ok _ _ _ _ _ E2).
    cbn [ret]. now rewrite map_map. }
  rewrite Hfeed. cbn [fst snd].
  split; [reflexivity|].
  (* the emulator *)
  pose proof pwm_sets_parse as Hp. rewrite forallb_forall in Hp.
  specialize (Hp _ Hn).
  pose proof (forallb_range _ _ _ Hp z ltac:(lia)) as Hparse.
  cbv beta in Hparse.
  split; [exact (loop_body_pwm_set e _ z z Hn Hparse He)|].
  (* ENTER *)
  assert (S2' : self d2
                = mkWidget (xpos (self d)) (ypos (self d)) (channel (self d))
                    (device (self d)) true (trigger (self d))
                    (string_of_list_ascii cs) (value (self d))).
  { rewrite S2, S1. cbn [xpos ypos channel device trigger buffer value].
    now rewrite Hbuf. }
  set (reply := format_zero_padded 3 z ++ Emulator.NL ++ "OK" ++ Emulator.NL).
  set (d3 := hears p reply d2).
  assert (S3 : self d3 = self d2) by reflexivity.
  set (note := fun l : list log_record =>
                 (l ++ [LogRecord "Widget.py:PWMWidget.process_input()"
                          "DEBUG"
                          ("buffer='" ++ string_of_list_ascii cs ++ "', value="
                             ++ str_of_int (value (self d)))])%list).
  assert (Hio2 : io (with_log note (world d2)) (device (self d))
                 = Some (p, port, text))
    by (rewrite W2; change (io (world d1) (device (self d)) = Some (p, port, text));
        now rewrite I1).
  assert (Hlog2 : command_log (with_log note (world d2)) (device (self d))
                  = Some items)
    by (rewrite W2;
        change (command_log (world d1) (device (self d)) = Some items);
        now rewrite C1).
  destruct (pwm_set_heard _ _ _ _ _ _ (channel (self d)) z ltac:(lia)
              Hio2 Hrx Hw Hlog2) as (w' & Hrun & Hcmd & _).
  assert (Hpwm :
            Device.pwm (device (self d3)) (channel (self d3)) (Some z)
              (with_log
                 (fun l => l ++ [LogRecord "Widget.py:PWMWidget.process_input()"
                                   "DEBUG"
                                   ("buffer='" ++ buffer (self d3)
                                      ++ "', value="
                                      ++ str_of_int (value (self d3)))])%list
                 (world d3)) = (Ok z, w')).
  { rewrite S3, S2'. cbn [device channel buffer value]. exact Hrun. }
  assert (A3 : active (self d3) = true) by now rewrite S3, S2'.
  assert (T3 : trigger (self d3) <> "ENTER") by now rewrite S3, S2'.
  assert (B3 : buffer (self d3) <> "") by now rewrite S3, S2'.
  assert (N3 : int (buffer (self d3)) = Ok z) by now rewrite S3, S2'.
  destruct (press_enter d3 z (Ok z) w' A3 T3 B3 N3 Hpwm)
    as (d4 & E4 & S4 & C4 & _).
  rewrite E4. cbn [fst snd]. rewrite S4, C4, S3, S2'.
  cbn [value buffer active channel device].
  split; [reflexivity|]. split; [reflexivity|]. split; [reflexivity|].
  split; [reflexivity|]. exact Hcmd.
Qed.

Lemma typed_number_witness :
  let d := mkDesk (mkWidget 17 21 2 Scenario.d1 false "F2" "" 25)
             Scenario.two_devices [] 0 0 in
  let reply := "035" ++ Emulator.NL ++ "OK" ++ Emulator.NL in
  value (self (process_input "ENTER"
                 (hears Scenario.port1 reply
                    (feed ["F2"; "0"; "3"; "5"] d).2)).2)
  = 35.
Proof.
  intros d reply.
  destruct (typed_number_sets_the_channel d (Emulator.started [])
              Scenario.port1 (mkPort "" "" false) (Some "") []
              ["0"; "3"; "5"]%char
              eq_refl eq_refl ltac:(cbn; tauto) ltac:(discriminate)
              ltac:(repeat constructor; discriminate)
              ltac:(cbn; lia)
              ltac:(vm_compute; reflexivity) eq_refl eq_refl
              ltac:(vm_compute; reflexivity) eq_refl)
    as (z & Hint & _ & H).
  assert (Hz : z = 35) by (vm_compute in Hint; now inversion Hint).
  subst z. cbv zeta in H.
  destruct H as (_ & _ & _ & Hv & _). exact Hv.
Defined.

(** X29: a set command that fails is passed over in silence.  When the
    board does not answer, ENTER on a filled buffer still returns
    normally: the widget is idle again, its buffer empty and its value
    the old one; the only trace is in the log, an ERROR record from
    [__set] followed by an INFO record saying that the channel was set,
    to the old value. *)
Theorem failed_set_is_passed_over d p port text z :
  active (self d) = true ->
  trigger (self d) <> "ENTER" ->
  buffer (self d) <> "" ->
  int (buffer (self d)) = Ok z ->
  io (world d) (device (self d)) = Some (p, port, text) ->
  write_times_out port = false ->
  has_LF (rx port) = false ->
  let r := process_input "ENTER" d in
  let ch := str_of_int (channel (self d)) in
  r.1 = Ok false /\
  value (self r.2) = value (self d) /\
  buffer (self r.2) = "" /\
  active (self r.2) = false /\
  exists before,
    log (world r.2)
    = (before
       ++ [LogRecord "Widget.py:PWMWidget.__set()" "ERROR"
             ("Set PWM" ++ ch ++ " failed!");
           LogRecord "Widget.py:PWMWidget.process_input()" "INFO"
             ("ch" ++ ch ++ " PWM set to "
                ++ str_of_int (value (self d)))])%list.
Proof.
  intros Ha Ht Hb Hint Hio Hw Hl r ch.
  set (note := fun l : list log_record =>
                 (l ++ [LogRecord "Widget.py:PWMWidget.process_input()"
                          "DEBUG"
                          ("buffer='" ++ buffer (self d) ++ "', value="
                             ++ str_of_int (value (self d)))])%list).
  assert (Hio1 : io (with_log note (world d)) (device (self d))
                 = Some (p, port, text)) by exact Hio.
  destruct (transact_first_read_fails _ _ _ _ _
              (PWM_set (channel (self d)) z) Serial_read_timeout Hio1 Hw
              ltac:(left; destruct (no_LF_line _ Hl) as [-> ?]; now split))
    as (w' & Et & _ & _ & _ & Hlog).
  assert (Hpwm : Device.pwm (device (self d)) (channel (self d)) (Some z)
                   (with_log note (world d))
                 = (Raise (ValueError Serial_read_timeout), w')).
  { unfold pwm. fold (PWM_set (channel (self d)) z).
    apply bind_Raise. now apply bind_Raise. }
  destruct (press_enter d z _ w' Ha Ht Hb Hint Hpwm)
    as (d' & E & S' & _ & L).
  subst r. rewrite E. cbn [fst snd]. rewrite S'.
  split; [reflexivity|]. split; [reflexivity|]. split; [reflexivity|].
  split; [reflexivity|].
  exists (log w'). rewrite L. reflexivity.
Qed.

Lemma failed_set_witness :
  let d := mkDesk (mkWidget 6 21 1 Scenario.d1 true "F1" "035" 25)
             Scenario.two_devices [] 0 0 in
  (process_input "ENTER" d).1 = Ok false /\
  value (self (process_input "ENTER" d).2) = 25.
Proof.
  intros d.
  destruct (failed_set_is_passed_over d Scenario.port1 (mkPort "" "" false)
              (Some "") 35
              eq_refl ltac:(discriminate) ltac:(discriminate)
              ltac:(vm_compute; reflexivity)
              ltac:(vm_compute; reflexivity) eq_refl eq_refl)
    as (H1 & H2 & _).
  split; [exact H1|exact H2].
Defined.

End WidgetFacts.
